(** * natural-audio-video-slowdown: the job orchestration core

    A shallow embedding of [app/core/models.py], [app/core/ffmpeg.py]
    ([parse_ffmpeg_time_to_seconds]) and [app/core/workers.py]
    ([ProcessorWorker], [JobManager]), followed by the properties of the
    queue, of the progress parser and of the termination handling.

    Conventions.
    - Python [int] is [Z]; Python [float] is IEEE binary64, here the
      primitive [float] of Rocq, with Python's own [max]/[min] and its
      [ZeroDivisionError] written out.
    - Python [str] is [string]; a character is a code point below 256.
    - Exceptions are values of [res]; [try ... except Exception] is
      [try_except].
    - What a thread reads from the outside world (clock, child process,
      the stop flag set by another thread) is an explicit input record.
    - Qt signals are values; emitting appends to the list a function
      returns. *)

From Stdlib Require Import ZArith List String Ascii Bool Lia.
From Stdlib Require Import Floats.PrimFloat Floats.SpecFloat Floats.FloatOps
  Floats.FloatAxioms.
From stdpp Require Import base option list gmap strings pretty.

#[local] Set Warnings "-inexact-float".

Local Open Scope string_scope.
Local Open Scope list_scope.
Local Open Scope Z_scope.

(* ================================================================== *)
(** * The Python runtime the sources rely on *)

Module Py.

(** The exception classes that the modelled code can meet, each with the
    text of [str(e)].  All of them derive from [Exception]. *)
Inductive exn : Type :=
| ValueError (msg : string)
| IndexError (msg : string)
| OverflowError (msg : string)
| ZeroDivisionError (msg : string)
| OSError (msg : string).

(** Result of evaluating an expression: a value or a raised exception. *)
Inductive res (A : Type) : Type :=
| Ok (a : A)
| Raise (e : exn).
Arguments Ok {A} a.
Arguments Raise {A} e.

#[export] Instance res_ret : MRet res := fun A a => Ok a.
#[export] Instance res_bind : MBind res := fun A B f m =>
  match m with
  | Ok a => f a
  | Raise e => Raise e
  end.

(** [try: body except Exception: handler] *)
Definition try_except {A : Type} (body : res A) (handler : exn -> res A) : res A :=
  match body with
  | Ok a => Ok a
  | Raise e => handler e
  end.

Definition raises {A : Type} (r : res A) : bool :=
  match r with
  | Ok _ => false
  | Raise _ => true
  end.

(** [str(e)] as it appears in an f-string. *)
Definition str_exn (e : exn) : string :=
  match e with
  | ValueError msg | IndexError msg | OverflowError msg
  | ZeroDivisionError msg | OSError msg => msg
  end.

(** ** Floats *)

(** [max(a, b)]: the first argument unless the second is strictly greater. *)
Definition max (a b : float) : float := if PrimFloat.ltb a b then b else a.

(** [min(a, b)]: the first argument unless the second is strictly smaller. *)
Definition min (a b : float) : float := if PrimFloat.ltb b a then b else a.

(** [a / b] on floats raises on a zero divisor (of either sign). *)
Definition truediv (a b : float) : res float :=
  if PrimFloat.eqb b 0%float then Raise (ZeroDivisionError "float division by zero")
  else Ok (PrimFloat.div a b).

(** Conversion of an [int] operand in mixed arithmetic: round to nearest
    even, [OverflowError] when the integer is out of the binary64 range. *)
Definition float_of_int (z : Z) : res float :=
  match binary_normalize prec emax z 0 false with
  | S754_infinity _ => Raise (OverflowError "int too large to convert to float")
  | sf => Ok (SF2Prim sf)
  end.

(** ** Integers *)

Definition zmax (a b : Z) : Z := if a <? b then b else a.

(** [str(n)] for an [int]. *)
Definition str_int (n : Z) : string := pretty n.

(** ** Strings *)

(** [c.isspace()] for a code point below 256. *)
Definition isspace (c : ascii) : bool :=
  let n := nat_of_ascii c in
  ((9 <=? n)%nat && (n <=? 13)%nat || (28 <=? n)%nat && (n <=? 32)%nat
   || (n =? 133)%nat || (n =? 160)%nat).

Fixpoint lstrip (s : string) : string :=
  match s with
  | String c s' => if isspace c then lstrip s' else s
  | EmptyString => EmptyString
  end.

(** Removes trailing white space: a character is kept when something that
    is not white space follows it or it is not white space itself. *)
Fixpoint rstrip (s : string) : string :=
  match s with
  | String c s' =>
      match rstrip s' with
      | EmptyString => if isspace c then EmptyString else String c EmptyString
      | r => String c r
      end
  | EmptyString => EmptyString
  end.

(** [s.strip()] *)
Definition strip (s : string) : string := rstrip (lstrip s).

(** [sub in s] *)
Fixpoint contains (sub s : string) : bool :=
  String.prefix sub s ||
  match s with
  | String _ s' => contains sub s'
  | EmptyString => false
  end.

(** [s.split(sep)] for a non-empty separator: left-to-right, matches do
    not overlap.  [skip] counts the characters of a match still to drop,
    [cur] is the piece being built, reversed. *)
Fixpoint split_from (sep : string) (skip : nat) (cur : list ascii) (s : string)
  : list string :=
  match s with
  | EmptyString => [string_of_list_ascii (rev cur)]
  | String c s' =>
      match skip with
      | S k => split_from sep k cur s'
      | O =>
          if String.prefix sep s
          then string_of_list_ascii (rev cur)
               :: split_from sep (Nat.pred (String.length sep)) [] s'
          else split_from sep O (c :: cur) s'
      end
  end.

Definition split (sep s : string) : list string := split_from sep O [] s.

(** [s.split()]: pieces between runs of white space, none of them empty. *)
Fixpoint split_ws_from (cur : list ascii) (s : string) : list string :=
  match s with
  | EmptyString =>
      match cur with
      | [] => []
      | _ => [string_of_list_ascii (rev cur)]
      end
  | String c s' =>
      if isspace c then
        match cur with
        | [] => split_ws_from [] s'
        | _ => string_of_list_ascii (rev cur) :: split_ws_from [] s'
        end
      else split_ws_from (c :: cur) s'
  end.

Definition split_ws (s : string) : list string := split_ws_from [] s.

(** [l[0]] *)
Definition getitem_first {A : Type} (l : list A) : res A :=
  match l with
  | x :: _ => Ok x
  | [] => Raise (IndexError "list index out of range")
  end.

(** [l[-1]] *)
Definition getitem_last {A : Type} (l : list A) : res A :=
  match rev l with
  | x :: _ => Ok x
  | [] => Raise (IndexError "list index out of range")
  end.

(** [a, b, c = l] *)
Definition unpack3 {A : Type} (l : list A) : res (A * A * A) :=
  match l with
  | [a; b; c] => Ok (a, b, c)
  | _ :: _ :: _ :: _ :: _ => Raise (ValueError "too many values to unpack (expected 3)")
  | _ => Raise (ValueError "not enough values to unpack (expected 3)")
  end.

(** The two parsing builtins, [int(s)] and [float(s)].  Their grammar is
    the interpreter's, not this repository's: the development is
    parametric in them. *)
Class Builtins : Type := {
  int : string -> res Z;
  float_ : string -> res float;
}.

End Py.

Import Py.

(* ================================================================== *)
(** * app/core/models.py *)

Module Models.

Inductive JobStatus : Type :=
| PENDING | QUEUED | RUNNING | PAUSED | COMPLETED | FAILED | CANCELED | SKIPPED.

(** [JobStatus.X.value] *)
Definition value (st : JobStatus) : string :=
  match st with
  | PENDING => "Pending"
  | QUEUED => "Queued"
  | RUNNING => "Running"
  | PAUSED => "Paused"
  | COMPLETED => "Completed"
  | FAILED => "Failed"
  | CANCELED => "Canceled"
  | SKIPPED => "Skipped"
  end.

#[export] Instance JobStatus_eq_dec : EqDecision JobStatus.
Proof. solve_decision. Defined.

(** The [Job] dataclass.  Paths are kept as their text. *)
Record Job : Type := mkJob {
  id : Z;
  input_path : string;
  output_path : string;
  status : JobStatus;
  duration : float;
  has_video : bool;
  has_audio : bool;
  progress : float;
  eta_seconds : option float;
  message : string;
  start_time : option float;
  end_time : option float;
  ffmpeg_pid : option Z;
  preview_mode : bool;
  command : list string;
  extra : gmap string string;
}.

(** [Job(id, input_path, output_path)] with the dataclass defaults. *)
Definition new_job (i : Z) (inp out : string) : Job :=
  {| id := i; input_path := inp; output_path := out; status := PENDING;
     duration := 0%float; has_video := false; has_audio := false;
     progress := 0%float; eta_seconds := None; message := "";
     start_time := None; end_time := None; ffmpeg_pid := None;
     preview_mode := false; command := []; extra := ∅ |}.

(** Each [mark_*] method reads the clock once; the reading is [now]. *)
Definition mark_running (now : float) (j : Job) : Job :=
  {| id := id j; input_path := input_path j; output_path := output_path j;
     status := RUNNING;
     duration := duration j; has_video := has_video j; has_audio := has_audio j;
     progress := 0%float;
     eta_seconds := None;
     message := message j;
     start_time := Some now;
     end_time := end_time j; ffmpeg_pid := ffmpeg_pid j;
     preview_mode := preview_mode j; command := command j; extra := extra j |}.

Definition mark_completed (now : float) (j : Job) : Job :=
  {| id := id j; input_path := input_path j; output_path := output_path j;
     status := COMPLETED;
     duration := duration j; has_video := has_video j; has_audio := has_audio j;
     progress := 1%float;
     eta_seconds := eta_seconds j; message := message j;
     start_time := start_time j;
     end_time := Some now;
     ffmpeg_pid := ffmpeg_pid j;
     preview_mode := preview_mode j; command := command j; extra := extra j |}.

Definition mark_failed (now : float) (msg : string) (j : Job) : Job :=
  {| id := id j; input_path := input_path j; output_path := output_path j;
     status := FAILED;
     duration := duration j; has_video := has_video j; has_audio := has_audio j;
     progress := progress j; eta_seconds := eta_seconds j;
     message := msg;
     start_time := start_time j;
     end_time := Some now;
     ffmpeg_pid := ffmpeg_pid j;
     preview_mode := preview_mode j; command := command j; extra := extra j |}.

Definition mark_canceled (now : float) (j : Job) : Job :=
  {| id := id j; input_path := input_path j; output_path := output_path j;
     status := CANCELED;
     duration := duration j; has_video := has_video j; has_audio := has_audio j;
     progress := progress j; eta_seconds := eta_seconds j; message := message j;
     start_time := start_time j;
     end_time := Some now;
     ffmpeg_pid := ffmpeg_pid j;
     preview_mode := preview_mode j; command := command j; extra := extra j |}.

(** [job.ffmpeg_pid = pid] *)
Definition set_ffmpeg_pid (pid : Z) (j : Job) : Job :=
  {| id := id j; input_path := input_path j; output_path := output_path j;
     status := status j;
     duration := duration j; has_video := has_video j; has_audio := has_audio j;
     progress := progress j; eta_seconds := eta_seconds j; message := message j;
     start_time := start_time j; end_time := end_time j;
     ffmpeg_pid := Some pid;
     preview_mode := preview_mode j; command := command j; extra := extra j |}.

End Models.

Import Models.

(* ================================================================== *)
(** * app/core/ffmpeg.py *)

Module Ffmpeg.

Section WithBuiltins.
Context {B : Builtins}.

(** The body of the [try] block of [parse_ffmpeg_time_to_seconds]:
    [hh, mm, ss = value.split(":")] and
    [int(hh) * 3600 + int(mm) * 60 + float(ss)]. *)
Definition parse_body (value : string) : res float :=
  '(hh, mm, ss) ← unpack3 (split ":" value);
  h ← int hh;
  m ← int mm;
  s ← float_ ss;
  whole ← float_of_int (h * 3600 + m * 60);
  mret (PrimFloat.add whole s).

(** Parse ffmpeg time string HH:MM:SS.ms to seconds float. *)
Definition parse_ffmpeg_time_to_seconds (value : string) : res (option float) :=
  try_except (t ← parse_body value; mret (Some t)) (fun _ => mret None).

End WithBuiltins.

End Ffmpeg.

Import Ffmpeg.

(* ================================================================== *)
(** * A reference reading of [int] and [float] on plain decimal text

    Used to run the model on concrete diagnostic lines.  It covers the
    spellings ffmpeg prints: an optional sign, decimal digits and, for
    [float], an optional fractional part; surrounding white space is
    accepted as the interpreter does.  Other spellings the interpreter
    would accept (exponents, [inf], [nan], digit separators) are rejected
    here with [ValueError]. *)

Module Decimal.

Definition digit (c : ascii) : option Z :=
  let n := nat_of_ascii c in
  if ((48 <=? n)%nat && (n <=? 57)%nat)%bool
  then Some (Z.of_nat (n - 48)) else None.

(** Reads a run of digits: their value after [acc], how many there were,
    and the rest of the text. *)
Fixpoint digits (acc : Z) (count : nat) (s : string) : Z * nat * string :=
  match s with
  | String c s' =>
      match digit c with
      | Some d => digits (10 * acc + d) (S count) s'
      | None => (acc, count, s)
      end
  | EmptyString => (acc, count, s)
  end.

(** Splits off a leading sign; [true] for a minus. *)
Definition sign (s : string) : bool * string :=
  match s with
  | String "-" s' => (true, s')
  | String "+" s' => (false, s')
  | _ => (false, s)
  end.

Definition invalid_int (s : string) : exn :=
  ValueError ("invalid literal for int() with base 10: '" +:+ s +:+ "'").

Definition invalid_float (s : string) : exn :=
  ValueError ("could not convert string to float: '" +:+ s +:+ "'").

Definition int (s : string) : res Z :=
  let '(neg, body) := sign (strip s) in
  match digits 0 0 body with
  | (v, S _, EmptyString) => Ok (if neg then - v else v)
  | _ => Raise (invalid_int s)
  end.

(** The binary64 nearest to [m / 10 ^ k], ties to even. *)
Definition nearest (neg : bool) (m : Z) (k : nat) : float :=
  match m with
  | Zpos p =>
      SF2Prim (SFdiv prec emax (S754_finite neg p 0)
                 (S754_finite false (Z.to_pos (10 ^ Z.of_nat k)) 0))
  | _ => SF2Prim (S754_zero neg)
  end.

Definition float_ (s : string) : res float :=
  let '(neg, body) := sign (strip s) in
  let '(whole, n1, rest) := digits 0 0 body in
  match rest with
  | EmptyString =>
      match n1 with
      | O => Raise (invalid_float s)
      | S _ => Ok (nearest neg whole 0)
      end
  | String "." frac =>
      match digits whole 0 frac with
      | (m, n2, EmptyString) =>
          match (n1 + n2)%nat with
          | O => Raise (invalid_float s)
          | S _ => Ok (nearest neg m n2)
          end
      | _ => Raise (invalid_float s)
      end
  | _ => Raise (invalid_float s)
  end.

Definition builtins : Builtins := {| Py.int := int; Py.float_ := float_ |}.

End Decimal.


(* ================================================================== *)
(** * app/core/workers.py *)

Module Workers.

(** ** ProcessorSignals *)

Inductive Signal : Type :=
| sig_progress (job_id : Z) (prog eta : float)
| sig_status (job_id : Z) (text : string)
| sig_log (job_id : Z) (line : string)
| sig_started (job_id : Z) (pid : Z)
| sig_finished (job_id : Z) (ok : bool) (msg : string).

(** ** ProcessorWorker *)

(** The worker object: its job and the two [threading.Event] flags that the
    scheduler thread sets.  The process handle and the optional
    suspend/resume through [psutil] act on the child process only. *)
Record ProcessorWorker : Type := mkWorker {
  job : Job;
  _stop_event : bool;
  _pause_event : bool;
}.

(** [ProcessorWorker(job)] *)
Definition ProcessorWorker_init (j : Job) : ProcessorWorker :=
  {| job := j; _stop_event := false; _pause_event := false |}.

Definition cancel (w : ProcessorWorker) : ProcessorWorker :=
  {| job := job w; _stop_event := true; _pause_event := _pause_event w |}.

Definition pause (w : ProcessorWorker) : ProcessorWorker :=
  {| job := job w; _stop_event := _stop_event w; _pause_event := true |}.

Definition resume (w : ProcessorWorker) : ProcessorWorker :=
  {| job := job w; _stop_event := _stop_event w; _pause_event := false |}.

(** What [process.wait(timeout=1)] does: return the exit code, or raise
    [TimeoutExpired] because the process is still alive. *)
Inductive Wait : Type :=
| exited (code : Z)
| timeout_expired.

(** One line read from the child's stderr, with the clock reading that
    [time.time()] returns if the line gets as far as the estimate. *)
Record StderrLine : Type := mkLine {
  text : string;
  clock : float;
}.

(** Everything [run] reads from outside its own thread. *)
Record World : Type := mkWorld {
  clock_mark : float;       (* [time.time()] inside [mark_running] *)
  clock_start : float;      (* [start_time = time.time()] *)
  popen : res Z;            (* [subprocess.Popen(...)]: the pid, or what it raised *)
  stderr : list StderrLine; (* the lines the stream yields until it closes *)
  cancel_at : option nat;   (* [cancel()] from another thread: the flag is
                               set from the check of iteration [k] on; a [k]
                               past the last line is a cancel between the
                               loop and the final read of the flag *)
  wait : Wait;
}.

(** [self._stop_event.is_set()] at the top of iteration [i]. *)
Definition stop_seen (w : ProcessorWorker) (env : World) (i : nat) : bool :=
  _stop_event w ||
  match cancel_at env with
  | Some k => (k <=? i)%nat
  | None => false
  end.

(** [stopped = self._stop_event.is_set()] after the wait. *)
Definition stopped (w : ProcessorWorker) (env : World) : bool :=
  _stop_event w ||
  match cancel_at env with
  | Some _ => true
  | None => false
  end.

Section WithBuiltins.
Context {B : Builtins}.

(** The sample computed from a parsed timestamp [t] (lines 112-118). *)
Definition sample (job_id : Z) (duration start_time now t : float) : res (list Signal) :=
  let current_time_seconds := t in
  q ← truediv current_time_seconds duration;
  let prog := Py.min (Py.max q 0.0%float) 1.0%float in
  let elapsed := Py.max (PrimFloat.sub now start_time) 0.001%float in
  speed ← (if PrimFloat.ltb 0%float elapsed
           then truediv current_time_seconds elapsed
           else mret 0.0%float);
  rem ← truediv (PrimFloat.sub duration current_time_seconds)
                (Py.max speed 0.01%float);
  mret [sig_progress job_id prog rem].

(** [line.split("time=")[-1].split()[0]] *)
Definition time_token (line : string) : res string :=
  tail ← getitem_last (split "time=" line);
  getitem_first (split_ws tail).

(** The body of the [try] block of the reading loop (lines 108-118). *)
Definition progress_body (job_id : Z) (duration start_time now : float)
    (line : string) : res (list Signal) :=
  token ← time_token line;
  t ← parse_ffmpeg_time_to_seconds token;
  match t with
  | Some t => sample job_id duration start_time now t
  | None => mret []
  end.

(** The part of one iteration after the stop and pause handling
    (lines 100-120): what it emits. *)
Definition handle_line (job_id : Z) (duration start_time : float)
    (l : StderrLine) : res (list Signal) :=
  let line := strip (text l) in
  if String.eqb line "" then mret []
  else
    sigs ← (if contains "time=" line
            then try_except
                   (progress_body job_id duration start_time (clock l) line)
                   (fun _ => mret [])
            else mret []);
    mret (sig_log job_id line :: sigs).

(** [for line in self._process.stderr: ...], from iteration [i] on.  The
    pause block (lines 81-98) suspends and resumes the child and sleeps
    while the pause flag is set; it emits nothing and writes nothing, and a
    stop flag set meanwhile is read at the next check, so an iteration is
    its stop check followed by [handle_line].  The stream is the finite
    list of lines the child printed before it closed its stderr. *)
Fixpoint read_loop (w : ProcessorWorker) (env : World) (job_id : Z)
    (duration start_time : float) (i : nat) (lines : list StderrLine)
  : res (list Signal) :=
  match lines with
  | [] => mret []
  | l :: rest =>
      if stop_seen w env i then mret []
      else
        sigs ← handle_line job_id duration start_time l;
        more ← read_loop w env job_id duration start_time (S i) rest;
        mret (sigs ++ more)
  end.

(** The exit code the worker goes on with (lines 123-128). *)
Definition wait_ret (x : Wait) : Z :=
  match x with
  | exited code => code
  | timeout_expired => -1
  end.

(** The terminal event (lines 130-135). *)
Definition finish (job_id : Z) (stopped : bool) (ret : Z) : Signal :=
  if stopped then sig_finished job_id false "Canceled"
  else
    let ok := ret =? 0 in
    sig_finished job_id ok
      (if ok then "OK" else "ffmpeg exited with code " +:+ str_int ret).

(** [ProcessorWorker.run]: the job as the worker leaves it and the signals
    it emitted, in order. *)
Definition run (w : ProcessorWorker) (env : World) : res (Job * list Signal) :=
  let job := mark_running (clock_mark env) (job w) in
  let s_status := [sig_status (id job) (value RUNNING)] in
  let start_time := clock_start env in
  let duration := Py.max (PrimFloat.mul (duration job) 2.0%float) 0.01%float in
  match popen env with
  | Raise e =>
      mret (job, s_status ++
                 [sig_finished (id job) false ("Failed to start ffmpeg: " +:+ str_exn e)])
  | Ok pid =>
      let job := set_ffmpeg_pid pid job in
      let s_started := [sig_started (id job) (if pid =? 0 then -1 else pid)] in
      s_lines ← read_loop w env (id job) duration start_time 0 (stderr env);
      let ret := wait_ret (wait env) in
      mret (job, s_status ++ s_started ++ s_lines
                 ++ [finish (id job) (stopped w env) ret])
  end.

End WithBuiltins.

(** ** Reading the signals of a run *)

Definition is_progress (s : Signal) : bool :=
  match s with
  | sig_progress _ _ _ => true
  | _ => false
  end.

Definition is_finished (s : Signal) : bool :=
  match s with
  | sig_finished _ _ _ => true
  | _ => false
  end.

(** The progress fractions among some signals, in order. *)
Definition fractions (sigs : list Signal) : list float :=
  omap (fun s => match s with sig_progress _ p _ => Some p | _ => None end) sigs.

(** The finished events among some signals, in order. *)
Definition finished_events (sigs : list Signal) : list (Z * bool * string) :=
  omap (fun s => match s with
                 | sig_finished i ok msg => Some (i, ok, msg)
                 | _ => None
                 end) sigs.

(** A stripped line that carries no usable timestamp: no ["time="] in it,
    nothing after the last ["time="], or a token that the parser's [try]
    block rejects. *)
Definition noise `{Builtins} (line : string) : bool :=
  negb (contains "time=" line) ||
  match time_token line with
  | Ok token => raises (parse_body token)
  | Raise _ => true
  end.

(** The lines of a stream that the loop handles before it sees the stop
    flag, counted from iteration [i]. *)
Fixpoint handled (w : ProcessorWorker) (env : World) (i : nat)
    (lines : list StderrLine) : list StderrLine :=
  match lines with
  | [] => []
  | l :: rest => if stop_seen w env i then [] else l :: handled w env (S i) rest
  end.

(** ** The sample in the words of the specification *)

(** [clamp(x, lo, hi)] *)
Definition spec_clamp (x lo hi : float) : float :=
  if PrimFloat.ltb x lo then lo else if PrimFloat.ltb hi x then hi else x.

(** The expected duration, "zero or negative treated as
    [max(expected_duration, 0.01)]". *)
Definition spec_expected (d : float) : float :=
  if PrimFloat.leb d 0%float then Py.max d 0.01%float else d.

(** [clamp(elapsed / expected_duration, 0, 1)] *)
Definition spec_progress (t d : float) : float :=
  spec_clamp (PrimFloat.div t (spec_expected d)) 0%float 1%float.

(** [(expected_duration - elapsed) / max(elapsed / wall_clock_elapsed, epsilon)] *)
Definition spec_remaining (t d wall : float) : float :=
  PrimFloat.div (PrimFloat.sub (spec_expected d) t)
                (Py.max (PrimFloat.div t wall) 0.01%float).

(** ** JobManager *)

(** The signals of the manager. *)
Inductive ManagerSignal : Type :=
| job_updated (job_id : Z)
| job_progress (job_id : Z) (prog eta : float)
| job_log (job_id : Z) (line : string)
| job_status (job_id : Z) (text : string)
| queue_finished.

(** What a method of the manager does to the outside: emit one of its
    signals, or hand a worker to the thread pool. *)
Inductive Effect : Type :=
| emit (s : ManagerSignal)
| pool_start (w : ProcessorWorker).

Record JobManager : Type := mkManager {
  max_workers : Z;
  pending : list Job;                 (* [queue.Queue]: put at the back, get from the front *)
  active : gmap Z ProcessorWorker;
  _paused : bool;
}.

(** [JobManager(max_workers)] *)
Definition JobManager_init (n : Z) : JobManager :=
  {| max_workers := zmax 1 n; pending := []; active := ∅; _paused := false |}.

(** The [while] loop of [_maybe_dispatch]. *)
Fixpoint dispatch_loop (limit : Z) (pend : list Job) (act : gmap Z ProcessorWorker)
  : list Job * gmap Z ProcessorWorker * list Effect :=
  match pend with
  | [] => ([], act, [])
  | job :: rest =>
      if Z.of_nat (size act) <? limit then
        let worker := ProcessorWorker_init job in
        let '(pend', act', effs) := dispatch_loop limit rest (<[id job := worker]> act) in
        (pend', act', pool_start worker :: effs)
      else (pend, act, [])
  end.

Definition _maybe_dispatch (m : JobManager) : JobManager * list Effect :=
  if _paused m then (m, [])
  else
    let '(pend', act', effs) := dispatch_loop (max_workers m) (pending m) (active m) in
    ({| max_workers := max_workers m; pending := pend'; active := act';
        _paused := _paused m |}, effs).

Definition set_concurrency (n : Z) (m : JobManager) : JobManager * list Effect :=
  _maybe_dispatch
    {| max_workers := zmax 1 n; pending := pending m; active := active m;
       _paused := _paused m |}.

Definition add_job (j : Job) (m : JobManager) : JobManager * list Effect :=
  _maybe_dispatch
    {| max_workers := max_workers m; pending := pending m ++ [j];
       active := active m; _paused := _paused m |}.

Definition pause_queue (m : JobManager) : JobManager * list Effect :=
  ({| max_workers := max_workers m; pending := pending m; active := active m;
      _paused := true |}, []).

Definition resume_queue (m : JobManager) : JobManager * list Effect :=
  _maybe_dispatch
    {| max_workers := max_workers m; pending := pending m;
       active := resume <$> active m; _paused := false |}.

(** [w = self.active.get(job_id); if w: w.f()] *)
Definition on_active (f : ProcessorWorker -> ProcessorWorker) (job_id : Z)
    (m : JobManager) : JobManager * list Effect :=
  ({| max_workers := max_workers m; pending := pending m;
      active := alter f job_id (active m); _paused := _paused m |}, []).

Definition cancel_job : Z -> JobManager -> JobManager * list Effect := on_active cancel.
Definition pause_job : Z -> JobManager -> JobManager * list Effect := on_active pause.
Definition resume_job : Z -> JobManager -> JobManager * list Effect := on_active resume.

Definition _on_progress (job_id : Z) (prog eta : float) (m : JobManager)
  : JobManager * list Effect := (m, [emit (job_progress job_id prog eta)]).

Definition _on_log (job_id : Z) (line : string) (m : JobManager)
  : JobManager * list Effect := (m, [emit (job_log job_id line)]).

Definition _on_status (job_id : Z) (text : string) (m : JobManager)
  : JobManager * list Effect := (m, [emit (job_status job_id text)]).

Definition _on_started (job_id : Z) (pid : Z) (m : JobManager)
  : JobManager * list Effect :=
  (m, [emit (job_status job_id ("PID " +:+ str_int pid))]).

(** [not self.active and self.pending.empty()] *)
Definition drained (m : JobManager) : bool :=
  bool_decide (active m = ∅) && bool_decide (pending m = []).

Definition _on_finished (job_id : Z) (ok : bool) (msg : string) (m : JobManager)
  : JobManager * list Effect :=
  let m1 := {| max_workers := max_workers m; pending := pending m;
               active := delete job_id (active m); _paused := _paused m |} in
  let e1 := [emit (job_status job_id (if ok then "Completed" else "Failed: " +:+ msg))] in
  let '(m2, e2) := _maybe_dispatch m1 in
  (m2, e1 ++ e2 ++ (if drained m2 then [emit queue_finished] else [])).

(** ** Histories *)

(** One entry of the manager's thread: a command of the caller or a slot run
    for a worker's signal. *)
Inductive Call : Type :=
| SetConcurrency (n : Z)
| AddJob (j : Job)
| PauseQueue
| ResumeQueue
| CancelJob (job_id : Z)
| PauseJob (job_id : Z)
| ResumeJob (job_id : Z)
| OnProgress (job_id : Z) (prog eta : float)
| OnLog (job_id : Z) (line : string)
| OnStatus (job_id : Z) (text : string)
| OnStarted (job_id : Z) (pid : Z)
| OnFinished (job_id : Z) (ok : bool) (msg : string).

Definition call (c : Call) (m : JobManager) : JobManager * list Effect :=
  match c with
  | SetConcurrency n => set_concurrency n m
  | AddJob j => add_job j m
  | PauseQueue => pause_queue m
  | ResumeQueue => resume_queue m
  | CancelJob i => cancel_job i m
  | PauseJob i => pause_job i m
  | ResumeJob i => resume_job i m
  | OnProgress i p e => _on_progress i p e m
  | OnLog i l => _on_log i l m
  | OnStatus i t => _on_status i t m
  | OnStarted i p => _on_started i p m
  | OnFinished i ok msg => _on_finished i ok msg m
  end.

(** The calls of a history one after the other; the effects in order. *)
Fixpoint calls (cs : list Call) (m : JobManager) : JobManager * list Effect :=
  match cs with
  | [] => (m, [])
  | c :: rest =>
      let '(m1, e1) := call c m in
      let '(m2, e2) := calls rest m1 in
      (m2, e1 ++ e2)
  end.

Definition after (cs : list Call) (m : JobManager) : JobManager := fst (calls cs m).

(** The jobs handed to the pool, in the order of the [pool.start] calls. *)
Definition started (effs : list Effect) : list Job :=
  omap (fun e => match e with pool_start w => Some (job w) | emit _ => None end) effs.

(** The jobs submitted by a history, in order. *)
Definition submitted (cs : list Call) : list Job :=
  omap (fun c => match c with AddJob j => Some j | _ => None end) cs.

Definition is_queue_finished (e : Effect) : bool :=
  match e with
  | emit queue_finished => true
  | _ => false
  end.

(** How often a list of effects emits "queue finished". *)
Definition count_queue_finished (effs : list Effect) : nat :=
  length (filter (fun e => is_queue_finished e = true) effs).

(** The concurrency limit stays [n] through a call. *)
Definition keeps_limit (n : Z) (c : Call) : bool :=
  match c with
  | SetConcurrency k => zmax 1 k =? n
  | _ => true
  end.

(** Removes the first occurrence of [i]. *)
Fixpoint remove_first (i : Z) (l : list Z) : list Z :=
  match l with
  | [] => []
  | x :: rest => if bool_decide (x = i) then rest else x :: remove_first i rest
  end.

(** Whether call [c] can come next when [live] are the job ids of the
    workers started and not yet finished: a slot runs only for a signal of a
    live worker (a worker emits its finished event once, then it is gone),
    and a job is not submitted again while a job of its id is still pending
    or running. *)
Definition enabled (m : JobManager) (live : list Z) (c : Call) : bool :=
  match c with
  | OnProgress i _ _ | OnLog i _ | OnStatus i _ | OnStarted i _
  | OnFinished i _ _ => bool_decide (i ∈ live)
  | AddJob j => bool_decide (id j ∉ live ++ (id <$> pending m))
  | _ => true
  end.

(** The live workers after call [c] with effects [effs]: a finished worker
    leaves, the started ones enter. *)
Definition live_after (live : list Z) (c : Call) (effs : list Effect) : list Z :=
  match c with
  | OnFinished i _ _ => remove_first i live
  | _ => live
  end ++ (id <$> started effs).

(** A history that the pool and a caller keeping job ids apart can
    produce, from manager state [m] with live workers [live]. *)
Fixpoint feasible (m : JobManager) (live : list Z) (cs : list Call) : bool :=
  match cs with
  | [] => true
  | c :: rest =>
      enabled m live c &&
      let '(m1, e1) := call c m in
      feasible m1 (live_after live c e1) rest
  end.

(** The bound of the active mapping by the limit, kept by every call that
    keeps the limit. *)
Definition within_limit (n : Z) (m : JobManager) : Prop :=
  max_workers m = n /\ Z.of_nat (size (active m)) <= n.

(** Every live worker is registered, and no job id occurs twice among the
    live and the waiting jobs. *)
Definition registered (m : JobManager) (live : list Z) : Prop :=
  NoDup (live ++ (id <$> pending m))
  /\ forall i, i ∈ live -> is_Some (active m !! i).

(** The manager with limit 1 while one worker is registered under [i] and
    the jobs [q] wait. *)
Definition busy (i : Z) (w : ProcessorWorker) (q : list Job) : JobManager :=
  {| max_workers := 1; pending := q; active := {[ i := w ]}; _paused := false |}.

(** Three sample jobs. *)
Definition job_a : Job := new_job 1 "a.mp4" "a_slow.mp4".
Definition job_b : Job := new_job 2 "b.mp4" "b_slow.mp4".
Definition job_c : Job := new_job 3 "c.mp4" "c_slow.mp4".

(** ** Sample runs *)

(** [job_a] as the caller queues it: probed at ten seconds, command built. *)
Definition job_queued : Job :=
  {| id := 1; input_path := "a.mp4"; output_path := "a_slow.mp4"; status := QUEUED;
     duration := 10%float; has_video := true; has_audio := true;
     progress := 0%float; eta_seconds := None; message := "";
     start_time := None; end_time := None; ffmpeg_pid := None;
     preview_mode := false;
     command := ["ffmpeg"; "-i"; "a.mp4"; "a_slow.mp4"]; extra := ∅ |}.

Definition line_banner : StderrLine :=
  {| text := "Press [q] to stop, [?] for help"; clock := 100.5%float |}.
Definition line_5s : StderrLine :=
  {| text := "frame=120 fps=30 time=00:00:05.00 bitrate=1000.0kbits/s speed=2x";
     clock := 102.5%float |}.
Definition line_3s : StderrLine :=
  {| text := "frame=72 fps=30 time=00:00:03.00 bitrate=1000.0kbits/s speed=1x";
     clock := 103%float |}.
Definition line_na : StderrLine :=
  {| text := "frame=0 fps=0.0 time=N/A bitrate=N/A speed=N/A"; clock := 100.25%float |}.

(** A world with the given stream, cancellation and exit. *)
Definition world (lines : list StderrLine) (cancel : option nat) (x : Wait) : World :=
  {| clock_mark := 100%float; clock_start := 100%float; popen := Ok 4242;
     stderr := lines; cancel_at := cancel; wait := x |}.

(** The same world with another outcome of the wait. *)
Definition with_wait (x : Wait) (env : World) : World :=
  {| clock_mark := clock_mark env; clock_start := clock_start env;
     popen := popen env; stderr := stderr env; cancel_at := cancel_at env;
     wait := x |}.

(** The signals of a run, none if it raised. *)
Definition signals `{Builtins} (w : ProcessorWorker) (env : World) : list Signal :=
  match run w env with
  | Ok (_, sigs) => sigs
  | Raise _ => []
  end.

(** The job a run leaves, if it returned. *)
Definition job_after `{Builtins} (w : ProcessorWorker) (env : World) : option Job :=
  match run w env with
  | Ok (j, _) => Some j
  | Raise _ => None
  end.

(** A job that the manager holds: waiting, or with a registered worker. *)
Definition holds (m : JobManager) (x : Job) : Prop :=
  x ∈ pending m \/ exists i w, active m !! i = Some w /\ job w = x.

(** The status texts a list of effects republishes. *)
Definition status_texts (effs : list Effect) : list string :=
  omap (fun e => match e with emit (job_status _ t) => Some t | _ => None end) effs.

(** ** Positive constants *)

(** A float above both zeros; so are the guards [0.01] and [0.001]. *)
Definition positive_float (c : float) : bool :=
  SFltb (S754_zero false) (Prim2SF c) && SFltb (S754_zero true) (Prim2SF c).

(** Two more lines for the sample runs: a timestamp half a millisecond
    after the start, and a timestamp of two milliseconds. *)
Definition line_early : StderrLine :=
  {| text := "frame=120 fps=30 time=00:00:05.00 bitrate=1000.0kbits/s speed=2x";
     clock := 100.0005%float |}.
Definition line_2ms : StderrLine :=
  {| text := "size=1kB time=00:00:00.002 bitrate=1000.0kbits/s speed=1x";
     clock := 102.5%float |}.

(** A line whose timestamp is past the expected 20 s. *)
Definition line_25s : StderrLine :=
  {| text := "frame=600 fps=30 time=00:00:25.00 bitrate=1000.0kbits/s speed=2x";
     clock := 112.5%float |}.

End Workers.

Import Workers.

(* ================================================================== *)
(** * app/core/ffmpeg.py: locating the tools, building the command *)

Module FfmpegCommand.

(** What the functions ask of the host: the environment variables, the
    file system, [shutil.which], the platform and the directory of the
    running interpreter.  Paths are kept as their text: [path_str s] is
    [str(Path(s))] and [joinpath a b] is [str(Path(a) / b)].
    [Path.exists()] and [Path.is_dir()] answer False for a missing file and
    raise the OSError of a [stat] that fails for another reason
    (permission denied, name too long). *)
Record Host : Type := mkHost {
  environ : string -> option string;
  exists_ : string -> res bool;
  is_dir : string -> res bool;
  shutil_which : string -> option string;
  win32 : bool;
  executable_parent : string;
  path_str : string -> string;
  joinpath : string -> string -> string;
}.

(** [_normalize_exe(path, name)] *)
Definition _normalize_exe (h : Host) (path : option string) (name : string)
  : res (option string) :=
  match path with
  | None => mret None
  | Some p =>
      if String.eqb p "" then mret None
      else
        d ← is_dir h p;
        if (d : bool) then
          let cand := joinpath h p name in
          e ← exists_ h cand;
          mret (if (e : bool) then Some cand else None)
        else
          e ← exists_ h p;
          mret (if (e : bool) then Some (path_str h p) else None)
  end.

(** The relative places searched last, in this order. *)
Definition relative_places : list string :=
  ["ffmpeg"; "ffmpeg/bin"; "bin"; "tools/ffmpeg"; "vendor/ffmpeg/bin"].

(** [if x: return x] on an optional text: the empty text is falsy too. *)
Definition truthy (x : option string) : option string :=
  match x with
  | Some p => if String.eqb p "" then None else Some p
  | None => None
  end.

(** [for rel in [...]: p = _normalize_exe(str(here / rel), exe); if p: return p] *)
Fixpoint search_places (h : Host) (exe : string) (places : list string)
  : res (option string) :=
  match places with
  | [] => mret None
  | rel :: rest =>
      p ← _normalize_exe h (Some (joinpath h (executable_parent h) rel)) exe;
      match truthy p with
      | Some q => mret (Some q)
      | None => search_places h exe rest
      end
  end.

Definition which_ffmpeg (h : Host) : res string :=
  let exe := if win32 h then "ffmpeg.exe" else "ffmpeg" in
  cand ← _normalize_exe h (environ h "FFMPEG_PATH") exe;
  match truthy cand with
  | Some c => mret c
  | None =>
      match truthy (shutil_which h "ffmpeg") with
      | Some found => mret found
      | None =>
          p ← search_places h exe relative_places;
          match p with
          | Some q => mret q
          | None => Raise (OSError "ffmpeg not found. Set FFMPEG_PATH env or install FFmpeg.")
          end
      end
  end.

Definition which_ffprobe (h : Host) : res string :=
  let exe := if win32 h then "ffprobe.exe" else "ffprobe" in
  cand ← _normalize_exe h (environ h "FFPROBE_PATH") exe;
  match truthy cand with
  | Some c => mret c
  | None =>
      match truthy (shutil_which h "ffprobe") with
      | Some found => mret found
      | None =>
          p ← search_places h exe relative_places;
          match p with
          | Some q => mret q
          | None => Raise (OSError "ffprobe not found. Set FFPROBE_PATH env or install FFmpeg.")
          end
      end
  end.

(** ** Formatting *)

(** [sep.join(l)] *)
Fixpoint join (sep : string) (l : list string) : string :=
  match l with
  | [] => ""
  | [x] => x
  | x :: rest => x +:+ sep +:+ join sep rest
  end.

(** The integer nearest to [m * 2 ^ e], ties to the even one. *)
Definition round_half_even (m e : Z) : Z :=
  match e with
  | Zneg p =>
      let d := 2 ^ Zpos p in
      let q := m / d in
      let r := m mod d in
      match 2 * r ?= d with
      | Lt => q
      | Gt => q + 1
      | Eq => if Z.even q then q else q + 1
      end
  | _ => m * 2 ^ e
  end.

(** Three decimals of a number of thousandths below one thousand. *)
Definition pad3 (n : Z) : string :=
  if n <? 10 then "00" +:+ str_int n
  else if n <? 100 then "0" +:+ str_int n
  else str_int n.

(** [f"{x:.3f}"]: the decimal with three places nearest to the exact value
    of [x], ties to even. *)
Definition format_3f (x : float) : string :=
  match Prim2SF x with
  | S754_nan => "nan"
  | S754_infinity s => if s then "-inf" else "inf"
  | S754_zero s => if s then "-0.000" else "0.000"
  | S754_finite s m e =>
      let n := round_half_even (Zpos m * 1000) e in
      (if s then "-" else "") +:+ str_int (n / 1000) +:+ "." +:+ pad3 (n mod 1000)
  end.

(** ** build_slowdown_command *)

(** The keyword arguments. *)
Record Options : Type := mkOptions {
  duration : float;
  has_video : bool;
  has_audio : bool;
  use_rubberband : bool;
  video_encoder : string;
  video_preset : string;
  video_crf : Z;
  audio_codec : string;
  audio_bitrate : Z;
  copy_subtitles : bool;
  preview : bool;
  preview_seconds : Z;
}.

(** The keyword defaults, for an input whose streams are given. *)
Definition default_options (d : float) (video audio rubberband : bool) : Options :=
  {| duration := d; has_video := video; has_audio := audio;
     use_rubberband := rubberband;
     video_encoder := "libx264"; video_preset := "slow"; video_crf := 18;
     audio_codec := "aac"; audio_bitrate := 192; copy_subtitles := true;
     preview := false; preview_seconds := 20 |}.

(** The filter graph (lines 149-162). *)
Definition filters (o : Options) : list string :=
  (if has_video o then ["[0:v]setpts=2*PTS[v]"] else [])
  ++ (if has_audio o then
        [if use_rubberband o
         then "[0:a]rubberband=tempo=0.5:formant=preserved[a]"
         else "[0:a]atempo=0.5[a]"]
      else []).

(** The stream maps, with the optional subtitle map (lines 150-169). *)
Definition maps (o : Options) : list string :=
  (if has_video o then ["-map"; "[v]"] else [])
  ++ (if has_audio o then ["-map"; "[a]"] else [])
  ++ (if copy_subtitles o && has_video o then ["-map"; "0:s?"] else []).

(** The seek of the preview window (lines 180-183). *)
Definition preview_args (o : Options) : res (list string) :=
  if preview o && PrimFloat.ltb 0 (duration o) && (0 <? preview_seconds o) then
    seconds ← float_of_int (preview_seconds o);
    let start := Py.max (PrimFloat.sub (PrimFloat.div (duration o) 2)
                                       (PrimFloat.div seconds 2)) 0 in
    mret ["-ss"; format_3f start; "-t"; str_int (preview_seconds o)]
  else mret [].

(** Codecs, quality, metadata and container flags (lines 190-200). *)
Definition codec_args (o : Options) : list string :=
  (if has_video o
   then ["-c:v"; video_encoder o; "-preset"; video_preset o; "-crf"; str_int (video_crf o)]
   else [])
  ++ (if has_audio o
      then ["-c:a"; audio_codec o; "-b:a"; str_int (audio_bitrate o) +:+ "k"]
      else [])
  ++ (if copy_subtitles o && has_video o then ["-c:s"; "copy"] else [])
  ++ ["-map_metadata"; "0"; "-map_chapters"; "0"]
  ++ ["-movflags"; "+faststart"].

(** Build the ffmpeg command to slow 2x media to 1x. *)
Definition build_slowdown_command (h : Host) (input_path output_path : string)
    (o : Options) : res (list string) :=
  let fs := filters o in
  if negb (has_video o || has_audio o)
  then Raise (ValueError "Input has neither audio nor video streams")
  else
    ffmpeg ← which_ffmpeg h;
    seek ← preview_args o;
    mret ([ffmpeg; "-y"; "-hide_banner"; "-i"; input_path]
          ++ seek
          ++ (match fs with [] => [] | _ => ["-filter_complex"; join ";" fs] end)
          ++ maps o
          ++ codec_args o
          ++ [output_path]).

(** A host with ffmpeg on the PATH only, one with no ffmpeg at all, and one
    whose FFMPEG_PATH names a place that may not be looked at. *)
Definition host_with_path : Host :=
  {| environ := fun _ => None;
     exists_ := fun _ => Ok false; is_dir := fun _ => Ok false;
     shutil_which := fun name => Some ("/usr/bin/" +:+ name); win32 := false;
     executable_parent := "/usr/bin"; path_str := fun s => s;
     joinpath := fun a b => a +:+ "/" +:+ b |}.



End FfmpegCommand.

(* ================================================================== *)
(** * app/ui/main_window.py: the job list of the window *)

Module Window.

(** The state of [MainWindow] that the job bookkeeping uses; the widgets
    that mirror it are left out. *)
Record MainWindow : Type := mkWindow {
  jobs : list Job;
  next_job_id : Z;
}.

(** [self.jobs = []; self.next_job_id = 1] *)
Definition MainWindow_init : MainWindow := {| jobs := []; next_job_id := 1 |}.

Definition _append_job_row (in_path out_path : string) (w : MainWindow) : MainWindow :=
  {| jobs := jobs w ++ [new_job (next_job_id w) in_path out_path];
     next_job_id := next_job_id w + 1 |}.

(** [for idx, j in enumerate(self.jobs): if j.id == job_id: return idx] *)
Fixpoint index_from (job_id : Z) (idx : nat) (l : list Job) : option nat :=
  match l with
  | [] => None
  | j :: rest => if id j =? job_id then Some idx else index_from job_id (S idx) rest
  end.

Definition _index_by_job_id (job_id : Z) (w : MainWindow) : option nat :=
  index_from job_id 0 (jobs w).

(** [job.status in {FAILED, CANCELED, SKIPPED}] *)
Definition retryable (st : JobStatus) : bool :=
  match st with
  | FAILED | CANCELED | SKIPPED => true
  | _ => false
  end.

(** The body of the loop of [_retry_selected] on one job. *)
Definition retry (j : Job) : Job :=
  if retryable (status j) then
    {| id := id j; input_path := input_path j; output_path := output_path j;
       status := PENDING;
       duration := duration j; has_video := has_video j; has_audio := has_audio j;
       progress := 0%float;
       eta_seconds := eta_seconds j; message := message j;
       start_time := start_time j; end_time := end_time j;
       ffmpeg_pid := ffmpeg_pid j; preview_mode := preview_mode j;
       command := command j; extra := extra j |}
  else j.

(** [_retry_selected], for the selected rows in the order the set yields
    them; [self.jobs[r]] raises on a row past the list. *)
Fixpoint _retry_selected (rows : list nat) (w : MainWindow) : res MainWindow :=
  match rows with
  | [] => Ok w
  | r :: rest =>
      match jobs w !! r with
      | Some j =>
          _retry_selected rest
            {| jobs := <[r := retry j]> (jobs w); next_job_id := next_job_id w |}
      | None => Raise (IndexError "list index out of range")
      end
  end.

(** The rows added one after the other. *)
Fixpoint append_all (files : list (string * string)) (w : MainWindow) : MainWindow :=
  match files with
  | [] => w
  | (in_path, out_path) :: rest => append_all rest (_append_job_row in_path out_path w)
  end.

End Window.

(* ================================================================== *)
(** * Reading histories and runs *)

Module Traces.

(** The job a signal is about. *)
Definition signal_id (s : Signal) : Z :=
  match s with
  | sig_progress i _ _ | sig_status i _ | sig_log i _ | sig_started i _
  | sig_finished i _ _ => i
  end.

Definition is_log (s : Signal) : bool :=
  match s with
  | sig_log _ _ => true
  | _ => false
  end.

Definition is_resume_queue (c : Call) : bool :=
  match c with
  | ResumeQueue => true
  | _ => false
  end.

(** The manager and the live workers after a history, as [feasible]
    follows them. *)
Fixpoint track (m : JobManager) (live : list Z) (cs : list Call)
  : JobManager * list Z :=
  match cs with
  | [] => (m, live)
  | c :: rest =>
      let '(m1, e1) := call c m in
      track m1 (live_after live c e1) rest
  end.


(** The options with the preview switched off. *)
Definition without_preview (o : FfmpegCommand.Options) : FfmpegCommand.Options :=
  {| FfmpegCommand.duration := FfmpegCommand.duration o;
     FfmpegCommand.has_video := FfmpegCommand.has_video o;
     FfmpegCommand.has_audio := FfmpegCommand.has_audio o;
     FfmpegCommand.use_rubberband := FfmpegCommand.use_rubberband o;
     FfmpegCommand.video_encoder := FfmpegCommand.video_encoder o;
     FfmpegCommand.video_preset := FfmpegCommand.video_preset o;
     FfmpegCommand.video_crf := FfmpegCommand.video_crf o;
     FfmpegCommand.audio_codec := FfmpegCommand.audio_codec o;
     FfmpegCommand.audio_bitrate := FfmpegCommand.audio_bitrate o;
     FfmpegCommand.copy_subtitles := FfmpegCommand.copy_subtitles o;
     FfmpegCommand.preview := false;
     FfmpegCommand.preview_seconds := FfmpegCommand.preview_seconds o |}.

(** The timestamp that the loop reads from a line, if it reads one: the
    line is not blank, contains ["time="], and the token after the last
    ["time="] parses. *)
Definition timestamp_of `{Builtins} (l : StderrLine) : option float :=
  let line := strip (text l) in
  if String.eqb line "" then None
  else if contains "time=" line then
    match time_token line with
    | Ok token =>
        match parse_ffmpeg_time_to_seconds token with
        | Ok (Some t) => Some t
        | _ => None
        end
    | Raise _ => None
    end
  else None.

(** The timestamps of the lines that a run handles, in the order of the
    stream. *)
Definition timestamps `{Builtins} (w : ProcessorWorker) (env : World) : list float :=
  match popen env with
  | Ok _ => omap timestamp_of (handled w env 0 (stderr env))
  | Raise _ => []
  end.

(** A sequence of floats that never goes back. *)
Fixpoint nondecreasing (l : list float) : bool :=
  match l with
  | [] => true
  | a :: rest =>
      match rest with
      | [] => true
      | b :: _ => PrimFloat.leb a b && nondecreasing rest
      end
  end.

(** No slot stays idle: unless the queue is paused, a job waits only while
    the active mapping is full. *)
Definition no_idle_slot (m : JobManager) : Prop :=
  _paused m = false ->
  pending m = [] \/ max_workers m <= Z.of_nat (size (active m)).

End Traces.

Import Traces.

(* ================================================================== *)
(** * Runs that do not reach the end of the loop *)

Module Hazards.

(** What the reading loop can meet besides the lines of [World].  The read
    of the text stream that would yield line [i] raises instead (bytes
    that do not decode): [for line in self._process.stderr] stands outside
    every [try], so the exception leaves [run].  Or the pause flag is set
    at iteration [i] and is lifted by no [resume] and no [cancel]: the
    wait of lines 90-91 goes on. *)
Inductive Hazard : Type :=
| read_raises (i : nat) (e : exn)
| pause_stays (i : nat).

(** How a run ends, with the job as it is then and the signals emitted
    until then. *)
Inductive Outcome : Type :=
| returns (j : Job) (sigs : list Signal)
| propagates (e : exn) (j : Job) (sigs : list Signal)
| sleeps (j : Job) (sigs : list Signal).

Definition emitted (o : Outcome) : list Signal :=
  match o with
  | returns _ sigs | propagates _ _ sigs | sleeps _ sigs => sigs
  end.

(** Whether the loop gets to the hazard.  The read for iteration [i] comes
    after [i] lines and before the stop check of iteration [i], so it is
    reached unless the check of an earlier iteration broke the loop.  The
    pause block comes after the stop check, and a cancel at any time ends
    its wait. *)
Definition meets (w : ProcessorWorker) (env : World) (hz : Hazard) : bool :=
  match hz with
  | read_raises i _ =>
      (i <=? length (stderr env))%nat
      && match i with
         | O => true
         | S k => negb (stop_seen w env k)
         end
  | pause_stays i => (i <? length (stderr env))%nat && negb (stopped w env)
  end.

Definition position (hz : Hazard) : nat :=
  match hz with
  | read_raises i _ | pause_stays i => i
  end.

Section WithBuiltins.
Context {B : Builtins}.

(** [ProcessorWorker.run] with a hazard on its way: the lines before the
    hazard are handled as in [run]; nothing is emitted after it. *)
Definition run_under (hz : option Hazard) (w : ProcessorWorker) (env : World)
  : res Outcome :=
  match hz, popen env with
  | Some h, Ok pid =>
      if meets w env h then
        let job := set_ffmpeg_pid pid (mark_running (clock_mark env) (job w)) in
        let duration := Py.max (PrimFloat.mul (duration job) 2.0%float) 0.01%float in
        s_lines ← read_loop w env (id job) duration (clock_start env) 0
                    (take (position h) (stderr env));
        let sigs := [sig_status (id job) (value RUNNING)]
                    ++ [sig_started (id job) (if pid =? 0 then -1 else pid)]
                    ++ s_lines in
        mret match h with
             | read_raises _ e => propagates e job sigs
             | pause_stays _ => sleeps job sigs
             end
      else
        '(j, sigs) ← run w env; mret (returns j sigs)
  | _, _ => '(j, sigs) ← run w env; mret (returns j sigs)
  end.

End WithBuiltins.

End Hazards.

Import Hazards.

(* ================================================================== *)
(** * Rounding in binary64 *)

Module Rounding.

(** The rational [A / B] lies in [[m, m + 1)], and [l] tells where: on
    [m], below, on or above the middle. *)
Definition located (A B m : Z) (l : location) : Prop :=
  m * B <= A < (m + 1) * B
  /\ l = if A =? m * B then loc_Exact
         else loc_Inexact (2 * A ?= (2 * m + 1) * B).

(** The sign of a number, if it has one. *)
Definition sign_of (x : spec_float) : option bool :=
  match x with
  | S754_zero s | S754_infinity s | S754_finite s _ _ => Some s
  | S754_nan => None
  end.

(** The values from +0 up to +infinity. *)
Definition nonneg (x : spec_float) : bool :=
  match x with
  | S754_zero false | S754_infinity false | S754_finite false _ _ => true
  | _ => false
  end.

(** [1.0] *)
Definition sf_one : spec_float := S754_finite false 4503599627370496 (-52).

(** The clamp to [0, 1] on the specification side of the format. *)
Definition sf_clamp (q : spec_float) : spec_float :=
  if SFltb q (S754_zero false) then S754_zero false
  else if SFltb sf_one q then sf_one else q.

End Rounding.
Import Rounding.

(* ================================================================== *)
(** * Properties of the scheduler *)

Section Scheduler.

Implicit Types (m : JobManager) (act : gmap Z ProcessorWorker)
  (pend : list Job) (cs : list Call) (live : list Z).

Lemma zmax_spec (a b : Z) : zmax a b = Z.max a b.
Proof. unfold zmax. destruct (Z.ltb_spec a b); lia. Qed.

Lemma size_alter (f : ProcessorWorker -> ProcessorWorker) (i : Z) act :
  size (alter f i act) = size act.
Proof.
  rewrite <- (size_dom (D := gset Z) (alter f i act)).
  rewrite dom_alter_L. apply size_dom.
Qed.

Lemma size_delete_le (i : Z) act : (size (delete i act) <= size act)%nat.
Proof. rewrite map_size_delete. destruct (act !! i); simpl; lia. Qed.

(** One turn of the loop, when there is room. *)
Lemma dispatch_loop_cons limit (j : Job) pend act :
  Z.of_nat (size act) < limit ->
  dispatch_loop limit (j :: pend) act =
  let '(p, a, e) := dispatch_loop limit pend (<[id j := ProcessorWorker_init j]> act) in
  (p, a, pool_start (ProcessorWorker_init j) :: e).
Proof.
  intros Hlt. simpl. destruct (Z.ltb_spec (Z.of_nat (size act)) limit); [done | lia].
Qed.

(** The loop never fills the mapping beyond the limit. *)
Lemma dispatch_loop_size limit pend act :
  Z.of_nat (size act) <= limit ->
  Z.of_nat (size (dispatch_loop limit pend act).1.2) <= limit.
Proof.
  revert act. induction pend as [|j rest IH]; intros act Hle; simpl; [done|].
  destruct (Z.ltb_spec (Z.of_nat (size act)) limit) as [Hlt|Hge]; simpl; [|done].
  specialize (IH (<[id j := ProcessorWorker_init j]> act)).
  destruct (dispatch_loop limit rest _) as [[p a] e]; simpl in *.
  apply IH. rewrite map_size_insert. destruct (act !! id j); simpl; lia.
Qed.

(** What is started and what is left make up what was pending, in order. *)
Lemma dispatch_loop_fifo limit pend act :
  started (dispatch_loop limit pend act).2 ++ (dispatch_loop limit pend act).1.1 = pend.
Proof.
  revert act. induction pend as [|j rest IH]; intros act; simpl; [done|].
  destruct (Z.of_nat (size act) <? limit); simpl; [|done].
  specialize (IH (<[id j := ProcessorWorker_init j]> act)).
  destruct (dispatch_loop limit rest _) as [[p a] e]; simpl in *.
  unfold started in *. simpl. by rewrite IH.
Qed.

Lemma maybe_dispatch_limit m : max_workers (_maybe_dispatch m).1 = max_workers m.
Proof.
  unfold _maybe_dispatch. destruct (_paused m); [done|].
  by destruct (dispatch_loop _ _ _) as [[p a] e].
Qed.

Lemma maybe_dispatch_size m :
  Z.of_nat (size (active m)) <= max_workers m ->
  Z.of_nat (size (active (_maybe_dispatch m).1)) <= max_workers m.
Proof.
  intros Hle. unfold _maybe_dispatch. destruct (_paused m); [done|].
  pose proof (dispatch_loop_size (max_workers m) (pending m) (active m) Hle) as H.
  by destruct (dispatch_loop _ _ _) as [[p a] e].
Qed.

Lemma maybe_dispatch_fifo m :
  started (_maybe_dispatch m).2 ++ pending (_maybe_dispatch m).1 = pending m.
Proof.
  unfold _maybe_dispatch. destruct (_paused m); [done|].
  pose proof (dispatch_loop_fifo (max_workers m) (pending m) (active m)) as H.
  by destruct (dispatch_loop _ _ _) as [[p a] e].
Qed.

Lemma on_finished_fst i ok msg m :
  (_on_finished i ok msg m).1 =
  (_maybe_dispatch {| max_workers := max_workers m; pending := pending m;
                      active := delete i (active m); _paused := _paused m |}).1.
Proof. unfold _on_finished. by destruct (_maybe_dispatch _) as [m2 e2]. Qed.

Lemma maybe_dispatch_within_limit n m :
  within_limit n m -> within_limit n (_maybe_dispatch m).1.
Proof.
  intros [Hn Hsz]. split.
  - by rewrite maybe_dispatch_limit.
  - rewrite <- Hn. apply maybe_dispatch_size. by rewrite Hn.
Qed.

Lemma call_within_limit n c m :
  keeps_limit n c = true -> within_limit n m -> within_limit n (call c m).1.
Proof.
  intros Hk [Hn Hsz].
  destruct c; simpl in *; try (by split).
  - (* set_concurrency *)
    apply maybe_dispatch_within_limit. apply Z.eqb_eq in Hk. by split.
  - (* add_job *)
    apply maybe_dispatch_within_limit. by split.
  - (* resume_queue *)
    apply maybe_dispatch_within_limit. split; simpl; [done|].
    by rewrite map_size_fmap.
  - (* cancel_job *) split; simpl; [done|]. by rewrite size_alter.
  - (* pause_job *) split; simpl; [done|]. by rewrite size_alter.
  - (* resume_job *) split; simpl; [done|]. by rewrite size_alter.
  - (* _on_finished *)
    rewrite on_finished_fst. apply maybe_dispatch_within_limit.
    split; simpl; [done|].
    pose proof (size_delete_le job_id (active m)). lia.
Qed.

Lemma after_cons c cs m : after (c :: cs) m = after cs (call c m).1.
Proof.
  unfold after. simpl. destruct (call c m) as [m1 e1]. simpl.
  by destruct (calls cs m1) as [m2 e2].
Qed.

Lemma calls_within_limit n cs m :
  forallb (keeps_limit n) cs = true -> within_limit n m -> within_limit n (after cs m).
Proof.
  revert m. induction cs as [|c cs IH]; intros m Hk Hm; [done|].
  simpl in Hk. apply andb_true_iff in Hk as [Hc Hcs].
  rewrite after_cons. apply IH; [done|]. by apply call_within_limit.
Qed.

(** *** First in, first out *)

Lemma started_app (e1 e2 : list Effect) : started (e1 ++ e2) = started e1 ++ started e2.
Proof. apply omap_app. Qed.

Lemma dispatch_loop_keeps limit pend act (i : Z) :
  is_Some (act !! i) -> is_Some ((dispatch_loop limit pend act).1.2 !! i).
Proof.
  revert act. induction pend as [|j rest IH]; intros act Hi; simpl; [done|].
  destruct (Z.of_nat (size act) <? limit); simpl; [|done].
  specialize (IH (<[id j := ProcessorWorker_init j]> act)).
  destruct (dispatch_loop limit rest _) as [[p a] e]; simpl in *.
  apply IH. rewrite lookup_insert. by case_decide.
Qed.

(** The first turn of [_maybe_dispatch] with room, a queue that is not
    paused and a job waiting. *)
Lemma maybe_dispatch_head m (j : Job) (rest : list Job) :
  _paused m = false ->
  Z.of_nat (size (active m)) < max_workers m ->
  pending m = j :: rest ->
  exists effs,
    (_maybe_dispatch m).2 = pool_start (ProcessorWorker_init j) :: effs
    /\ started effs ++ pending (_maybe_dispatch m).1 = rest
    /\ is_Some (active (_maybe_dispatch m).1 !! id j).
Proof.
  intros Hp Hroom Hpend. unfold _maybe_dispatch. rewrite Hp, Hpend.
  rewrite dispatch_loop_cons by done.
  pose proof (dispatch_loop_fifo (max_workers m) rest
                (<[id j := ProcessorWorker_init j]> (active m))) as Hfifo.
  pose proof (dispatch_loop_keeps (max_workers m) rest
                (<[id j := ProcessorWorker_init j]> (active m)) (id j)) as Hkeep.
  destruct (dispatch_loop _ rest _) as [[p a] e]; simpl in *.
  exists e. split; [done|]. split; [done|].
  apply Hkeep. rewrite lookup_insert_eq. by eexists.
Qed.

Lemma call_fifo c m :
  started (call c m).2 ++ pending (call c m).1 = pending m ++ submitted [c].
Proof.
  destruct c; simpl; rewrite ?app_nil_r; try done.
  - apply (maybe_dispatch_fifo (mkManager _ _ _ _)).
  - apply (maybe_dispatch_fifo (mkManager _ _ _ _)).
  - apply (maybe_dispatch_fifo (mkManager _ _ _ _)).
  - unfold _on_finished.
    pose proof (maybe_dispatch_fifo
      (mkManager (max_workers m) (pending m) (delete job_id (active m)) (_paused m)))
      as H.
    destruct (_maybe_dispatch _) as [m2 e2]; simpl in *.
    rewrite !started_app. simpl.
    destruct (drained m2); simpl; by rewrite ?app_nil_r.
Qed.

Lemma submitted_cons c cs : submitted (c :: cs) = submitted [c] ++ submitted cs.
Proof. unfold submitted. simpl. by destruct c. Qed.

Lemma calls_snd_cons c cs m :
  (calls (c :: cs) m).2 = (call c m).2 ++ (calls cs (call c m).1).2.
Proof. simpl. destruct (call c m) as [m1 e1]; simpl. by destruct (calls cs m1). Qed.

(** Started jobs and waiting jobs, in this order, are the waiting jobs of
    the beginning followed by the submissions. *)
Lemma calls_fifo cs m :
  started (calls cs m).2 ++ pending (after cs m) = pending m ++ submitted cs.
Proof.
  revert m. induction cs as [|c cs IH]; intros m.
  - unfold after. simpl. by rewrite app_nil_r.
  - rewrite after_cons, submitted_cons, calls_snd_cons.
    rewrite started_app, <- app_assoc, IH, !app_assoc. by rewrite call_fifo.
Qed.

(** *** Limit 1 *)

Lemma add_job_idle (j : Job) :
  add_job j (JobManager_init 1) =
  (busy (id j) (ProcessorWorker_init j) [], [pool_start (ProcessorWorker_init j)]).
Proof.
  unfold add_job, _maybe_dispatch, JobManager_init, busy. simpl.
  rewrite map_size_empty. simpl. by rewrite insert_empty.
Qed.

Lemma add_job_busy (j : Job) i w q :
  add_job j (busy i w q) = (busy i w (q ++ [j]), []).
Proof.
  unfold add_job, _maybe_dispatch, busy. simpl.
  destruct (q ++ [j]) eqn:E; simpl; [done|].
  by rewrite map_size_singleton.
Qed.

Lemma on_finished_busy_next i w (j : Job) q ok msg :
  _on_finished i ok msg (busy i w (j :: q)) =
  (busy (id j) (ProcessorWorker_init j) q,
   [emit (job_status i (if ok then "Completed" else "Failed: " +:+ msg));
    pool_start (ProcessorWorker_init j)]).
Proof.
  unfold _on_finished, _maybe_dispatch, busy. simpl.
  rewrite delete_singleton_eq, map_size_empty. simpl.
  rewrite insert_empty.
  destruct q as [|j' q]; simpl.
  - unfold drained. simpl. rewrite bool_decide_eq_false_2; [done|].
    apply map_non_empty_singleton.
  - rewrite map_size_singleton. simpl. unfold drained. simpl.
    rewrite bool_decide_eq_false_2; [done|]. apply map_non_empty_singleton.
Qed.

Lemma on_finished_busy_last i w ok msg :
  _on_finished i ok msg (busy i w []) =
  (JobManager_init 1,
   [emit (job_status i (if ok then "Completed" else "Failed: " +:+ msg));
    emit queue_finished]).
Proof.
  unfold _on_finished, _maybe_dispatch, busy. simpl.
  by rewrite delete_singleton_eq.
Qed.

End Scheduler.

Section Drain.

Implicit Types (m : JobManager) (act : gmap Z ProcessorWorker)
  (pend : list Job) (cs : list Call) (live : list Z).

Lemma count_queue_finished_app (e1 e2 : list Effect) :
  count_queue_finished (e1 ++ e2) = (count_queue_finished e1 + count_queue_finished e2)%nat.
Proof. unfold count_queue_finished. by rewrite filter_app, length_app. Qed.

Lemma count_queue_finished_cons (e : Effect) (effs : list Effect) :
  count_queue_finished (e :: effs) =
  ((if is_queue_finished e then 1 else 0) + count_queue_finished effs)%nat.
Proof.
  unfold count_queue_finished. rewrite filter_cons.
  destruct (is_queue_finished e); case_decide; simpl; congruence.
Qed.

Lemma dispatch_loop_no_signal limit pend act :
  count_queue_finished (dispatch_loop limit pend act).2 = 0%nat.
Proof.
  revert act. induction pend as [|j rest IH]; intros act; simpl; [done|].
  destruct (Z.of_nat (size act) <? limit); simpl; [|done].
  specialize (IH (<[id j := ProcessorWorker_init j]> act)).
  destruct (dispatch_loop limit rest _) as [[p a] e]; simpl in *.
  by rewrite count_queue_finished_cons.
Qed.

Lemma maybe_dispatch_no_signal m : count_queue_finished (_maybe_dispatch m).2 = 0%nat.
Proof.
  unfold _maybe_dispatch. destruct (_paused m); [done|].
  pose proof (dispatch_loop_no_signal (max_workers m) (pending m) (active m)) as H.
  by destruct (dispatch_loop _ _ _) as [[p a] e].
Qed.

(** Handling one finished event emits "queue finished" once if the manager
    is drained afterwards and not at all otherwise. *)
Lemma on_finished_count i ok msg m :
  count_queue_finished (_on_finished i ok msg m).2 =
  if drained (_on_finished i ok msg m).1 then 1%nat else 0%nat.
Proof.
  unfold _on_finished.
  pose proof (maybe_dispatch_no_signal
    (mkManager (max_workers m) (pending m) (delete i (active m)) (_paused m))) as H.
  destruct (_maybe_dispatch _) as [m2 e2]; simpl in *.
  rewrite count_queue_finished_cons, count_queue_finished_app, H.
  by destruct (drained m2).
Qed.

Lemma drained_spec m : drained m = true <-> active m = ∅ /\ pending m = [].
Proof.
  unfold drained. rewrite andb_true_iff, !bool_decide_eq_true. done.
Qed.

Lemma count_queue_finished_elem (effs : list Effect) :
  emit queue_finished ∈ effs <-> (0 < count_queue_finished effs)%nat.
Proof.
  induction effs as [|e effs IH].
  - split; [by intros ?%elem_of_nil | by intros ?%Nat.lt_irrefl].
  - rewrite elem_of_cons, IH, count_queue_finished_cons.
    destruct (is_queue_finished e) eqn:E.
    + split; [lia|]. intros _. left. by destruct e as [[]|].
    + split; [|right; lia]. intros [<-|]; [done | lia].
Qed.

(** *** Live workers and the active mapping *)

Lemma dispatch_loop_registered limit pend act live :
  NoDup (live ++ (id <$> pend)) ->
  (forall i, i ∈ live -> is_Some (act !! i)) ->
  NoDup ((live ++ (id <$> started (dispatch_loop limit pend act).2))
           ++ (id <$> (dispatch_loop limit pend act).1.1))
  /\ forall i, i ∈ live ++ (id <$> started (dispatch_loop limit pend act).2) ->
               is_Some ((dispatch_loop limit pend act).1.2 !! i).
Proof.
  revert act live. induction pend as [|j rest IH]; intros act live Hnd Hreg; simpl.
  - rewrite !app_nil_r in *. done.
  - destruct (Z.of_nat (size act) <? limit); simpl.
    + specialize (IH (<[id j := ProcessorWorker_init j]> act) (live ++ [id j])).
      destruct (dispatch_loop limit rest _) as [[p a] e]; simpl in *.
      unfold started in *. simpl. rewrite <- !app_assoc in IH. simpl in IH.
      rewrite <- !app_assoc. apply IH.
      * done.
      * intros i [Hi | ->%list_elem_of_singleton]%elem_of_app.
        -- rewrite lookup_insert. case_decide; [by eexists | by apply Hreg].
        -- rewrite lookup_insert_eq. by eexists.
    + rewrite !app_nil_r. done.
Qed.

Lemma maybe_dispatch_registered m live :
  registered m live ->
  registered (_maybe_dispatch m).1 (live ++ (id <$> started (_maybe_dispatch m).2)).
Proof.
  intros [Hnd Hreg]. unfold _maybe_dispatch. destruct (_paused m); simpl.
  - rewrite app_nil_r. by split.
  - pose proof (dispatch_loop_registered (max_workers m) (pending m) (active m)
                  live Hnd Hreg) as H.
    by destruct (dispatch_loop _ _ _) as [[p a] e].
Qed.

Lemma remove_first_subseteq i live k : k ∈ remove_first i live -> k ∈ live.
Proof.
  induction live as [|x live IH]; simpl; [done|].
  case_bool_decide as Hx; [by right|].
  intros [->|Hin]%elem_of_cons; [by left | right; by apply IH].
Qed.

Lemma remove_first_NoDup i live :
  NoDup live -> NoDup (remove_first i live) /\ i ∉ remove_first i live.
Proof.
  induction 1 as [|x live Hx Hnd IH]; simpl.
  - split; [constructor | by intros ?%elem_of_nil].
  - case_bool_decide as Hxi.
    + subst. by split.
    + destruct IH as [IH1 IH2]. split.
      * constructor; [|done]. intros Hin. apply Hx. by eapply remove_first_subseteq.
      * intros [->|Hin]%elem_of_cons; [done | by apply IH2].
Qed.

Lemma started_emit (sig : ManagerSignal) : started [emit sig] = [].
Proof. done. Qed.

Lemma call_registered c m live :
  enabled m live c = true ->
  registered m live ->
  registered (call c m).1 (live_after live c (call c m).2).
Proof.
  intros Hen [Hnd Hreg]. unfold live_after.
  destruct c; simpl in *; rewrite ?app_nil_r; try (by split).
  - (* set_concurrency *)
    apply (maybe_dispatch_registered (mkManager _ _ _ _)). by split.
  - (* add_job *)
    apply (maybe_dispatch_registered (mkManager _ _ _ _)). split; simpl; [|done].
    apply bool_decide_eq_true in Hen.
    rewrite fmap_app, app_assoc. simpl.
    apply NoDup_app. split; [done|]. split.
    + intros i Hi ->%list_elem_of_singleton. done.
    + apply NoDup_singleton.
  - (* resume_queue *)
    apply (maybe_dispatch_registered (mkManager _ _ _ _)). split; simpl; [done|].
    intros i Hi. rewrite lookup_fmap. destruct (Hreg i Hi) as [w ->]. by eexists.
  - (* cancel_job *)
    split; simpl; [done|]. intros i Hi. by apply lookup_alter_is_Some, Hreg.
  - (* pause_job *)
    split; simpl; [done|]. intros i Hi. by apply lookup_alter_is_Some, Hreg.
  - (* resume_job *)
    split; simpl; [done|]. intros i Hi. by apply lookup_alter_is_Some, Hreg.
  - (* _on_finished *)
    unfold _on_finished.
    pose proof (maybe_dispatch_registered
      (mkManager (max_workers m) (pending m) (delete job_id (active m)) (_paused m))
      (remove_first job_id live)) as H.
    destruct (_maybe_dispatch _) as [m2 e2]; simpl in *.
    rewrite !started_app. simpl.
    replace (started (if drained m2 then [emit queue_finished] else [])) with (@nil Job)
      by (by destruct (drained m2)).
    rewrite app_nil_r. apply H. split; simpl.
    + apply NoDup_app in Hnd as (Hl & Hdisj & Hp).
      apply NoDup_app. split; [by apply remove_first_NoDup|]. split; [|done].
      intros i Hi. apply Hdisj. by eapply remove_first_subseteq.
    + intros i Hi. rewrite lookup_delete_ne.
      * apply Hreg. by eapply remove_first_subseteq.
      * intros ->. apply NoDup_app in Hnd as (Hl & _ & _).
        by apply (remove_first_NoDup i live Hl).
Qed.

(** A feasible history keeps the live workers registered, and its tail is
    feasible from where its head leaves the manager. *)
Lemma feasible_app cs1 cs2 m live :
  registered m live ->
  feasible m live (cs1 ++ cs2) = true ->
  exists live', registered (after cs1 m) live'
                /\ feasible (after cs1 m) live' cs2 = true.
Proof.
  revert m live. induction cs1 as [|c cs1 IH]; intros m live Hreg Hf.
  - exists live. by split.
  - simpl in Hf. apply andb_true_iff in Hf as [Hen Hf].
    rewrite after_cons.
    pose proof (call_registered c m live Hen Hreg) as Hreg1.
    destruct (call c m) as [m1 e1]; simpl in *.
    by apply (IH m1 (live_after live c e1)).
Qed.

(** A drained manager has no live worker. *)
Lemma drained_no_live m live : registered m live -> drained m = true -> live = [].
Proof.
  intros [_ Hreg] [Hact _]%drained_spec.
  destruct live as [|i live]; [done|].
  destruct (Hreg i) as [w Hw]; [by left|]. by rewrite Hact, lookup_empty in Hw.
Qed.

(** From a drained manager without live workers, a feasible history holds
    a submission before its first finished event. *)
Lemma quiet_until_submitted cs m i ok msg rest :
  drained m = true ->
  feasible m [] (cs ++ OnFinished i ok msg :: rest) = true ->
  submitted cs <> [].
Proof.
  revert m. induction cs as [|c cs IH]; intros m Hd Hf.
  - by simpl in Hf.
  - rewrite submitted_cons.
    destruct (decide (submitted [c] = [])) as [Hc|Hc];
      [|by intros [? _]%app_eq_nil].
    rewrite Hc. simpl. simpl in Hf. apply andb_true_iff in Hf as [Hen Hf].
    apply drained_spec in Hd as [Hact Hpend].
    assert ((call c m = ((call c m).1, []) /\ drained (call c m).1 = true)
            \/ (exists sig, call c m = (m, [emit sig]))) as Hq.
    { destruct c; simpl in *; try done.
      all: try (right; eexists; reflexivity).
      all: try (by apply bool_decide_eq_true, elem_of_nil in Hen).
      all: left; unfold set_concurrency, pause_queue, resume_queue, cancel_job,
             pause_job, resume_job, on_active, _maybe_dispatch, drained; simpl;
           rewrite ?Hpend, ?Hact; simpl; rewrite ?fmap_empty, ?alter_empty;
           destruct (_paused m); simpl; rewrite ?Hpend, ?Hact; done. }
    destruct Hq as [[Hq Hd1] | [sig Hq]].
    + rewrite Hq in Hf. unfold live_after in Hf.
      replace (match c with OnFinished i0 _ _ => remove_first i0 [] | _ => [] end)
        with (@nil Z) in Hf by (by destruct c).
      simpl in Hf. by apply (IH (call c m).1).
    + rewrite Hq in Hf. unfold live_after in Hf.
      replace (match c with OnFinished i0 _ _ => remove_first i0 [] | _ => [] end)
        with (@nil Z) in Hf by (by destruct c).
      simpl in Hf. apply (IH m); [by apply drained_spec | done].
Qed.

Lemma after_app cs1 cs2 m : after (cs1 ++ cs2) m = after cs2 (after cs1 m).
Proof.
  revert m. induction cs1 as [|c cs1 IH]; intros m; [done|].
  by rewrite <- app_comm_cons, !after_cons, IH.
Qed.

End Drain.

(** ** Live workers *)

Section LiveWorkers.

Implicit Types (m : JobManager) (cs : list Call) (live : list Z).

(** [track] is the state of [after], with the live workers beside it. *)
Lemma track_fst cs m live : (track m live cs).1 = after cs m.
Proof.
  revert m live. induction cs as [|c cs IH]; intros m live; [done|].
  rewrite after_cons. simpl. destruct (call c m) as [m1 e1]. apply IH.
Qed.

Lemma track_registered cs m live :
  registered m live ->
  feasible m live cs = true ->
  registered (track m live cs).1 (track m live cs).2.
Proof.
  revert m live. induction cs as [|c cs IH]; intros m live Hreg Hf; [done|].
  simpl in Hf |- *. apply andb_true_iff in Hf as [Hen Hf].
  pose proof (call_registered c m live Hen Hreg) as Hreg1.
  destruct (call c m) as [m1 e1]; simpl in *. by apply IH.
Qed.

(** Registered live workers are no more than the entries of the mapping. *)
Lemma registered_bound m live :
  registered m live -> (length live <= size (active m))%nat.
Proof.
  intros [Hnd Hreg]. apply NoDup_app in Hnd as (Hnd & _ & _).
  rewrite <- (size_dom (D := gset Z) (active m)).
  rewrite <- (size_list_to_set (C := gset Z) live) by done.
  apply subseteq_size. intros i Hi%elem_of_list_to_set.
  apply elem_of_dom. by apply Hreg.
Qed.

End LiveWorkers.

(** C1 as the code has it.  With the limit held at [n >= 1], after any
    history of calls (submissions, finished events and every other call
    that leaves the limit alone) the active mapping holds at most [n]
    entries.  The jobs Running, that is the workers started and not yet
    finished, are at most [n] in every such history where slots run for
    live workers only and no job id is submitted while a job of that id is
    pending or running.  And [set_concurrency k] leaves the limit at
    [max(1, k)], for every integer [k] and every state. *)
Theorem running_never_exceeds_limit (n : Z) (cs : list Call) (k : Z) (m : JobManager) :
  1 <= n ->
  forallb (keeps_limit n) cs = true ->
  Z.of_nat (size (active (after cs (JobManager_init n)))) <= n
  /\ (feasible (JobManager_init n) [] cs = true ->
      Z.of_nat (length (track (JobManager_init n) [] cs).2) <= n)
  /\ max_workers (set_concurrency k m).1 = Z.max 1 k.
Proof.
  intros Hn Hcs.
  assert (within_limit n (after cs (JobManager_init n))) as [_ Hsz].
  { apply calls_within_limit; [done|]. split; simpl.
    - rewrite zmax_spec. lia.
    - rewrite map_size_empty. lia. }
  split; [done|]. split.
  - intros Hf.
    assert (registered (JobManager_init n) []) as Hreg0.
    { split; [constructor | by intros i ?%elem_of_nil]. }
    pose proof (track_registered cs _ _ Hreg0 Hf) as Hreg.
    apply registered_bound in Hreg. rewrite track_fst in Hreg. lia.
  - unfold set_concurrency. rewrite maybe_dispatch_limit. simpl. apply zmax_spec.
Qed.

Lemma running_never_exceeds_limit_witness :
  let cs := [AddJob job_a; AddJob job_b; AddJob job_c; SetConcurrency 2;
             OnFinished 1 true "OK"] in
  1 <= 2
  /\ forallb (keeps_limit 2) cs = true
  /\ feasible (JobManager_init 2) [] cs = true
  /\ Z.of_nat (size (active (after cs (JobManager_init 2)))) <= 2
  /\ Z.of_nat (length (track (JobManager_init 2) [] cs).2) <= 2
  /\ max_workers (set_concurrency (-5) (JobManager_init 4)).1 = Z.max 1 (-5).
Proof.
  intros cs. split; [lia|]. split; [reflexivity|]. split; [reflexivity|].
  destruct (running_never_exceeds_limit 2 cs (-5) (JobManager_init 4))
    as (Ha & Hl & Hs); [lia | reflexivity |].
  split; [exact Ha|]. split; [exact (Hl eq_refl) | exact Hs].
Defined.

(** The statement of C1 fails for the jobs Running: the active mapping is
    keyed by job id, so a job submitted again while its first worker runs
    takes no further entry.  At limit 2, job 2 submitted twice and then
    job 3: three workers are started and none has finished, while the
    mapping holds two entries. *)
Lemma running_exceeds_limit_counterexample :
  let cs := [AddJob job_b; AddJob job_b; AddJob job_c] in
  forallb (keeps_limit 2) cs = true
  /\ (id <$> started (calls cs (JobManager_init 2)).2) = [2; 2; 3]
  /\ (track (JobManager_init 2) [] cs).2 = [2; 2; 3]
  /\ size (active (after cs (JobManager_init 2))) = 2%nat
  /\ 2 < Z.of_nat (length (track (JobManager_init 2) [] cs).2).
Proof. vm_compute. done. Qed.

(** C2.  Dispatch is first in, first out.  With room in the active
    mapping, the queue not paused and a job [j] at the head of the pending
    sequence, [_maybe_dispatch] starts [j] first, registers it, and leaves
    waiting exactly the jobs behind those it started.  Over any history
    from a fresh manager the jobs started followed by the jobs waiting are
    the jobs submitted, in submission order.  With limit 1 and jobs [a],
    [b], [c] submitted in this order, [a] alone runs first, [b] starts when
    [a] finishes and [c] when [b] finishes. *)
Theorem dispatch_is_fifo (m : JobManager) (j : Job) (rest : list Job)
    (n : Z) (cs : list Call) (a b c : Job) (ok1 ok2 : bool) (msg1 msg2 : string) :
  _paused m = false ->
  Z.of_nat (size (active m)) < max_workers m ->
  pending m = j :: rest ->
  (exists effs,
      (_maybe_dispatch m).2 = pool_start (ProcessorWorker_init j) :: effs
      /\ started effs ++ pending (_maybe_dispatch m).1 = rest
      /\ is_Some (active (_maybe_dispatch m).1 !! id j))
  /\ started (calls cs (JobManager_init n)).2 ++ pending (after cs (JobManager_init n))
     = submitted cs
  /\ (let submit := [AddJob a; AddJob b; AddJob c] in
      let fin_a := [OnFinished (id a) ok1 msg1] in
      let fin_b := [OnFinished (id b) ok2 msg2] in
      started (calls submit (JobManager_init 1)).2 = [a]
      /\ started (calls (submit ++ fin_a) (JobManager_init 1)).2 = [a; b]
      /\ started (calls (submit ++ fin_a ++ fin_b) (JobManager_init 1)).2 = [a; b; c]).
Proof.
  intros Hp Hroom Hpend. split; [by apply maybe_dispatch_head|].
  split; [apply (calls_fifo cs (JobManager_init n))|].
  cbn [app calls call].
  rewrite add_job_idle, !add_job_busy. cbn [app].
  rewrite on_finished_busy_next, on_finished_busy_next.
  by destruct ok1, ok2.
Qed.

Lemma dispatch_is_fifo_witness :
  let m := {| max_workers := 2; pending := [job_b; job_c];
              active := {[ 1 := ProcessorWorker_init job_a ]}; _paused := false |} in
  _paused m = false
  /\ Z.of_nat (size (active m)) < max_workers m
  /\ pending m = job_b :: [job_c]
  /\ exists effs,
      (_maybe_dispatch m).2 = pool_start (ProcessorWorker_init job_b) :: effs
      /\ started effs ++ pending (_maybe_dispatch m).1 = [job_c]
      /\ is_Some (active (_maybe_dispatch m).1 !! id job_b).
Proof.
  intros m. split; [reflexivity|]. split; [vm_compute; reflexivity|].
  split; [reflexivity|].
  apply (dispatch_is_fifo m job_b [job_c] 1 [] job_a job_b job_c true true "OK" "OK");
    [reflexivity | vm_compute; reflexivity | reflexivity].
Defined.

(** C7.  Handling a finished event emits "queue finished" exactly when the
    active mapping and the pending sequence are both empty afterwards, and
    then once.  In a history where slots run for live workers only and no
    job id is submitted while a job of that id is pending or running, a
    finished event that emitted "queue finished" is followed by a
    submission before any further finished event is handled: the signal
    comes at most once per drain. *)
Theorem queue_finished_once_per_drain (m : JobManager) (i : Z) (ok : bool)
    (msg : string) (n : Z) (pre mid : list Call) (i1 i2 : Z) (ok1 ok2 : bool)
    (msg1 msg2 : string) :
  let m' := (_on_finished i ok msg m).1 in
  let effs := (_on_finished i ok msg m).2 in
  let fin1 := OnFinished i1 ok1 msg1 in
  let fin2 := OnFinished i2 ok2 msg2 in
  let m0 := JobManager_init n in
  feasible m0 [] (pre ++ fin1 :: mid ++ [fin2]) = true ->
  count_queue_finished (call fin1 (after pre m0)).2 = 1%nat ->
  count_queue_finished effs = (if drained m' then 1%nat else 0%nat)
  /\ (emit queue_finished ∈ effs <-> active m' = ∅ /\ pending m' = [])
  /\ exists j, AddJob j ∈ mid.
Proof.
  intros m' effs fin1 fin2 m0 Hf Hq.
  split; [apply on_finished_count|]. split.
  - subst m' effs. rewrite count_queue_finished_elem, on_finished_count, <- drained_spec.
    destruct (drained _); split; (done || lia).
  - change (pre ++ fin1 :: mid ++ [fin2]) with (pre ++ [fin1] ++ mid ++ [fin2]) in Hf.
    rewrite app_assoc in Hf.
    destruct (feasible_app (pre ++ [fin1]) (mid ++ [fin2]) m0 []) as (live & Hreg & Hmid);
      [ | done | ].
    { split; [constructor | by intros k ?%elem_of_nil]. }
    rewrite after_app, after_cons in Hreg, Hmid. unfold after in Hreg, Hmid at 1.
    simpl in Hreg, Hmid.
    assert (drained (call fin1 (after pre m0)).1 = true) as Hd.
    { subst fin1. simpl in Hq |- *. rewrite on_finished_count in Hq.
      by destruct (drained _). }
    rewrite (drained_no_live _ _ Hreg Hd) in Hmid.
    pose proof (quiet_until_submitted mid _ i2 ok2 msg2 [] Hd Hmid) as Hsub.
    destruct (submitted mid) as [|j js] eqn:E; [done|].
    assert (j ∈ submitted mid) as Hj by (rewrite E; by left).
    apply list_elem_of_omap in Hj as (c & Hc & Hcj).
    exists j. by destruct c; simplify_eq.
Qed.

Lemma queue_finished_once_per_drain_witness :
  feasible (JobManager_init 2) []
    ([AddJob job_a] ++ OnFinished 1 true "OK" :: [AddJob job_b] ++ [OnFinished 2 true "OK"])
    = true
  /\ count_queue_finished
       (call (OnFinished 1 true "OK") (after [AddJob job_a] (JobManager_init 2))).2 = 1%nat
  /\ exists j, AddJob j ∈ [AddJob job_b].
Proof.
  split; [vm_compute; reflexivity|]. split; [vm_compute; reflexivity|].
  apply (queue_finished_once_per_drain (JobManager_init 1) 0 true "" 2
           [AddJob job_a] [AddJob job_b] 1 2 true true "OK" "OK");
    vm_compute; reflexivity.
Defined.

(** The statement of C7 without the condition on the history fails: a job
    submitted twice while its first worker runs is registered under one id,
    and each of the two finished events finds the manager drained. *)
Lemma queue_finished_twice_counterexample :
  let m0 := JobManager_init 2 in
  let fin := OnFinished 2 false "Canceled" in
  count_queue_finished (call fin (after [AddJob job_b; AddJob job_b] m0)).2 = 1%nat
  /\ drained (after [AddJob job_b; AddJob job_b; fin] m0) = true
  /\ count_queue_finished (call fin (after [AddJob job_b; AddJob job_b; fin] m0)).2 = 1%nat
  /\ count_queue_finished (calls [AddJob job_b; AddJob job_b; fin; fin] m0).2 = 2%nat.
Proof. vm_compute. done. Qed.

(* ================================================================== *)
(** * Properties of the progress parser and of the worker *)

Section Worker.
Context {B : Builtins}.

(** ** Exceptions stay inside *)

Lemma parse_of_body (value : string) :
  parse_ffmpeg_time_to_seconds value =
  match parse_body value with
  | Ok t => Ok (Some t)
  | Raise _ => Ok None
  end.
Proof. unfold parse_ffmpeg_time_to_seconds. by destruct (parse_body value). Qed.

Lemma parse_never_raises (value : string) :
  raises (parse_ffmpeg_time_to_seconds value) = false.
Proof. rewrite parse_of_body. by destruct (parse_body value). Qed.

(** A token that does not split into three fields at the colons is
    rejected by the unpacking. *)
Lemma parse_body_fields (value : string) :
  length (split ":" value) <> 3%nat -> raises (parse_body value) = true.
Proof.
  intros Hlen. unfold parse_body.
  destruct (split ":" value) as [|a [|b [|c [|d rest]]]]; simpl in *; done.
Qed.

Lemma handle_line_never_raises job_id duration start_time (l : StderrLine) :
  raises (handle_line job_id duration start_time l) = false.
Proof.
  unfold handle_line. destruct (String.eqb _ _); [done|].
  destruct (contains _ _); [|done].
  by destruct (progress_body _ _ _ _ _).
Qed.

Lemma handle_line_ok job_id duration start_time (l : StderrLine) :
  exists sigs, handle_line job_id duration start_time l = Ok sigs.
Proof.
  pose proof (handle_line_never_raises job_id duration start_time l) as H.
  destruct (handle_line _ _ _ _) as [sigs|e]; [by exists sigs | done].
Qed.

(** A line of noise is logged and nothing else. *)
Lemma handle_line_noise job_id duration start_time (l : StderrLine) :
  noise (strip (text l)) = true ->
  handle_line job_id duration start_time l =
  Ok (if String.eqb (strip (text l)) "" then [] else [sig_log job_id (strip (text l))]).
Proof.
  unfold noise, handle_line, progress_body. intros Hn.
  destruct (String.eqb _ _); [done|].
  destruct (contains _ _); simpl in *; [|done].
  destruct (time_token _) as [token|e]; simpl; [|done].
  rewrite parse_of_body. by destruct (parse_body token).
Qed.

Lemma read_loop_ok w env job_id duration start_time i lines :
  exists sigs, read_loop w env job_id duration start_time i lines = Ok sigs.
Proof.
  revert i. induction lines as [|l rest IH]; intros i; simpl; [by eexists|].
  destruct (stop_seen w env i); [by eexists|].
  destruct (handle_line_ok job_id duration start_time l) as [s1 ->].
  destruct (IH (S i)) as [s2 ->]. by eexists.
Qed.

(** [run] returns: the job it leaves and the signals it emitted. *)
Lemma run_ok w env : exists j sigs, run w env = Ok (j, sigs).
Proof.
  unfold run. destruct (popen env) as [pid|e]; [|by eexists _, _].
  destruct (read_loop_ok w env (id (set_ffmpeg_pid pid (mark_running (clock_mark env) (job w))))
              (Py.max (PrimFloat.mul (duration (mark_running (clock_mark env) (job w))) 2)
                 0.01)
              (clock_start env) 0 (stderr env)) as [sigs Hs].
  simpl in *. rewrite Hs. by eexists _, _.
Qed.

(** ** The shape of a run *)

Lemma finished_events_app (s1 s2 : list Signal) :
  finished_events (s1 ++ s2) = finished_events s1 ++ finished_events s2.
Proof. apply omap_app. Qed.

Lemma fractions_app (s1 s2 : list Signal) :
  fractions (s1 ++ s2) = fractions s1 ++ fractions s2.
Proof. apply omap_app. Qed.

Lemma sample_no_finished job_id duration start_time now t sigs :
  sample job_id duration start_time now t = Ok sigs -> finished_events sigs = [].
Proof.
  unfold sample. destruct (truediv t duration) as [q|]; simpl; [|done].
  destruct (if PrimFloat.ltb 0 _ then _ else _) as [speed|]; simpl; [|done].
  destruct (truediv _ _) as [rem|]; simpl; [|done].
  by intros [= <-].
Qed.

Lemma handle_line_no_finished job_id duration start_time l sigs :
  handle_line job_id duration start_time l = Ok sigs -> finished_events sigs = [].
Proof.
  unfold handle_line. destruct (String.eqb _ _); [by intros [= <-]|].
  destruct (contains _ _); [|by intros [= <-]].
  unfold progress_body.
  destruct (time_token _) as [token|e]; simpl; [|by intros [= <-]].
  rewrite parse_of_body. destruct (parse_body token) as [t|e]; simpl;
    [|by intros [= <-]].
  destruct (sample _ _ _ _ t) as [s1|e] eqn:E; simpl; intros [= <-]; [|done].
  simpl. by apply sample_no_finished in E.
Qed.

Lemma read_loop_no_finished w env job_id duration start_time i lines sigs :
  read_loop w env job_id duration start_time i lines = Ok sigs ->
  finished_events sigs = [].
Proof.
  revert i sigs. induction lines as [|l rest IH]; intros i sigs; simpl.
  - by intros [= <-].
  - destruct (stop_seen w env i); [by intros [= <-]|].
    destruct (handle_line _ _ _ l) as [s1|] eqn:E1; simpl; [|done].
    destruct (read_loop _ _ _ _ _ (S i) rest) as [s2|] eqn:E2; simpl; [|done].
    intros [= <-]. rewrite finished_events_app.
    by rewrite (handle_line_no_finished _ _ _ _ _ E1), (IH _ _ E2).
Qed.

(** The loop reads nothing of the wait. *)
Lemma read_loop_with_wait w env (x : Wait) job_id duration start_time i lines :
  read_loop w (with_wait x env) job_id duration start_time i lines
  = read_loop w env job_id duration start_time i lines.
Proof.
  revert i. induction lines as [|l rest IH]; intros i; simpl; [done|].
  unfold stop_seen at 1. simpl. fold (stop_seen w env i).
  destruct (stop_seen w env i); [done|]. by rewrite IH.
Qed.

(** A run whose process was launched: the job it leaves, and its signals
    with the one finished event at the end. *)
Lemma run_launched w env pid :
  popen env = Ok pid ->
  exists sigs,
    run w env = Ok (set_ffmpeg_pid pid (mark_running (clock_mark env) (job w)),
                    sigs ++ [finish (id (job w)) (stopped w env) (wait_ret (wait env))])
    /\ finished_events sigs = [].
Proof.
  intros Hp. unfold run. rewrite Hp.
  destruct (read_loop_ok w env (id (set_ffmpeg_pid pid (mark_running (clock_mark env) (job w))))
              (Py.max (PrimFloat.mul (duration (mark_running (clock_mark env) (job w))) 2)
                 0.01)
              (clock_start env) 0 (stderr env)) as [sigs Hs].
  pose proof (read_loop_no_finished _ _ _ _ _ _ _ _ Hs) as Hnf.
  simpl in *. rewrite Hs. simpl.
  eexists ([_; _] ++ sigs). split; [done|].
  by rewrite finished_events_app.
Qed.

Lemma finished_events_finish job_id st ret :
  finished_events [finish job_id st ret] =
  [if st then (job_id, false, "Canceled")
   else (job_id, ret =? 0,
         if ret =? 0 then "OK" else "ffmpeg exited with code " +:+ str_int ret)].
Proof. unfold finish. by destruct st. Qed.

(** The finished events of a launched run. *)
Lemma run_finished_events w env pid :
  popen env = Ok pid ->
  exists j sigs,
    run w env = Ok (j, sigs)
    /\ last sigs = Some (finish (id (job w)) (stopped w env) (wait_ret (wait env)))
    /\ finished_events sigs =
       finished_events [finish (id (job w)) (stopped w env) (wait_ret (wait env))].
Proof.
  intros Hp. destruct (run_launched w env pid Hp) as (sigs & Hrun & Hnf).
  eexists _, _. split; [exact Hrun|]. split.
  - by rewrite last_snoc.
  - by rewrite finished_events_app, Hnf.
Qed.

End Worker.

(** C5.  A worker whose process was launched and whose stop flag is not
    set when the stream has closed emits one finished event, as its last
    signal: success with message "OK" if the exit code is 0, failure with
    the message "ffmpeg exited with code <code>" otherwise. *)
Theorem exit_code_report `{Builtins} (w : ProcessorWorker) (env : World) (pid code : Z) :
  popen env = Ok pid ->
  stopped w env = false ->
  wait env = exited code ->
  exists j sigs,
    run w env = Ok (j, sigs)
    /\ (code = 0 ->
        last sigs = Some (sig_finished (id (job w)) true "OK")
        /\ finished_events sigs = [(id (job w), true, "OK")])
    /\ (code <> 0 ->
        last sigs = Some (sig_finished (id (job w)) false
                            ("ffmpeg exited with code " +:+ str_int code))
        /\ finished_events sigs =
           [(id (job w), false, "ffmpeg exited with code " +:+ str_int code)]).
Proof.
  intros Hp Hs Hw.
  destruct (run_finished_events w env pid Hp) as (j & sigs & Hrun & Hlast & Hfin).
  rewrite finished_events_finish in Hfin. unfold finish in Hlast.
  rewrite Hs, Hw in Hlast, Hfin. cbn [wait_ret] in Hlast, Hfin.
  exists j, sigs. split; [done|]. split.
  - intros ->. by split.
  - intros Hne. apply Z.eqb_neq in Hne. rewrite Hne in Hlast, Hfin. by split.
Qed.
Lemma exit_code_report_witness :
  let w := ProcessorWorker_init job_queued in
  let env := world [line_banner; line_5s] None (exited 1) in
  popen env = Ok 4242
  /\ stopped w env = false
  /\ wait env = exited 1
  /\ exists j sigs,
      run (B := Decimal.builtins) w env = Ok (j, sigs)
      /\ (1 = 0 ->
          last sigs = Some (sig_finished (id (job w)) true "OK")
          /\ finished_events sigs = [(id (job w), true, "OK")])
      /\ (1 <> 0 ->
          last sigs = Some (sig_finished (id (job w)) false
                              ("ffmpeg exited with code " +:+ str_int 1))
          /\ finished_events sigs =
             [(id (job w), false, "ffmpeg exited with code " +:+ str_int 1)]).
Proof.
  intros w env. split; [reflexivity|]. split; [reflexivity|]. split; [reflexivity|].
  apply (exit_code_report (H := Decimal.builtins) w env 4242 1);
    reflexivity.
Defined.

(** C8 as the code has it.  When the wait for the exit code runs out and
    the stop flag is not set, the worker goes on with the exit code -1: its
    finished event reports failure with the message "ffmpeg exited with
    code -1", and the whole run is the run of a process that did exit with
    code -1. *)
Theorem exit_wait_timeout_report `{Builtins} (w : ProcessorWorker) (env : World)
    (pid : Z) :
  popen env = Ok pid ->
  stopped w env = false ->
  wait env = timeout_expired ->
  run w env = run w (with_wait (exited (-1)) env)
  /\ exists j sigs,
      run w env = Ok (j, sigs)
      /\ last sigs = Some (sig_finished (id (job w)) false "ffmpeg exited with code -1")
      /\ finished_events sigs = [(id (job w), false, "ffmpeg exited with code -1")].
Proof.
  intros Hp Hs Hw. split.
  - unfold run, stopped. simpl.
    rewrite (read_loop_with_wait w env (exited (-1))). by rewrite Hw.
  - destruct (run_finished_events w env pid Hp) as (j & sigs & Hrun & Hlast & Hfin).
    rewrite finished_events_finish in Hfin. unfold finish in Hlast.
    rewrite Hs, Hw in Hlast, Hfin. by exists j, sigs.
Qed.

Lemma exit_wait_timeout_report_witness :
  let w := ProcessorWorker_init job_queued in
  let env := world [line_banner; line_5s] None timeout_expired in
  popen env = Ok 4242
  /\ stopped w env = false
  /\ wait env = timeout_expired
  /\ run (B := Decimal.builtins) w env
     = run (B := Decimal.builtins) w (with_wait (exited (-1)) env)
  /\ exists j sigs,
      run (B := Decimal.builtins) w env = Ok (j, sigs)
      /\ last sigs = Some (sig_finished (id (job w)) false "ffmpeg exited with code -1")
      /\ finished_events sigs = [(id (job w), false, "ffmpeg exited with code -1")].
Proof.
  intros w env. split; [reflexivity|]. split; [reflexivity|]. split; [reflexivity|].
  apply (exit_wait_timeout_report (H := Decimal.builtins) w env 4242); reflexivity.
Defined.

(** The statement of C8 fails: after a timeout of the wait the message is
    the exit-code message of code -1, word for word the one of a process
    that exited with code -1, and it does not say "did not exit". *)
Lemma exit_wait_timeout_counterexample :
  let w := ProcessorWorker_init job_queued in
  let timed_out := world [line_banner; line_5s] None timeout_expired in
  let exited_m1 := world [line_banner; line_5s] None (exited (-1)) in
  finished_events (signals (H := Decimal.builtins) w timed_out)
    = [(1, false, "ffmpeg exited with code -1")]
  /\ finished_events (signals (H := Decimal.builtins) w timed_out)
     = finished_events (signals (H := Decimal.builtins) w exited_m1)
  /\ contains "did not exit" "ffmpeg exited with code -1" = false.
Proof. vm_compute. done. Qed.

(** ** Cancellation *)

Section Cancellation.
Context {B : Builtins}.

(** [cancel_job] sets the stop flag of the registered worker. *)
Lemma cancel_job_sets_flag (i : Z) (m : JobManager) (w : ProcessorWorker) :
  active m !! i = Some w ->
  active (cancel_job i m).1 !! i = Some (cancel w)
  /\ forall env, stopped (cancel w) env = true.
Proof.
  intros Hw. split; [|done]. simpl. rewrite lookup_alter.
  case_decide; [|done]. by rewrite Hw.
Qed.

(** With the stop flag set at the final read, the finished event is
    "Canceled" whatever the wait returned. *)
Lemma canceled_run_finished (w : ProcessorWorker) (env : World) (pid : Z) :
  popen env = Ok pid ->
  stopped w env = true ->
  exists j sigs,
    run w env = Ok (j, sigs)
    /\ finished_events sigs = [(id (job w), false, "Canceled")].
Proof.
  intros Hp Hs.
  destruct (run_finished_events w env pid Hp) as (j & sigs & Hrun & _ & Hfin).
  rewrite finished_events_finish, Hs in Hfin. by exists j, sigs.
Qed.

Lemma dispatch_loop_no_status limit pend act :
  status_texts (dispatch_loop limit pend act).2 = [].
Proof.
  revert act. induction pend as [|j rest IH]; intros act; simpl; [done|].
  destruct (Z.of_nat (size act) <? limit); simpl; [|done].
  specialize (IH (<[id j := ProcessorWorker_init j]> act)).
  by destruct (dispatch_loop limit rest _) as [[p a] e].
Qed.

(** The status line of a finished event: "Completed", or "Failed: " and
    the message, whatever the message is. *)
Lemma on_finished_status_text (i : Z) (ok : bool) (msg : string) (m : JobManager) :
  status_texts (_on_finished i ok msg m).2
  = [if ok then "Completed" else "Failed: " +:+ msg].
Proof.
  unfold _on_finished, _maybe_dispatch. simpl. destruct (_paused m); simpl.
  - by destruct (drained _).
  - pose proof (dispatch_loop_no_status (max_workers m) (pending m)
                  (delete i (active m))) as H.
    destruct (dispatch_loop _ _ _) as [[p a] e]; simpl in *.
    unfold status_texts in *. rewrite omap_app, H. simpl.
    by destruct (drained _).
Qed.

End Cancellation.

(** C3 on the code, at a job canceled while it runs, whatever its process
    does at the end (any exit code, or none within the wait): the worker's
    finished event carries "Canceled", and the status that the manager
    republishes to its observers is the text "Failed: Canceled". *)
Theorem canceled_job_reported_failed (x : Wait) :
  let m := after [AddJob job_queued; CancelJob 1] (JobManager_init 1) in
  let w := ProcessorWorker_init job_queued in
  let env := world [line_banner; line_5s] (Some 1%nat) x in
  (_stop_event <$> active m !! 1) = Some true
  /\ finished_events (signals (H := Decimal.builtins) w env) = [(1, false, "Canceled")]
  /\ status_texts (_on_finished 1 false "Canceled" m).2 = ["Failed: Canceled"]
  /\ String.prefix "Failed" "Failed: Canceled" = true.
Proof.
  intros m w env. split; [by vm_compute|]. split.
  - destruct (canceled_run_finished (B := Decimal.builtins) w env 4242 eq_refl eq_refl)
      as (j & sigs & Hrun & Hfin).
    unfold signals. by rewrite Hrun.
  - split; [apply on_finished_status_text | done].
Qed.

(** C6.  A malformed token makes [parse_ffmpeg_time_to_seconds] return
    [None]; a line of noise is logged (if it is not blank) and otherwise
    ignored; and neither the parser, nor the handling of any line, nor the
    run as a whole ever raises. *)
Theorem parse_noise_ignored `{Builtins} (value : string) (job_id : Z)
    (duration start_time : float) (l : StderrLine) (w : ProcessorWorker)
    (env : World) :
  raises (parse_body value) = true ->
  noise (strip (text l)) = true ->
  parse_ffmpeg_time_to_seconds value = Ok None
  /\ handle_line job_id duration start_time l
     = Ok (if String.eqb (strip (text l)) "" then []
           else [sig_log job_id (strip (text l))])
  /\ (forall v, raises (parse_ffmpeg_time_to_seconds v) = false)
  /\ (forall l', raises (handle_line job_id duration start_time l') = false)
  /\ raises (run w env) = false.
Proof.
  intros Hv Hl. split.
  - rewrite parse_of_body. by destruct (parse_body value).
  - split; [by apply handle_line_noise|].
    split; [apply parse_never_raises|].
    split; [apply handle_line_never_raises|].
    by destruct (run_ok w env) as (j & sigs & ->).
Qed.

Lemma parse_noise_ignored_witness :
  raises (parse_body (B := Decimal.builtins) "N/A") = true
  /\ noise (H := Decimal.builtins) (strip (text line_na)) = true
  /\ parse_ffmpeg_time_to_seconds (B := Decimal.builtins) "N/A" = Ok None
  /\ handle_line (B := Decimal.builtins) 1 20%float 100%float line_na
     = Ok (if String.eqb (strip (text line_na)) "" then []
           else [sig_log 1 (strip (text line_na))]).
Proof.
  split; [vm_compute; reflexivity|]. split; [vm_compute; reflexivity|].
  pose proof (parse_noise_ignored (H := Decimal.builtins) "N/A" 1 20%float 100%float
                line_na (ProcessorWorker_init job_queued) (world [] None (exited 0)))
    as Hthm.
  destruct Hthm as (Hp & Hh & _); [vm_compute; reflexivity .. |].
  by split.
Defined.
(* ================================================================== *)
(** * Who writes which field of a job *)

Section Ownership.

Implicit Types (m : JobManager) (act : gmap Z ProcessorWorker) (pend : list Job).

(** The loop registers waiting jobs as they are. *)
Lemma dispatch_loop_holds limit pend act (x : Job) :
  x ∈ (dispatch_loop limit pend act).1.1
  \/ (exists i w, (dispatch_loop limit pend act).1.2 !! i = Some w /\ job w = x) ->
  x ∈ pend \/ exists i w, act !! i = Some w /\ job w = x.
Proof.
  revert act. induction pend as [|j rest IH]; intros act; simpl; [done|].
  destruct (Z.of_nat (size act) <? limit); simpl; [|done].
  specialize (IH (<[id j := ProcessorWorker_init j]> act)).
  destruct (dispatch_loop limit rest _) as [[p a] e]; simpl in *.
  intros Hx. destruct (IH Hx) as [Hin | (i & w & Hw & Hj)].
  - left. by right.
  - rewrite lookup_insert in Hw. case_decide.
    + simplify_eq. left. by left.
    + right. by exists i, w.
Qed.

Lemma maybe_dispatch_holds m (x : Job) : holds (_maybe_dispatch m).1 x -> holds m x.
Proof.
  unfold holds, _maybe_dispatch. destruct (_paused m); [done|].
  pose proof (dispatch_loop_holds (max_workers m) (pending m) (active m) x) as H.
  by destruct (dispatch_loop _ _ _) as [[p a] e].
Qed.

Lemma alter_holds (f : ProcessorWorker -> ProcessorWorker) (i : Z) m (x : Job) :
  (forall w, job (f w) = job w) ->
  holds (mkManager (max_workers m) (pending m) (alter f i (active m)) (_paused m)) x ->
  holds m x.
Proof.
  intros Hf [Hin | (k & w & Hw & Hj)]; [by left|]. right. simpl in Hw.
  rewrite lookup_alter in Hw. case_decide; [|by exists k, w].
  subst k. destruct (active m !! i) as [w0|] eqn:E; simpl in Hw; [|done].
  simplify_eq. exists i, w0. by rewrite Hf.
Qed.

(** No call of the manager changes a job: a job it holds afterwards is, field
    for field, a job it held before or the job just submitted. *)
Lemma call_holds c m (x : Job) :
  holds (call c m).1 x -> holds m x \/ c = AddJob x.
Proof.
  destruct c; simpl; try (by left).
  - (* set_concurrency *) intros Hx%maybe_dispatch_holds. by left.
  - (* add_job *)
    intros [Hin | Hact]%maybe_dispatch_holds; simpl in *.
    + apply elem_of_app in Hin as [Hin | ->%list_elem_of_singleton];
        [left; by left | by right].
    + left. by right.
  - (* resume_queue *)
    intros [Hin | (k & w & Hw & Hj)]%maybe_dispatch_holds; simpl in *; left;
      [by left|]. right.
    rewrite lookup_fmap in Hw. destruct (active m !! k) as [w0|] eqn:E; [|done].
    simpl in Hw. simplify_eq. by exists k, w0.
  - intros Hx. left. by apply (alter_holds cancel job_id).
  - intros Hx. left. by apply (alter_holds pause job_id).
  - intros Hx. left. by apply (alter_holds resume job_id).
  - (* _on_finished *)
    rewrite on_finished_fst.
    intros [Hin | (k & w & Hw & Hj)]%maybe_dispatch_holds; simpl in *; left;
      [by left|]. right.
    rewrite lookup_delete in Hw. case_decide; [done|]. by exists k, w.
Qed.

End Ownership.

(** C9 as the code has it.  A run of the worker leaves every field of its
    job as it was except five: through [mark_running] the status becomes
    Running, the start timestamp the clock reading, the progress 0 and the
    eta none, and after a successful launch the pid is stored; the message
    is among the fields left alone.  No call of the manager changes any
    field of any job. *)
Theorem supervisor_writes `{Builtins} (w : ProcessorWorker) (env : World)
    (j : Job) (sigs : list Signal) (c : Call) (m : JobManager) (x : Job) :
  run w env = Ok (j, sigs) ->
  holds (call c m).1 x ->
  (id j = id (job w) /\ input_path j = input_path (job w)
   /\ output_path j = output_path (job w) /\ duration j = duration (job w)
   /\ has_video j = has_video (job w) /\ has_audio j = has_audio (job w)
   /\ message j = message (job w) /\ end_time j = end_time (job w)
   /\ preview_mode j = preview_mode (job w) /\ command j = command (job w)
   /\ extra j = extra (job w))
  /\ (status j = RUNNING /\ start_time j = Some (clock_mark env)
      /\ progress j = 0%float /\ eta_seconds j = None
      /\ ffmpeg_pid j = match popen env with
                        | Ok pid => Some pid
                        | Raise _ => ffmpeg_pid (job w)
                        end)
  /\ (holds m x \/ c = AddJob x).
Proof.
  intros Hrun Hx.
  assert (j = match popen env with
              | Ok pid => set_ffmpeg_pid pid (mark_running (clock_mark env) (job w))
              | Raise _ => mark_running (clock_mark env) (job w)
              end) as ->.
  { destruct (popen env) as [pid|e] eqn:Hp.
    - destruct (run_launched w env pid Hp) as (s & Hs & _). congruence.
    - unfold run in Hrun. rewrite Hp in Hrun. by injection Hrun as <- _. }
  split; [|split]; [| |by apply call_holds]; by destruct (popen env).
Qed.

Lemma supervisor_writes_witness :
  let w := ProcessorWorker_init job_queued in
  let env := world [line_banner; line_5s] None (exited 0) in
  let m := JobManager_init 1 in
  exists j sigs,
    run (B := Decimal.builtins) w env = Ok (j, sigs)
    /\ holds (call (AddJob job_queued) m).1 job_queued
    /\ message j = message (job w)
    /\ status j = RUNNING
    /\ ffmpeg_pid j = Some 4242.
Proof.
  intros w env m.
  destruct (run_ok (B := Decimal.builtins) w env) as (j & sigs & Hrun).
  assert (holds (call (AddJob job_queued) m).1 job_queued) as Hh.
  { right. exists 1, (ProcessorWorker_init job_queued). by vm_compute. }
  exists j, sigs. split; [done|]. split; [done|].
  destruct (supervisor_writes (H := Decimal.builtins) w env j sigs
              (AddJob job_queued) m job_queued Hrun Hh)
    as ((_ & _ & _ & _ & _ & _ & Hmsg & _) & (Hst & _ & _ & _ & Hpid) & _).
  split; [done|]. split; [done|]. exact Hpid.
Defined.

(** The statement of C9 fails: the worker itself sets the status and the
    start timestamp of its job, which the manager never does. *)
Lemma supervisor_writes_status_counterexample :
  let w := ProcessorWorker_init job_queued in
  let env := world [line_banner; line_5s] None (exited 0) in
  status (job w) = QUEUED
  /\ start_time (job w) = None
  /\ (status <$> job_after (H := Decimal.builtins) w env) = Some RUNNING
  /\ (start_time <$> job_after (H := Decimal.builtins) w env) = Some (Some 100%float).
Proof. vm_compute. done. Qed.
(* ================================================================== *)
(** * The progress sample *)

(** ** Division and order in binary64

    The quotient of two floats is the exact quotient of their values, cut
    at the exponent of the format and rounded to nearest even
    ([SFdiv]).  The cut and the rounding keep the order of the exact
    quotients, so division by a positive finite float keeps the order of
    the numerators. *)

Section Located.

Lemma new_location_spec (B r : Z) :
  0 < B -> 0 <= r < B ->
  new_location B r = if r =? 0 then loc_Exact else loc_Inexact (2 * r ?= B).
Proof.
  intros HB Hr. unfold new_location, new_location_even, new_location_odd.
  destruct (Z.even B) eqn:Ev; destruct (Z.eqb_spec r 0) as [->|Hr0]; try done.
  assert (Z.odd B = true) as Hodd by (by rewrite <- Z.negb_even, Ev).
  apply Z.odd_spec in Hodd as [k ->]. f_equal.
  destruct (Z.compare_spec (2 * r + 1) (2 * k + 1)), (Z.compare_spec (2 * r) (2 * k + 1));
    try done; lia.
Qed.

Lemma located_div (A B : Z) :
  0 < B -> 0 <= A ->
  located A B (A / B) (new_location B (A mod B)).
Proof.
  intros HB HA. pose proof (Z.div_mod A B ltac:(lia)) as Hdm.
  pose proof (Z.mod_pos_bound A B HB) as Hr.
  rewrite new_location_spec by done. split; [nia|].
  destruct (Z.eqb_spec (A mod B) 0) as [H0|H0], (Z.eqb_spec A (A / B * B)) as [H1|H1];
    try done; try nia.
  f_equal. destruct (Z.compare_spec (2 * (A mod B)) B),
    (Z.compare_spec (2 * A) ((2 * (A / B) + 1) * B)); try done; nia.
Qed.

(** [located] sees the ratio only. *)
Lemma located_ratio (A B A' B' m : Z) (l : location) :
  0 < B -> 0 < B' -> A * B' = A' * B ->
  located A B m l -> located A' B' m l.
Proof.
  intros HB HB' Heq [[Hlo Hhi] ->]. split; [nia|].
  destruct (Z.eqb_spec A (m * B)) as [H1|H1], (Z.eqb_spec A' (m * B')) as [H2|H2];
    try done; try nia.
  f_equal. destruct (Z.compare_spec (2 * A) ((2 * m + 1) * B)),
    (Z.compare_spec (2 * A') ((2 * m + 1) * B')); try done; nia.
Qed.

End Located.

Section Shift.

Lemma pow2_xI (n : positive) : 2 ^ Zpos n~1 = 2 ^ Zpos n * (2 ^ Zpos n * 2).
Proof.
  change (Zpos n~1) with (Z.succ_double (Zpos n)). rewrite Z.succ_double_spec.
  replace (2 * Zpos n + 1) with (Zpos n + Zpos n + 1) by lia.
  rewrite !Z.pow_add_r by lia. change (2 ^ 1) with 2. ring.
Qed.

Lemma pow2_xO (n : positive) : 2 ^ Zpos n~0 = 2 ^ Zpos n * 2 ^ Zpos n.
Proof.
  change (Zpos n~0) with (Z.double (Zpos n)). rewrite Z.double_spec.
  replace (2 * Zpos n) with (Zpos n + Zpos n) by lia.
  by rewrite Z.pow_add_r by lia.
Qed.

(** One step of the right shift halves the mantissa and keeps the place
    of the ratio. *)
Lemma shr_1_located (A B : Z) (mrs : shr_record) :
  0 < B -> 0 <= shr_m mrs ->
  located A B (shr_m mrs) (loc_of_shr_record mrs) ->
  located A (2 * B) (shr_m (shr_1 mrs)) (loc_of_shr_record (shr_1 mrs))
  /\ 0 <= shr_m (shr_1 mrs)
  /\ Zdigits2 (shr_m (shr_1 mrs)) = Z.max (Zdigits2 (shr_m mrs) - 1) 0.
Proof.
  intros HB Hm [Hint Hl]. destruct mrs as [m r s]. simpl in Hm, Hint, Hl.
  assert (exists m' b, m = 2 * m' + Z.b2z b /\ 0 <= m'
            /\ shr_1 {| shr_m := m; shr_r := r; shr_s := s |}
               = {| shr_m := m'; shr_r := b; shr_s := r || s |}
            /\ Zdigits2 m' = Z.max (Zdigits2 m - 1) 0) as (m' & b & -> & Hm' & -> & Hd).
  { destruct m as [|[p|p|]|]; try lia.
    - exists 0, false. done.
    - exists (Zpos p), true. repeat split; try done; simpl; lia.
    - exists (Zpos p), false. repeat split; try done; simpl; lia.
    - exists 0, true. done. }
  split; [|done]. clear Hd. simpl. unfold located.
  destruct (Z.eqb_spec A ((2 * m' + Z.b2z b) * B)) as [H1|H1].
  - destruct r, s; try done. split; [destruct b; simpl in *; nia|].
    destruct b; simpl in *.
    + destruct (Z.eqb_spec A (m' * (2 * B))); [nia|]. f_equal.
      destruct (Z.compare_spec (2 * A) ((2 * m' + 1) * (2 * B))); try done; nia.
    + destruct (Z.eqb_spec A (m' * (2 * B))); [done|nia].
  - assert (r || s = true) as -> by (destruct r, s; try done).
    split; [destruct b; simpl in *; nia|].
    destruct (Z.eqb_spec A (m' * (2 * B))) as [H2|H2]; [destruct b; simpl in *; nia|].
    destruct b; simpl in *; f_equal;
      destruct (Z.compare_spec (2 * A) ((2 * m' + 1) * (2 * B))); try done; nia.
Qed.

Lemma iter_shr_1_located (n : positive) (A B : Z) (mrs : shr_record) :
  0 < B -> 0 <= shr_m mrs ->
  located A B (shr_m mrs) (loc_of_shr_record mrs) ->
  located A (2 ^ Zpos n * B) (shr_m (SpecFloat.iter_pos shr_1 n mrs))
          (loc_of_shr_record (SpecFloat.iter_pos shr_1 n mrs))
  /\ 0 <= shr_m (SpecFloat.iter_pos shr_1 n mrs)
  /\ Zdigits2 (shr_m (SpecFloat.iter_pos shr_1 n mrs)) = Z.max (Zdigits2 (shr_m mrs) - Zpos n) 0.
Proof.
  revert A B mrs. induction n as [n IH|n IH|]; intros A B mrs HB Hm Hl.
  - cbn [SpecFloat.iter_pos].
    destruct (shr_1_located A B mrs HB Hm Hl) as (H1 & Hm1 & Hd1).
    destruct (IH A (2 * B) _ ltac:(lia) Hm1 H1) as (H2 & Hm2 & Hd2).
    destruct (IH A (2 ^ Zpos n * (2 * B)) _ ltac:(lia) Hm2 H2) as (H3 & Hm3 & Hd3).
    split; [|split; [done|]].
    + replace (2 ^ Zpos n~1 * B) with (2 ^ Zpos n * (2 ^ Zpos n * (2 * B))); [done|].
      rewrite pow2_xI. ring.
    + rewrite Hd3, Hd2, Hd1. lia.
  - cbn [SpecFloat.iter_pos].
    destruct (IH A B _ HB Hm Hl) as (H2 & Hm2 & Hd2).
    destruct (IH A (2 ^ Zpos n * B) _ ltac:(lia) Hm2 H2) as (H3 & Hm3 & Hd3).
    split; [|split; [done|]].
    + replace (2 ^ Zpos n~0 * B) with (2 ^ Zpos n * (2 ^ Zpos n * B)); [done|].
      rewrite pow2_xO. ring.
    + rewrite Hd3, Hd2. lia.
  - cbn [SpecFloat.iter_pos]. change (2 ^ 1) with 2.
    destruct (shr_1_located A B mrs HB Hm Hl) as (H1 & Hm1 & Hd1). done.
Qed.

Lemma loc_of_shr_record_of_loc (m : Z) (l : location) :
  loc_of_shr_record (shr_record_of_loc m l) = l
  /\ shr_m (shr_record_of_loc m l) = m.
Proof. by destruct l as [|[]]. Qed.

(** The shift to the exponent [e + n]. *)
Lemma shr_located (A B m e n : Z) (l : location) :
  0 < B -> 0 <= m -> 0 <= n ->
  located A B m l ->
  exists mrs,
    shr (shr_record_of_loc m l) e n = (mrs, e + n)
    /\ located A (2 ^ n * B) (shr_m mrs) (loc_of_shr_record mrs)
    /\ 0 <= shr_m mrs
    /\ Zdigits2 (shr_m mrs) = Z.max (Zdigits2 m - n) 0.
Proof.
  intros HB Hm Hn Hl.
  destruct (loc_of_shr_record_of_loc m l) as [Hl' Hm'].
  destruct n as [|n|n]; [| |lia].
  - exists (shr_record_of_loc m l). simpl. rewrite Hl', Hm', Z.add_0_r.
    split; [done|]. split; [by destruct B|]. split; [done|].
    destruct m; simpl; lia.
  - exists (SpecFloat.iter_pos shr_1 n (shr_record_of_loc m l)). split; [done|].
    pose proof (iter_shr_1_located n A B (shr_record_of_loc m l) HB) as H.
    rewrite Hl', Hm' in H. by apply H.
Qed.

End Shift.

Section Digits.

Lemma digits2_pos_spec (p : positive) :
  2 ^ (Zpos (digits2_pos p) - 1) <= Zpos p < 2 ^ Zpos (digits2_pos p).
Proof.
  induction p as [p IH|p IH|]; cbn [digits2_pos]; [| |done];
    rewrite Pos2Z.inj_succ;
    replace (Z.succ (Zpos (digits2_pos p)) - 1) with (Z.succ (Zpos (digits2_pos p) - 1))
      by lia;
    rewrite !Z.pow_succ_r by lia; lia.
Qed.

Lemma Zdigits2_nonneg (m : Z) : 0 <= Zdigits2 m.
Proof. by destruct m. Qed.

Lemma Zdigits2_pos (m : Z) :
  0 < m -> 2 ^ (Zdigits2 m - 1) <= m < 2 ^ Zdigits2 m /\ 0 < Zdigits2 m.
Proof.
  destruct m as [|p|p]; [lia| |lia]. intros _. split; [apply digits2_pos_spec | done].
Qed.

Lemma Zdigits2_zero (m : Z) : 0 <= m -> Zdigits2 m = 0 -> m = 0.
Proof. by destruct m. Qed.

(** A number that reaches [2 ^ t] has more than [t] digits. *)
Lemma Zdigits2_ge (m t : Z) : 0 <= t -> 2 ^ t <= m -> t < Zdigits2 m.
Proof.
  intros Ht Hm. assert (0 < m) as Hpos by (pose proof (Z.pow_pos_nonneg 2 t); lia).
  destruct (Zdigits2_pos m Hpos) as [[_ Hlt] Hd].
  destruct (Z.lt_ge_cases t (Zdigits2 m)) as [|Hge]; [done|].
  pose proof (Z.pow_le_mono_r 2 (Zdigits2 m) t ltac:(lia) Hge). lia.
Qed.

(** A number below [2 ^ t] has at most [t] digits. *)
Lemma Zdigits2_le (m t : Z) : 0 <= t -> 0 <= m < 2 ^ t -> Zdigits2 m <= t.
Proof.
  intros Ht [Hm Hlt]. destruct (Z.eq_dec m 0) as [->|Hne]; [done|].
  destruct (Zdigits2_pos m ltac:(lia)) as [[Hle _] Hd].
  destruct (Z.le_gt_cases (Zdigits2 m) t) as [|Hgt]; [done|].
  pose proof (Z.pow_le_mono_r 2 t (Zdigits2 m - 1) ltac:(lia) ltac:(lia)). lia.
Qed.

End Digits.

Section Exponent.

Lemma fexp_spec (e : Z) : fexp prec emax e = Z.max (e - 53) (-1074).
Proof. done. Qed.

Lemma fexp_mono (a b : Z) : a <= b -> fexp prec emax a <= fexp prec emax b.
Proof. rewrite !fexp_spec. lia. Qed.

End Exponent.

Section Division.

(** The quotient of the two mantissas, cut at the exponent of the format:
    the mantissa [m] and the place [l] of the exact quotient, at exponent
    [e]. *)
Lemma div_cut (mx my : positive) (ex ey : Z) :
  exists q e' n s mrs,
    SFdiv_core_binary prec emax (Zpos mx) ex (Zpos my) ey
    = (q, e', new_location (Zpos my) ((Zpos mx * 2 ^ s) mod Zpos my))
    /\ shr_fexp prec emax q e' (new_location (Zpos my) ((Zpos mx * 2 ^ s) mod Zpos my))
       = (mrs, e' + n)
    /\ 0 <= n /\ 0 <= s /\ s = ex - ey - e'
    /\ located (Zpos mx * 2 ^ s) (2 ^ n * Zpos my) (shr_m mrs) (loc_of_shr_record mrs)
    /\ 0 <= shr_m mrs
    /\ e' + n = fexp prec emax (Zdigits2 (shr_m mrs) + (e' + n)).
Proof.
  set (d := Zpos (digits2_pos mx) + ex - (Zpos (digits2_pos my) + ey)).
  set (e' := Z.min (fexp prec emax d) (ex - ey)).
  set (s := ex - ey - e').
  assert (0 <= s) as Hs by (unfold s, e'; lia).
  set (A := Zpos mx * 2 ^ s).
  assert (0 < A) as HA by (unfold A; pose proof (Z.pow_pos_nonneg 2 s); lia).
  assert (SFdiv_core_binary prec emax (Zpos mx) ex (Zpos my) ey
          = (A / Zpos my, e', new_location (Zpos my) (A mod Zpos my))) as Hcore.
  { unfold SFdiv_core_binary. cbn [Zdigits2]. fold d. fold e'. fold s.
    assert (match s with
            | 0 => Zpos mx
            | Zpos _ => Z.shiftl (Zpos mx) s
            | Zneg _ => 0
            end = A) as ->.
    { unfold A. destruct s as [|p|p] eqn:E; [by rewrite Z.mul_1_r| |lia].
      by rewrite Z.shiftl_mul_pow2. }
    unfold Z.modulo, Z.div. by destruct (Z.div_eucl A (Zpos my)). }
  pose proof (located_div A (Zpos my) ltac:(done) ltac:(lia)) as Hloc.
  set (q := A / Zpos my) in *.
  assert (0 <= q) as Hq by (apply Z.div_pos; lia).
  (* the quotient has enough digits *)
  assert (d - e' <= Zdigits2 q) as Hdig.
  { destruct (Z.le_gt_cases (d - e') 0) as [|Hpos];
      [pose proof (Zdigits2_nonneg q); lia|].
    assert (d - e' - 1 < Zdigits2 q); [|lia].
    apply Zdigits2_ge; [lia|].
    apply Z.div_le_lower_bound; [done|].
    pose proof (digits2_pos_spec mx) as [Hmx _].
    pose proof (digits2_pos_spec my) as [_ Hmy].
    assert (2 ^ (d - e' - 1) * 2 ^ Zpos (digits2_pos my)
            = 2 ^ (Zpos (digits2_pos mx) - 1) * 2 ^ s) as Hpow.
    { rewrite <- !Z.pow_add_r by lia. f_equal. unfold d, s. lia. }
    unfold A. nia. }
  set (n := fexp prec emax (Zdigits2 q + e') - e').
  assert (0 <= n) as Hn.
  { unfold n. pose proof (fexp_mono d (Zdigits2 q + e') ltac:(lia)).
    unfold e' at 2. lia. }
  destruct (shr_located A (Zpos my) q e' n _ ltac:(done) Hq Hn Hloc)
    as (mrs & Hshr & Hl & Hm & Hd).
  exists q, e', n, s, mrs. split; [exact Hcore|]. split; [exact Hshr|].
  do 3 (split; [done|]). split; [exact Hl|]. split; [exact Hm|].
  rewrite Hd. unfold n. rewrite !fexp_spec.
  pose proof (Zdigits2_nonneg q). lia.
Qed.

End Division.

Section Nearest.

Lemma round_nearest_even_bounds (m : Z) (l : location) :
  m <= round_nearest_even m l <= m + 1.
Proof. destruct l as [|[]]; simpl; try lia. destruct (Z.even m); lia. Qed.

(** A mantissa at its exponent has at most 53 digits. *)
Lemma canonical_digits (m e : Z) :
  0 <= m -> e = fexp prec emax (Zdigits2 m + e) -> m < 2 ^ 53 /\ -1074 <= e.
Proof.
  intros Hm He. rewrite fexp_spec in He. split; [|lia].
  destruct (Z.eq_dec m 0) as [->|Hne]; [done|].
  destruct (Zdigits2_pos m ltac:(lia)) as [[_ Hlt] Hd].
  pose proof (Z.pow_le_mono_r 2 (Zdigits2 m) 53 ltac:(lia) ltac:(lia)). lia.
Qed.

(** Above the least exponent the mantissa has all its 53 digits. *)
Lemma canonical_normal (m e : Z) :
  0 <= m -> e = fexp prec emax (Zdigits2 m + e) -> -1074 < e -> 2 ^ 52 <= m.
Proof.
  intros Hm He Hlt. rewrite fexp_spec in He.
  assert (Zdigits2 m = 53) as Hd by lia.
  assert (0 < m) as Hpos by (destruct m; [done|lia|lia]).
  destruct (Zdigits2_pos m Hpos) as [[Hle _] _]. by rewrite Hd in Hle.
Qed.

(** The quotients of two numerators by one denominator, cut at their
    exponents and rounded to nearest even, come in the order of the
    numerators. *)
Lemma cut_mono (X1 X2 Y0 m1 m2 e1 e2 : Z) (l1 l2 : location) :
  0 < Y0 -> X1 <= X2 ->
  0 <= m1 -> 0 <= m2 ->
  e1 = fexp prec emax (Zdigits2 m1 + e1) ->
  e2 = fexp prec emax (Zdigits2 m2 + e2) ->
  located X1 (2 ^ (e1 + 1074) * Y0) m1 l1 ->
  located X2 (2 ^ (e2 + 1074) * Y0) m2 l2 ->
  (e1 < e2 /\ 2 ^ 52 <= m2)
  \/ (e1 = e2 /\ round_nearest_even m1 l1 <= round_nearest_even m2 l2).
Proof.
  intros HY HX Hm1 Hm2 He1 He2 [H1 Hl1] [H2 Hl2].
  destruct (canonical_digits m1 e1 Hm1 He1) as [Hb1 Hmin1].
  destruct (canonical_digits m2 e2 Hm2 He2) as [Hb2 Hmin2].
  destruct (Z.lt_trichotomy e1 e2) as [Hlt | [Heq | Hgt]].
  - left. split; [done|]. apply (canonical_normal m2 e2); [done|done|lia].
  - right. split; [done|]. subst e2.
    set (U := 2 ^ (e1 + 1074) * Y0) in *.
    assert (0 < U) as HU by (unfold U; pose proof (Z.pow_pos_nonneg 2 (e1 + 1074)); lia).
    assert (m1 <= m2) as Hm by nia.
    destruct (Z.eq_dec m1 m2) as [->|Hne].
    + (* the same interval: the places are in order *)
      subst l1 l2.
      destruct (Z.eqb_spec X1 (m2 * U)) as [E1|E1]; [apply round_nearest_even_bounds|].
      destruct (Z.eqb_spec X2 (m2 * U)) as [E2|E2]; [nia|].
      destruct (Z.compare_spec (2 * X1) ((2 * m2 + 1) * U)),
        (Z.compare_spec (2 * X2) ((2 * m2 + 1) * U)); simpl;
        try destruct (Z.even m2); lia.
    + pose proof (round_nearest_even_bounds m1 l1).
      pose proof (round_nearest_even_bounds m2 l2). lia.
  - exfalso.
    pose proof (canonical_normal m1 e1 Hm1 He1 ltac:(lia)) as Hn1.
    assert (2 ^ (e1 + 1074) = 2 ^ (e1 - e2 - 1) * (2 * 2 ^ (e2 + 1074))) as Hp.
    { rewrite <- Z.pow_succ_r, <- Z.pow_add_r by lia. f_equal. lia. }
    pose proof (Z.pow_pos_nonneg 2 (e1 - e2 - 1) ltac:(lia) ltac:(lia)) as Hp1.
    pose proof (Z.pow_pos_nonneg 2 (e2 + 1074) ltac:(lia) ltac:(lia)) as Hp2.
    set (V := 2 ^ (e2 + 1074) * Y0) in *.
    assert (0 < V) as HV by (unfold V; lia).
    assert (2 ^ (e1 + 1074) * Y0 = 2 ^ (e1 - e2 - 1) * (2 * V)) as HU
      by (unfold V; rewrite Hp; ring).
    rewrite HU in H1.
    assert ((m2 + 1) * V <= 2 ^ 52 * (2 * V)) as Ha by nia.
    assert (2 ^ 52 * (2 * V) <= m1 * (2 ^ (e1 - e2 - 1) * (2 * V))) as Hb.
    { transitivity (m1 * (2 * V)); [nia|]. nia. }
    lia.
Qed.

End Nearest.

Section Result.

(** What [binary_round_aux] returns, from the cut at the exponent of the
    format. *)
Lemma round_aux_result (s : bool) (q e' : Z) (l : location) (mrs : shr_record) (e : Z) :
  shr_fexp prec emax q e' l = (mrs, e) ->
  0 <= shr_m mrs ->
  e = fexp prec emax (Zdigits2 (shr_m mrs) + e) ->
  binary_round_aux prec emax s q e' l
  = let m' := round_nearest_even (shr_m mrs) (loc_of_shr_record mrs) in
    if m' =? 0 then S754_zero s
    else if m' <? 2 ^ 53
         then if e <=? 971 then S754_finite s (Z.to_pos m') e else S754_infinity s
         else if e + 1 <=? 971 then S754_finite s (Z.to_pos (2 ^ 52)) (e + 1)
              else S754_infinity s.
Proof.
  intros Hshr Hm He. unfold binary_round_aux. rewrite Hshr.
  destruct (canonical_digits _ _ Hm He) as [Hb Hmin].
  pose proof (round_nearest_even_bounds (shr_m mrs) (loc_of_shr_record mrs)) as Hr.
  set (m' := round_nearest_even (shr_m mrs) (loc_of_shr_record mrs)) in *.
  cbv zeta. destruct (Z.ltb_spec m' (2 ^ 53)) as [Hlt|Hge].
  - assert (fexp prec emax (Zdigits2 m' + e) - e <= 0) as Hn.
    { pose proof (Zdigits2_le m' 53 ltac:(lia) ltac:(lia)). rewrite fexp_spec. lia. }
    unfold shr_fexp, shr.
    assert (forall mrs0 : shr_record,
              match fexp prec emax (Zdigits2 m' + e) - e with
              | Zpos p => (SpecFloat.iter_pos shr_1 p mrs0,
                           e + (fexp prec emax (Zdigits2 m' + e) - e))
              | _ => (mrs0, e)
              end = (mrs0, e)) as ->.
    { intros mrs0. destruct (fexp prec emax (Zdigits2 m' + e) - e); [done|lia|done]. }
    simpl. destruct m' as [|p|p]; [done| |lia]. simpl. done.
  - assert (m' = 2 ^ 53) as -> by lia.
    assert (fexp prec emax (Zdigits2 (2 ^ 53) + e) - e = 1) as Hn.
    { rewrite fexp_spec. change (Zdigits2 (2 ^ 53)) with 54. lia. }
    unfold shr_fexp. rewrite Hn. done.
Qed.

(** The order of two results, from the order of their cuts. *)
Lemma round_result_le (e1 e2 m1 m2 : Z) :
  0 <= m1 <= 2 ^ 53 -> 0 <= m2 <= 2 ^ 53 ->
  (e1 < e2 /\ 2 ^ 52 <= m2) \/ (e1 = e2 /\ m1 <= m2) ->
  SFleb
    (if m1 =? 0 then S754_zero false
     else if m1 <? 2 ^ 53
          then if e1 <=? 971 then S754_finite false (Z.to_pos m1) e1
               else S754_infinity false
          else if e1 + 1 <=? 971 then S754_finite false (Z.to_pos (2 ^ 52)) (e1 + 1)
               else S754_infinity false)
    (if m2 =? 0 then S754_zero false
     else if m2 <? 2 ^ 53
          then if e2 <=? 971 then S754_finite false (Z.to_pos m2) e2
               else S754_infinity false
          else if e2 + 1 <=? 971 then S754_finite false (Z.to_pos (2 ^ 52)) (e2 + 1)
               else S754_infinity false) = true.
Proof.
  intros Hm1 Hm2 Hord.
  destruct (Z.eqb_spec m1 0), (Z.eqb_spec m2 0),
    (Z.ltb_spec m1 (2 ^ 53)), (Z.ltb_spec m2 (2 ^ 53)),
    (Z.leb_spec e1 971), (Z.leb_spec e2 971),
    (Z.leb_spec (e1 + 1) 971), (Z.leb_spec (e2 + 1) 971);
    try lia; try done; unfold SFleb, SFcompare;
    repeat match goal with
    | |- context [Z.compare ?a ?b] => destruct (Z.compare_spec a b)
    | |- context [Pos.compare_cont Eq ?a ?b] =>
        change (Pos.compare_cont Eq a b) with (Pos.compare a b);
        destruct (Pos.compare_spec a b)
    end; try done; lia.
Qed.

End Result.

Section Quotient.

(** A finite number divided by a positive finite one: the rounded cut. *)
Lemma SFdiv_finite (s : bool) (mx my : positive) (ex ey : Z) :
  -1074 <= ex -> -1074 <= ey ->
  exists m e l,
    SFdiv prec emax (S754_finite s mx ex) (S754_finite false my ey)
    = (let m' := round_nearest_even m l in
       if m' =? 0 then S754_zero s
       else if m' <? 2 ^ 53
            then if e <=? 971 then S754_finite s (Z.to_pos m') e else S754_infinity s
            else if e + 1 <=? 971 then S754_finite s (Z.to_pos (2 ^ 52)) (e + 1)
                 else S754_infinity s)
    /\ 0 <= m
    /\ e = fexp prec emax (Zdigits2 m + e)
    /\ located (Zpos mx * 2 ^ (ex + 2148)) (2 ^ (e + 1074) * (Zpos my * 2 ^ (ey + 1074))) m l.
Proof.
  intros Hex Hey.
  destruct (div_cut mx my ex ey)
    as (q & e' & n & k & mrs & Hcore & Hshr & Hn & Hk & Hkeq & Hloc & Hm & He).
  exists (shr_m mrs), (e' + n), (loc_of_shr_record mrs).
  split; [|split; [done|split; [done|]]].
  - unfold SFdiv. rewrite Hcore. rewrite xorb_false_r.
    by apply round_aux_result.
  - destruct (canonical_digits _ _ Hm He) as [_ Hmin].
    eapply located_ratio; [| |  |exact Hloc].
    + pose proof (Z.pow_pos_nonneg 2 n). lia.
    + pose proof (Z.pow_pos_nonneg 2 (e' + n + 1074)).
      pose proof (Z.pow_pos_nonneg 2 (ey + 1074)). nia.
    + assert (2 ^ k * (2 ^ (e' + n + 1074) * 2 ^ (ey + 1074))
              = 2 ^ (ex + 2148) * 2 ^ n) as Hp.
      { rewrite <- !Z.pow_add_r by lia. f_equal. lia. }
      nia.
Qed.

Lemma SFdiv_finite_sign (s : bool) (mx my : positive) (ex ey : Z) :
  -1074 <= ex -> -1074 <= ey ->
  sign_of (SFdiv prec emax (S754_finite s mx ex) (S754_finite false my ey)) = Some s.
Proof.
  intros Hex Hey. destruct (SFdiv_finite s mx my ex ey Hex Hey) as (m & e & l & -> & _).
  cbv zeta. destruct (round_nearest_even m l =? 0); [reflexivity|].
  destruct (round_nearest_even m l <? 2 ^ 53).
  - destruct (e <=? 971); reflexivity.
  - destruct (e + 1 <=? 971); reflexivity.
Qed.

Lemma bounded_exponent (m : positive) (e : Z) :
  bounded prec emax m e = true ->
  -1074 <= e /\ e = fexp prec emax (Zdigits2 (Zpos m) + e).
Proof.
  unfold bounded, canonical_mantissa. intros [H1 _]%andb_true_iff.
  apply Z.eqb_eq in H1. cbn [Zdigits2]. rewrite fexp_spec in *. lia.
Qed.

(** The order of two positive finite numbers is the order of their
    values. *)
Lemma SFleb_value (m1 m2 : positive) (e1 e2 : Z) :
  bounded prec emax m1 e1 = true -> bounded prec emax m2 e2 = true ->
  SFleb (S754_finite false m1 e1) (S754_finite false m2 e2) = true ->
  Zpos m1 * 2 ^ (e1 + 2148) <= Zpos m2 * 2 ^ (e2 + 2148).
Proof.
  intros [Hmin1 Hc1]%bounded_exponent [Hmin2 Hc2]%bounded_exponent.
  destruct (canonical_digits (Zpos m1) e1 ltac:(lia) Hc1) as [Hb1 _].
  unfold SFleb, SFcompare.
  destruct (Z.compare_spec e1 e2) as [->|Hlt|Hgt]; [| |done].
  - change (Pos.compare_cont Eq m1 m2) with (Pos.compare m1 m2).
    destruct (Pos.compare_spec m1 m2); try done; intros _;
      pose proof (Z.pow_pos_nonneg 2 (e2 + 2148)); nia.
  - intros _.
    pose proof (canonical_normal (Zpos m2) e2 ltac:(lia) Hc2 ltac:(lia)) as Hn2.
    assert (2 ^ (e2 + 2148) = 2 ^ (e2 - e1 - 1) * (2 * 2 ^ (e1 + 2148))) as ->.
    { rewrite <- Z.pow_succ_r, <- Z.pow_add_r by lia. f_equal. lia. }
    pose proof (Z.pow_pos_nonneg 2 (e2 - e1 - 1) ltac:(lia) ltac:(lia)).
    pose proof (Z.pow_pos_nonneg 2 (e1 + 2148) ltac:(lia) ltac:(lia)).
    transitivity (2 ^ 52 * (2 * 2 ^ (e1 + 2148))); [nia|].
    transitivity (Zpos m2 * (2 * 2 ^ (e1 + 2148))); nia.
Qed.

(** Division by a positive finite number keeps the order of positive
    finite numbers. *)
Lemma SFdiv_pos_mono (m1 m2 my : positive) (e1 e2 ey : Z) :
  bounded prec emax m1 e1 = true -> bounded prec emax m2 e2 = true ->
  bounded prec emax my ey = true ->
  SFleb (S754_finite false m1 e1) (S754_finite false m2 e2) = true ->
  SFleb (SFdiv prec emax (S754_finite false m1 e1) (S754_finite false my ey))
        (SFdiv prec emax (S754_finite false m2 e2) (S754_finite false my ey)) = true.
Proof.
  intros Hb1 Hb2 Hby Hle.
  pose proof (SFleb_value m1 m2 e1 e2 Hb1 Hb2 Hle) as HX.
  destruct (bounded_exponent _ _ Hb1) as [Hmin1 _].
  destruct (bounded_exponent _ _ Hb2) as [Hmin2 _].
  destruct (bounded_exponent _ _ Hby) as [Hminy _].
  destruct (SFdiv_finite false m1 my e1 ey Hmin1 Hminy)
    as (q1 & x1 & l1 & -> & Hq1 & Hx1 & Hl1).
  destruct (SFdiv_finite false m2 my e2 ey Hmin2 Hminy)
    as (q2 & x2 & l2 & -> & Hq2 & Hx2 & Hl2).
  cbv zeta.
  pose proof (round_nearest_even_bounds q1 l1).
  pose proof (round_nearest_even_bounds q2 l2).
  destruct (canonical_digits _ _ Hq1 Hx1) as [? _].
  destruct (canonical_digits _ _ Hq2 Hx2) as [? _].
  apply round_result_le; [lia|lia|].
  assert (0 < Zpos my * 2 ^ (ey + 1074)) as HY
    by (pose proof (Z.pow_pos_nonneg 2 (ey + 1074)); lia).
  destruct (cut_mono _ _ _ _ _ _ _ _ _ HY HX Hq1 Hq2 Hx1 Hx2 Hl1 Hl2)
    as [[Hlt Hn] | [Heq Hr]]; [left; lia | right; done].
Qed.

End Quotient.

Section Clamp.

Lemma nonneg_sign (q : spec_float) : nonneg q = true <-> sign_of q = Some false.
Proof. destruct q as [[]|[]| |[] m e]; simpl; split; congruence. Qed.

(** The clamp of a number at or below zero is a zero. *)
Lemma sf_clamp_nonpos (q : spec_float) :
  sign_of q = Some true \/ (exists s, q = S754_zero s) ->
  exists s, sf_clamp q = S754_zero s.
Proof.
  intros [Hs | [s ->]].
  - destruct q as [[]|[]| |[] m e]; try done; by eexists.
  - destruct s; by eexists.
Qed.

(** The clamp of a number is not below zero. *)
Lemma sf_clamp_above_zero (q : spec_float) (s0 : bool) :
  sign_of q <> None -> SFleb (S754_zero s0) (sf_clamp q) = true.
Proof.
  intros Hq. destruct q as [[]|[]| |[] m e]; try done.
  unfold sf_clamp. change (SFltb (S754_finite false m e) (S754_zero false)) with false.
  cbv iota. by destruct (SFltb sf_one (S754_finite false m e)).
Qed.

Lemma SFltb_finite (m1 m2 : positive) (e1 e2 : Z) :
  SFltb (S754_finite false m1 e1) (S754_finite false m2 e2) = true
  <-> e1 < e2 \/ (e1 = e2 /\ Zpos m1 < Zpos m2).
Proof.
  unfold SFltb, SFcompare.
  change (Pos.compare_cont Eq m1 m2) with (Pos.compare m1 m2).
  destruct (Z.compare_spec e1 e2); [|split; [lia|done]|split; [done|lia]].
  destruct (Pos.compare_spec m1 m2); split; try done; lia.
Qed.

Lemma SFleb_finite (m1 m2 : positive) (e1 e2 : Z) :
  SFleb (S754_finite false m1 e1) (S754_finite false m2 e2) = true
  <-> e1 < e2 \/ (e1 = e2 /\ Zpos m1 <= Zpos m2).
Proof.
  unfold SFleb, SFcompare.
  change (Pos.compare_cont Eq m1 m2) with (Pos.compare m1 m2).
  destruct (Z.compare_spec e1 e2); [|split; [lia|done]|split; [done|lia]].
  destruct (Pos.compare_spec m1 m2); split; try done; lia.
Qed.

(** The clamp keeps the order of the numbers from zero up. *)
Lemma sf_clamp_mono (q1 q2 : spec_float) :
  nonneg q1 = true -> nonneg q2 = true ->
  SFleb q1 q2 = true -> SFleb (sf_clamp q1) (sf_clamp q2) = true.
Proof.
  destruct q1 as [[]|[]| |[] m1 e1]; try discriminate;
    destruct q2 as [[]|[]| |[] m2 e2]; try discriminate; intros _ _ Hle;
    try reflexivity; try discriminate Hle.
  - (* zero, finite *)
    apply (sf_clamp_above_zero (S754_finite false m2 e2) false). discriminate.
  - (* finite, infinity *)
    change (sf_clamp (S754_infinity false)) with sf_one.
    unfold sf_clamp. change (SFltb (S754_finite false m1 e1) (S754_zero false)) with false.
    cbv iota. destruct (SFltb sf_one (S754_finite false m1 e1)) eqn:E1; [reflexivity|].
    apply not_true_iff_false in E1. unfold sf_one in *.
    rewrite SFltb_finite in E1. apply SFleb_finite. lia.
  - (* finite, finite *)
    unfold sf_clamp.
    change (SFltb (S754_finite false m1 e1) (S754_zero false)) with false.
    change (SFltb (S754_finite false m2 e2) (S754_zero false)) with false.
    cbv iota. apply SFleb_finite in Hle.
    destruct (SFltb sf_one (S754_finite false m1 e1)) eqn:E1,
      (SFltb sf_one (S754_finite false m2 e2)) eqn:E2;
      [reflexivity | | |by apply SFleb_finite].
    + apply not_true_iff_false in E2. unfold sf_one in *.
      rewrite SFltb_finite in E1, E2. lia.
    + apply not_true_iff_false in E1. unfold sf_one in *.
      rewrite SFltb_finite in E1. apply SFleb_finite. lia.
Qed.

End Clamp.

Section Order.

Lemma SFdiv_sign (x : spec_float) (my : positive) (ey : Z) :
  valid_binary x = true -> -1074 <= ey -> sign_of x <> None ->
  sign_of (SFdiv prec emax x (S754_finite false my ey)) = sign_of x
  /\ ((exists s, x = S754_zero s) ->
      exists s, SFdiv prec emax x (S754_finite false my ey) = S754_zero s).
Proof.
  intros Hv Hey Hx. destruct x as [s|s| |s m e]; [| |done|].
  - simpl. rewrite xorb_false_r. split; [done|]. intros _. by eexists.
  - simpl. rewrite xorb_false_r. split; [done|]. by intros [? ?].
  - destruct (bounded_exponent m e Hv) as [Hmin _].
    split; [by apply SFdiv_finite_sign|]. by intros [? ?].
Qed.

(** Division by a positive finite number, then the clamp to [0, 1], keeps
    the order. *)
Lemma SFdiv_clamp_mono (x1 x2 : spec_float) (my : positive) (ey : Z) :
  valid_binary x1 = true -> valid_binary x2 = true ->
  bounded prec emax my ey = true ->
  SFleb x1 x2 = true ->
  SFleb (sf_clamp (SFdiv prec emax x1 (S754_finite false my ey)))
        (sf_clamp (SFdiv prec emax x2 (S754_finite false my ey))) = true.
Proof.
  intros Hv1 Hv2 Hby Hle.
  destruct (bounded_exponent _ _ Hby) as [Hey _].
  assert (sign_of x1 <> None) as Hn1 by (by destruct x1).
  assert (sign_of x2 <> None) as Hn2
    by (destruct x2; try done; by destruct x1 as [[]|[]| |[] ? ?]).
  destruct (SFdiv_sign x1 my ey Hv1 Hey Hn1) as [Hs1 Hz1].
  destruct (SFdiv_sign x2 my ey Hv2 Hey Hn2) as [Hs2 Hz2].
  assert (sign_of x1 = Some true \/ (exists s, x1 = S754_zero s)
          \/ nonneg x1 = true /\ forall s, x1 <> S754_zero s) as [Hneg | [Hzero | [Hpos Hnz]]].
  { destruct x1 as [[]|[]| |[] m e]; try done; eauto. }
  - destruct (sf_clamp_nonpos (SFdiv prec emax x1 (S754_finite false my ey)))
      as [s ->]; [left; congruence|].
    apply sf_clamp_above_zero. congruence.
  - destruct (sf_clamp_nonpos (SFdiv prec emax x1 (S754_finite false my ey)))
      as [s ->]; [right; by apply Hz1|].
    apply sf_clamp_above_zero. congruence.
  - assert (nonneg x2 = true) as Hpos2.
    { destruct x1 as [[]|[]| |[] m1 e1]; try done;
        try (by destruct (Hnz false));
        destruct x2 as [[]|[]| |[] m2 e2]; try done. }
    apply sf_clamp_mono.
    + apply nonneg_sign. rewrite Hs1. by apply nonneg_sign.
    + apply nonneg_sign. rewrite Hs2. by apply nonneg_sign.
    + destruct x1 as [[]|[]| |[] m1 e1]; try done;
        try (by destruct (Hnz false));
        destruct x2 as [[]|[]| |[] m2 e2]; try done.
      * (* finite, infinity *)
        pose proof (SFdiv_finite_sign false m1 my e1 ey
                      (proj1 (bounded_exponent _ _ Hv1)) Hey) as Hs.
        change (SFdiv prec emax (S754_infinity false) (S754_finite false my ey))
          with (S754_infinity false).
        destruct (SFdiv prec emax (S754_finite false m1 e1)
                    (S754_finite false my ey)) as [[]|[]| |[] ? ?];
          done.
      * (* finite, finite *)
        by apply SFdiv_pos_mono.
Qed.

(** A positive finite number divided by itself is 1. *)
Lemma SFdiv_self (my : positive) (ey : Z) :
  bounded prec emax my ey = true ->
  SFdiv prec emax (S754_finite false my ey) (S754_finite false my ey) = sf_one.
Proof.
  intros Hby. destruct (bounded_exponent _ _ Hby) as [Hey _].
  destruct (SFdiv_finite false my my ey ey Hey Hey) as (m & e & l & -> & Hm & He & [Hint Hl]).
  destruct (canonical_digits m e Hm He) as [Hb Hmin].
  set (Y := Zpos my * 2 ^ (ey + 1074)) in *.
  assert (0 < Y) as HY by (unfold Y; pose proof (Z.pow_pos_nonneg 2 (ey + 1074)); lia).
  assert (Zpos my * 2 ^ (ey + 2148) = 2 ^ 1074 * Y) as HX.
  { unfold Y. replace (ey + 2148) with (1074 + (ey + 1074)) by lia.
    rewrite Z.pow_add_r by lia. ring. }
  rewrite HX in Hint, Hl.
  set (P := 2 ^ 1022).
  assert (0 < P) as HP by (by apply Z.pow_pos_nonneg).
  assert (2 ^ 1074 = 2 ^ 52 * P) as HK by (unfold P; by rewrite <- Z.pow_add_r).
  assert (e = -52) as ->.
  { destruct (Z.lt_trichotomy e (-52)) as [Hlt | [Heq | Hgt]]; [exfalso|done|exfalso].
    - assert (P = 2 ^ (-53 - e) * (2 * 2 ^ (e + 1074))) as HPe.
      { unfold P. rewrite <- Z.pow_succ_r, <- Z.pow_add_r by lia. f_equal. lia. }
      pose proof (Z.pow_pos_nonneg 2 (-53 - e) ltac:(lia) ltac:(lia)).
      pose proof (Z.pow_pos_nonneg 2 (e + 1074) ltac:(lia) ltac:(lia)).
      set (U := 2 ^ (e + 1074)) in *. rewrite HK, HPe in Hint.
      assert ((m + 1) * U <= 2 ^ 52 * (2 * U)) by nia.
      assert (2 ^ 52 * (2 * U) * Y <= 2 ^ 52 * (2 ^ (-53 - e) * (2 * U)) * Y) by nia.
      nia.
    - pose proof (canonical_normal m e Hm He ltac:(lia)) as Hn.
      assert (2 ^ (e + 1074) = 2 ^ (e + 51) * (2 * P)) as HPe.
      { unfold P. rewrite <- Z.pow_succ_r, <- Z.pow_add_r by lia. f_equal. lia. }
      pose proof (Z.pow_pos_nonneg 2 (e + 51) ltac:(lia) ltac:(lia)).
      rewrite HK, HPe in Hint.
      assert (2 ^ 52 * (2 * P) * Y <= m * (2 ^ (e + 51) * (2 * P)) * Y) by nia.
      nia. }
  change (2 ^ (-52 + 1074)) with P in *. rewrite HK in Hint, Hl.
  assert (m = 2 ^ 52) as -> by nia.
  assert (l = loc_Exact) as ->.
  { rewrite Hl. destruct (Z.eqb_spec (2 ^ 52 * P * Y) (2 ^ 52 * (P * Y))); [done|lia]. }
  reflexivity.
Qed.

End Order.

Section Sample.
Context {B : Builtins}.

(** ** Comparisons of binary64 values *)

Lemma max_nonzero (c x : float) :
  positive_float c = true -> PrimFloat.eqb (Py.max x c) 0%float = false.
Proof.
  intros [H1 H2]%andb_true_iff.
  unfold Py.max. destruct (PrimFloat.ltb x c) eqn:E.
  - rewrite FloatAxioms.eqb_spec. change (Prim2SF 0) with (S754_zero false).
    destruct (Prim2SF c) as [s|s| |s mx ex]; try done; by destruct s.
  - rewrite FloatAxioms.eqb_spec. rewrite FloatAxioms.ltb_spec in E.
    change (Prim2SF 0) with (S754_zero false).
    destruct (Prim2SF x) as [s|s| |s mx ex]; try done.
    + destruct s; congruence.
    + by destruct s.
    + by destruct s.
Qed.

Lemma max_above_zero (c x : float) :
  positive_float c = true -> PrimFloat.is_nan x = false ->
  PrimFloat.ltb 0%float (Py.max x c) = true.
Proof.
  intros [H1 H2]%andb_true_iff Hnan.
  unfold PrimFloat.is_nan in Hnan. rewrite FloatAxioms.eqb_spec in Hnan.
  unfold Py.max. destruct (PrimFloat.ltb x c) eqn:E.
  - rewrite FloatAxioms.ltb_spec. by change (Prim2SF 0) with (S754_zero false).
  - rewrite FloatAxioms.ltb_spec. rewrite FloatAxioms.ltb_spec in E.
    change (Prim2SF 0) with (S754_zero false).
    destruct (Prim2SF x) as [s|s| |s mx ex]; try done.
    + destruct s; congruence.
    + destruct s; [|done].
      destruct (Prim2SF c) as [sc|sc| |sc mc ec]; try done; by destruct sc.
    + destruct s; [|done].
      destruct (Prim2SF c) as [sc|sc| |sc mc ec]; try done; by destruct sc.
Qed.

(** Python's [min(max(q, 0.0), 1.0)] is the clamp to [0, 1]. *)
Lemma min_max_clamp (q : float) :
  Py.min (Py.max q 0%float) 1%float = spec_clamp q 0%float 1%float.
Proof.
  unfold Py.min, Py.max, spec_clamp. by destruct (PrimFloat.ltb q 0).
Qed.

(** The clamp is never below 0 nor above 1. *)
Lemma clamp_range (q : float) :
  PrimFloat.ltb (spec_clamp q 0%float 1%float) 0%float = false
  /\ PrimFloat.ltb 1%float (spec_clamp q 0%float 1%float) = false.
Proof.
  unfold spec_clamp. destruct (PrimFloat.ltb q 0) eqn:E0; [done|].
  destruct (PrimFloat.ltb 1 q) eqn:E1; done.
Qed.

(** ** What one line yields *)

(** The sample of a timestamp [t]: no division fails, and the two values
    are the clamp and the remaining time over the guarded throughput. *)
Lemma sample_value job_id (d start_time now t : float) :
  PrimFloat.is_nan (PrimFloat.sub now start_time) = false ->
  sample job_id (Py.max d 0.01) start_time now t =
  Ok [sig_progress job_id
        (spec_clamp (PrimFloat.div t (Py.max d 0.01)) 0 1)
        (PrimFloat.div (PrimFloat.sub (Py.max d 0.01) t)
           (Py.max (PrimFloat.div t (Py.max (PrimFloat.sub now start_time) 0.001))
              0.01))].
Proof.
  intros Hnan. unfold sample, truediv.
  rewrite (max_nonzero 0.01 d) by done. simpl.
  rewrite (max_above_zero 0.001 _ eq_refl Hnan).
  rewrite (max_nonzero 0.001 (PrimFloat.sub now start_time)) by done. simpl.
  rewrite (max_nonzero 0.01 (PrimFloat.div t _)) by done. simpl.
  by rewrite min_max_clamp.
Qed.

Lemma contains_not_blank (sub line : string) :
  contains sub "" = false -> contains sub line = true -> String.eqb line "" = false.
Proof. intros H0 H1. destruct line; [congruence | done]. Qed.

(** A line with a timestamp that parses to [t]: logged, then sampled. *)
Lemma handle_line_sample job_id (d start_time : float) (l : StderrLine)
    (token : string) (t : float) :
  contains "time=" (strip (text l)) = true ->
  time_token (strip (text l)) = Ok token ->
  parse_ffmpeg_time_to_seconds token = Ok (Some t) ->
  PrimFloat.is_nan (PrimFloat.sub (clock l) start_time) = false ->
  handle_line job_id (Py.max d 0.01) start_time l =
  Ok [sig_log job_id (strip (text l));
      sig_progress job_id
        (spec_clamp (PrimFloat.div t (Py.max d 0.01)) 0 1)
        (PrimFloat.div (PrimFloat.sub (Py.max d 0.01) t)
           (Py.max (PrimFloat.div t (Py.max (PrimFloat.sub (clock l) start_time) 0.001))
              0.01))].
Proof.
  intros Hc Htok Hparse Hnan. unfold handle_line, progress_body.
  rewrite (contains_not_blank "time=" _ eq_refl Hc), Hc, Htok. simpl.
  rewrite Hparse. simpl. by rewrite sample_value.
Qed.

(** A line without ["time="] yields no sample. *)
Lemma handle_line_no_token job_id (duration start_time : float) (l : StderrLine) :
  contains "time=" (strip (text l)) = false ->
  handle_line job_id duration start_time l =
  Ok (if String.eqb (strip (text l)) "" then [] else [sig_log job_id (strip (text l))]).
Proof. intros Hc. apply handle_line_noise. unfold noise. by rewrite Hc. Qed.

(** Every fraction that a line yields is a clamp. *)
Lemma sample_fractions job_id duration start_time now t sigs :
  sample job_id duration start_time now t = Ok sigs ->
  exists q, fractions sigs = [spec_clamp q 0 1].
Proof.
  unfold sample. destruct (truediv t duration) as [q|]; simpl; [|done].
  destruct (if PrimFloat.ltb 0 _ then _ else _) as [speed|]; simpl; [|done].
  destruct (truediv _ _) as [rem|]; simpl; [|done].
  intros [= <-]. exists q. simpl. by rewrite min_max_clamp.
Qed.

Lemma handle_line_fractions job_id duration start_time l sigs :
  handle_line job_id duration start_time l = Ok sigs ->
  fractions sigs = [] \/ exists q, fractions sigs = [spec_clamp q 0 1].
Proof.
  unfold handle_line. destruct (String.eqb _ _); [intros [= <-]; by left|].
  destruct (contains _ _); [|intros [= <-]; by left].
  unfold progress_body.
  destruct (time_token _) as [token|e]; simpl; [|intros [= <-]; by left].
  rewrite parse_of_body. destruct (parse_body token) as [t|e]; simpl;
    [|intros [= <-]; by left].
  destruct (sample _ _ _ _ t) as [s1|e] eqn:E; simpl; intros [= <-]; [|by left].
  right. by apply sample_fractions in E.
Qed.

(** ** What the loop yields *)

(** The loop emits, line after line, what [handle_line] yields for the
    lines it handles: nothing is carried from one line to the next. *)
Lemma read_loop_lines w env job_id duration start_time i lines sigs :
  read_loop w env job_id duration start_time i lines = Ok sigs ->
  exists per_line,
    Forall2 (fun l s => handle_line job_id duration start_time l = Ok s)
            (handled w env i lines) per_line
    /\ sigs = concat per_line.
Proof.
  revert i sigs. induction lines as [|l rest IH]; intros i sigs; simpl.
  - intros [= <-]. by exists [].
  - destruct (stop_seen w env i); [intros [= <-]; by exists []|].
    destruct (handle_line _ _ _ l) as [s1|] eqn:E1; simpl; [|done].
    destruct (read_loop _ _ _ _ _ (S i) rest) as [s2|] eqn:E2; simpl; [|done].
    intros [= <-]. destruct (IH _ _ E2) as (per & Hper & ->).
    exists (s1 :: per). split; [by constructor | done].
Qed.

Lemma read_loop_range w env job_id duration start_time i lines sigs (p : float) :
  read_loop w env job_id duration start_time i lines = Ok sigs ->
  p ∈ fractions sigs ->
  PrimFloat.ltb p 0 = false /\ PrimFloat.ltb 1 p = false.
Proof.
  revert i sigs. induction lines as [|l rest IH]; intros i sigs; simpl.
  - intros [= <-]. by intros ?%elem_of_nil.
  - destruct (stop_seen w env i); [intros [= <-]; by intros ?%elem_of_nil|].
    destruct (handle_line _ _ _ l) as [s1|] eqn:E1; simpl; [|done].
    destruct (read_loop _ _ _ _ _ (S i) rest) as [s2|] eqn:E2; simpl; [|done].
    intros [= <-]. rewrite fractions_app.
    intros [Hp | Hp]%elem_of_app; [|by eapply IH].
    destruct (handle_line_fractions _ _ _ _ _ E1) as [Hf | [q Hf]];
      rewrite Hf in Hp.
    + by apply elem_of_nil in Hp.
    + apply list_elem_of_singleton in Hp as ->. apply clamp_range.
Qed.

(** The fractions of a run are those of its reading loop. *)
Lemma run_fractions w env j sigs :
  run w env = Ok (j, sigs) ->
  fractions sigs = [] \/
  exists s, read_loop w env (id (job w))
              (Py.max (PrimFloat.mul (duration (job w)) 2) 0.01)
              (clock_start env) 0 (stderr env) = Ok s
            /\ fractions sigs = fractions s.
Proof.
  unfold run. destruct (popen env) as [pid|e].
  - simpl. destruct (read_loop _ _ _ _ _ _ _) as [s|] eqn:E; simpl; [|done].
    intros [= <- <-]. right. exists s. split; [done|].
    change (fractions (?a :: ?b :: ?l)) with (fractions l).
    rewrite fractions_app. unfold finish.
    destruct (stopped w env); simpl; by rewrite app_nil_r.
  - intros [= <- <-]. by left.
Qed.

Lemma run_range w env j sigs (p : float) :
  run w env = Ok (j, sigs) ->
  p ∈ fractions sigs ->
  PrimFloat.ltb p 0 = false /\ PrimFloat.ltb 1 p = false.
Proof.
  intros Hrun Hp. destruct (run_fractions w env j sigs Hrun) as [Hf | (s & Hs & Hf)];
    rewrite Hf in Hp.
  - by apply elem_of_nil in Hp.
  - by eapply read_loop_range.
Qed.


(** ** The fractions of a run, from the timestamps of its stream *)

Lemma ltb_zero_nonzero (x : float) :
  PrimFloat.ltb 0 x = true -> PrimFloat.eqb x 0 = false.
Proof.
  rewrite FloatAxioms.ltb_spec, FloatAxioms.eqb_spec.
  change (Prim2SF 0) with (S754_zero false).
  destruct (Prim2SF x) as [s|s| |s mx ex]; try done; by destruct s.
Qed.

(** With an expected duration other than zero the sample is computed, and
    its fraction is the clamp of the quotient. *)
Lemma sample_fraction job_id (e start_time now t : float) :
  PrimFloat.eqb e 0 = false ->
  exists r,
    sample job_id e start_time now t
    = Ok [sig_progress job_id (spec_clamp (PrimFloat.div t e) 0 1) r].
Proof.
  intros He. unfold sample, truediv. rewrite He. simpl.
  rewrite min_max_clamp.
  destruct (PrimFloat.ltb 0 (Py.max (PrimFloat.sub now start_time) 0.001)) eqn:Hv.
  - rewrite (ltb_zero_nonzero _ Hv). simpl.
    rewrite (max_nonzero 0.01
               (PrimFloat.div t (Py.max (PrimFloat.sub now start_time) 0.001)))
      by done.
    simpl. by eexists.
  - simpl. by eexists.
Qed.

(** The fraction that a line yields is that of its timestamp. *)
Lemma handle_line_timestamp job_id (e start_time : float) (l : StderrLine) sigs :
  PrimFloat.eqb e 0 = false ->
  handle_line job_id e start_time l = Ok sigs ->
  fractions sigs
  = match timestamp_of l with
    | Some t => [spec_clamp (PrimFloat.div t e) 0 1]
    | None => []
    end.
Proof.
  intros He. unfold handle_line, timestamp_of.
  destruct (String.eqb (strip (text l)) ""); [by intros [= <-]|].
  destruct (contains "time=" (strip (text l))); [|by intros [= <-]].
  unfold progress_body.
  destruct (time_token (strip (text l))) as [token|x]; simpl; [|by intros [= <-]].
  rewrite parse_of_body. destruct (parse_body token) as [t|x]; simpl;
    [|by intros [= <-]].
  destruct (sample_fraction job_id e start_time (clock l) t He) as [r ->].
  simpl. by intros [= <-].
Qed.

Lemma read_loop_timestamps w env job_id (e start_time : float) i lines sigs :
  PrimFloat.eqb e 0 = false ->
  read_loop w env job_id e start_time i lines = Ok sigs ->
  fractions sigs
  = (fun t => spec_clamp (PrimFloat.div t e) 0 1)
      <$> omap timestamp_of (handled w env i lines).
Proof.
  intros He. revert i sigs. induction lines as [|l rest IH]; intros i sigs; simpl.
  - by intros [= <-].
  - destruct (stop_seen w env i); [by intros [= <-]|].
    destruct (handle_line job_id e start_time l) as [s1|] eqn:E1; simpl; [|done].
    destruct (read_loop w env job_id e start_time (S i) rest) as [s2|] eqn:E2;
      simpl; [|done].
    intros [= <-]. rewrite fractions_app, (IH _ _ E2).
    rewrite (handle_line_timestamp _ _ _ _ _ He E1).
    by destruct (timestamp_of l).
Qed.

(** The fractions of a run are the clamped quotients of the timestamps of
    the lines it handles, in the order of the stream. *)
Lemma run_timestamps w env j sigs :
  run w env = Ok (j, sigs) ->
  fractions sigs
  = (fun t => spec_clamp
                (PrimFloat.div t (Py.max (PrimFloat.mul (duration (job w)) 2) 0.01)) 0 1)
      <$> timestamps w env.
Proof.
  unfold run, timestamps. destruct (popen env) as [pid|x].
  - simpl. destruct (read_loop _ _ _ _ _ _ _) as [s|] eqn:E; simpl; [|done].
    intros [= <- <-].
    change (fractions (?a :: ?b :: ?l)) with (fractions l).
    rewrite fractions_app.
    rewrite (read_loop_timestamps _ _ _ _ _ _ _ _ (max_nonzero 0.01 _ ltac:(done)) E).
    unfold finish. destruct (stopped w env); simpl; by rewrite app_nil_r.
  - by intros [= <- <-].
Qed.

(** ** The clamp and the division on binary64 *)

Lemma clamp_spec (q : float) :
  Prim2SF (spec_clamp q 0 1) = sf_clamp (Prim2SF q).
Proof.
  unfold spec_clamp, sf_clamp. rewrite !FloatAxioms.ltb_spec.
  change (Prim2SF 0) with (S754_zero false). change (Prim2SF 1) with sf_one.
  destruct (SFltb (Prim2SF q) (S754_zero false)); [done|].
  by destruct (SFltb sf_one (Prim2SF q)).
Qed.

(** A float above zero and below infinity. *)
Lemma positive_finite (e : float) :
  PrimFloat.ltb 0 e = true -> PrimFloat.ltb e infinity = true ->
  exists my ey, Prim2SF e = S754_finite false my ey
                /\ bounded prec emax my ey = true.
Proof.
  rewrite !FloatAxioms.ltb_spec. change (Prim2SF 0) with (S754_zero false).
  change (Prim2SF infinity) with (S754_infinity false).
  pose proof (Prim2SF_valid e) as Hv.
  destruct (Prim2SF e) as [s|s| |s my ey]; try done; [by destruct s|].
  destruct s; [done|]. intros _ _. by exists my, ey.
Qed.

(** The guarded duration is above zero as soon as it is a number below
    infinity. *)
Lemma expected_positive (d : float) :
  PrimFloat.ltb (Py.max d 0.01) infinity = true ->
  PrimFloat.ltb 0 (Py.max d 0.01) = true.
Proof.
  intros Hfin. apply max_above_zero; [done|].
  unfold PrimFloat.is_nan. rewrite FloatAxioms.eqb_spec.
  revert Hfin. unfold Py.max. rewrite !FloatAxioms.ltb_spec.
  change (Prim2SF infinity) with (S754_infinity false).
  destruct (Prim2SF d) as [s|s| |s mx ex] eqn:Ed; try done.
  - by destruct s.
  - change (SFltb S754_nan (Prim2SF 0.01)) with false. cbv iota. by rewrite Ed.
  - intros _. unfold SFeqb, SFcompare.
    change (Pos.compare_cont Eq mx mx) with (Pos.compare mx mx).
    destruct s; by rewrite Z.compare_refl, Pos.compare_refl.
Qed.

(** Division by a duration above zero and below infinity, then the clamp,
    keeps the order of the timestamps. *)
Lemma clamp_div_mono (a b e : float) :
  PrimFloat.ltb 0 e = true -> PrimFloat.ltb e infinity = true ->
  PrimFloat.leb a b = true ->
  PrimFloat.leb (spec_clamp (PrimFloat.div a e) 0 1)
                (spec_clamp (PrimFloat.div b e) 0 1) = true.
Proof.
  intros He1 He2 Hab. destruct (positive_finite e He1 He2) as (my & ey & Hy & Hby).
  rewrite FloatAxioms.leb_spec in Hab |- *.
  rewrite !clamp_spec, !FloatAxioms.div_spec, Hy.
  apply SFdiv_clamp_mono; [apply Prim2SF_valid | apply Prim2SF_valid | done | done].
Qed.

(** A timestamp that has reached the duration gives exactly 1.0. *)
Lemma clamp_div_full (t e : float) :
  PrimFloat.ltb 0 e = true -> PrimFloat.ltb e infinity = true ->
  PrimFloat.leb e t = true ->
  spec_clamp (PrimFloat.div t e) 0 1 = 1%float.
Proof.
  intros He1 He2 Het. destruct (positive_finite e He1 He2) as (my & ey & Hy & Hby).
  apply Prim2SF_inj. rewrite clamp_spec, FloatAxioms.div_spec, Hy.
  unfold SF64div. rewrite FloatAxioms.leb_spec, Hy in Het.
  pose proof (SFdiv_clamp_mono _ _ my ey (Prim2SF_valid e) (Prim2SF_valid t) Hby) as Hm.
  rewrite Hy in Hm. specialize (Hm Het). rewrite (SFdiv_self my ey Hby) in Hm.
  change (sf_clamp sf_one) with sf_one in Hm. change (Prim2SF 1) with sf_one.
  revert Hm. unfold sf_clamp.
  destruct (SFltb _ (S754_zero false)); [done|].
  destruct (SFltb sf_one _) eqn:E1; [done|].
  destruct (SFdiv prec emax (Prim2SF t) (S754_finite false my ey))
    as [s|s| |s m x]; try done; try (by destruct s).
  destruct s; [done|]. unfold sf_one in *. intros Hle.
  apply SFleb_finite in Hle. apply not_true_iff_false in E1.
  rewrite SFltb_finite in E1.
  assert (x = -52 /\ Zpos m = 4503599627370496) as [-> Hm] by lia.
  by injection Hm as ->.
Qed.

Lemma nondecreasing_clamp_div (e : float) (ts : list float) :
  PrimFloat.ltb 0 e = true -> PrimFloat.ltb e infinity = true ->
  nondecreasing ts = true ->
  nondecreasing ((fun t => spec_clamp (PrimFloat.div t e) 0 1) <$> ts) = true.
Proof.
  intros He1 He2. induction ts as [|a [|b rest] IH]; [done|done|].
  cbn [nondecreasing]. intros [Hab Hrest]%andb_true_iff.
  cbn [fmap list_fmap nondecreasing]. apply andb_true_iff. split.
  - by apply clamp_div_mono.
  - by apply IH.
Qed.

End Sample.
(** C4 as the code has it.  For a line whose stripped text contains
    ["time="] and whose token parses to the elapsed output time [t], with
    expected output duration [d] guarded as [e = max(d, 0.01)] for every
    [d], and wall-clock time since the start guarded as
    [v = max(now - start, 0.001)], the line is logged and yields one sample:
    progress [clamp(t / e, 0, 1)] and remaining time
    [(e - t) / max(t / v, 0.01)].  Where neither guard takes effect
    ([d <= 0] or [d >= 0.01], and [now - start >= 0.001]) these are the
    values of the specification's formulas.  A line without ["time="]
    yields no sample. *)
Theorem progress_sample `{Builtins} (job_id : Z) (d start_time : float)
    (l l' : StderrLine) (token : string) (t : float) :
  let line := strip (text l) in
  let e := Py.max d 0.01 in
  let wall := PrimFloat.sub (clock l) start_time in
  let v := Py.max wall 0.001 in
  contains "time=" line = true ->
  time_token line = Ok token ->
  parse_ffmpeg_time_to_seconds token = Ok (Some t) ->
  PrimFloat.is_nan wall = false ->
  contains "time=" (strip (text l')) = false ->
  handle_line job_id e start_time l
  = Ok [sig_log job_id line;
        sig_progress job_id
          (spec_clamp (PrimFloat.div t e) 0 1)
          (PrimFloat.div (PrimFloat.sub e t) (Py.max (PrimFloat.div t v) 0.01))]
  /\ (PrimFloat.leb d 0 || negb (PrimFloat.ltb d 0.01) = true ->
      spec_clamp (PrimFloat.div t e) 0 1 = spec_progress t d
      /\ (PrimFloat.ltb wall 0.001 = false ->
          PrimFloat.div (PrimFloat.sub e t) (Py.max (PrimFloat.div t v) 0.01)
          = spec_remaining t d wall))
  /\ fractions (match handle_line job_id e start_time l' with
                | Ok sigs => sigs
                | Raise _ => []
                end) = [].
Proof.
  intros line e wall v Hc Htok Hparse Hnan Hc'. split; [|split].
  - by apply (handle_line_sample job_id d start_time l token t).
  - intros Hd.
    assert (spec_expected d = e) as He.
    { unfold spec_expected, e. destruct (PrimFloat.leb d 0); [done|].
      simpl in Hd. apply negb_true_iff in Hd. unfold Py.max. by rewrite Hd. }
    unfold spec_progress, spec_remaining. rewrite He. split; [done|].
    intros Hw. subst v. unfold Py.max at 2. by rewrite Hw.
  - rewrite handle_line_no_token by done. by destruct (String.eqb _ _).
Qed.

Lemma progress_sample_witness :
  contains "time=" (strip (text line_5s)) = true
  /\ time_token (strip (text line_5s)) = Ok "00:00:05.00"
  /\ parse_ffmpeg_time_to_seconds (B := Decimal.builtins) "00:00:05.00" = Ok (Some 5%float)
  /\ PrimFloat.is_nan (PrimFloat.sub (clock line_5s) 100) = false
  /\ contains "time=" (strip (text line_banner)) = false
  /\ handle_line (B := Decimal.builtins) 1 (Py.max 20 0.01) 100 line_5s
     = Ok [sig_log 1 (strip (text line_5s)); sig_progress 1 0.25 7.5].
Proof.
  split; [vm_compute; reflexivity|]. split; [vm_compute; reflexivity|].
  split; [vm_compute; reflexivity|]. split; [vm_compute; reflexivity|].
  split; [vm_compute; reflexivity|].
  destruct (progress_sample (H := Decimal.builtins) 1 20 100 line_5s line_banner
              "00:00:05.00" 5) as (Hs & _); [vm_compute; reflexivity .. |].
  rewrite Hs. vm_compute. reflexivity.
Defined.

(** The statement of C4 fails inside the two guards.  Half a millisecond
    after the start the throughput is taken over 0.001 s, not over the
    wall-clock time, so the remaining time differs from the stated formula;
    and an expected duration of 0.004 s is replaced by 0.01 s, although it
    is positive, so the fraction differs. *)
Lemma progress_sample_counterexample :
  match handle_line (B := Decimal.builtins) 1 (Py.max 20 0.01) 100 line_early with
  | Ok [_; sig_progress _ p r] =>
      PrimFloat.eqb p (spec_progress 5 20)
      && negb (PrimFloat.eqb r (spec_remaining 5 20 (PrimFloat.sub 100.0005 100)))
  | _ => false
  end = true
  /\ match handle_line (B := Decimal.builtins) 1 (Py.max 0.004 0.01) 100 line_2ms with
     | Ok [_; sig_progress _ p r] => negb (PrimFloat.eqb p (spec_progress 0.002 0.004))
     | _ => false
     end = true.
Proof. vm_compute. done. Qed.

(** C10 as the code has it.  The fractions that a run reports are, in the
    order of the stream, the clamps [clamp(t / e, 0, 1)] of the timestamps
    [t] of the lines that it handles, with [e = max(2 * duration, 0.01)];
    none of them is below 0 or above 1.  Nothing is kept from one line to
    the next: with [e] below infinity the fractions never go back when
    the timestamps of the stream never go back, and a line whose
    timestamp has reached [e] reports exactly 1.0.  The worker leaves the
    job's own progress field at the 0 that [mark_running] wrote. *)
Theorem progress_reports `{Builtins} (w : ProcessorWorker) (env : World) (j : Job)
    (sigs : list Signal) :
  let e := Py.max (PrimFloat.mul (duration (job w)) 2) 0.01 in
  run w env = Ok (j, sigs) ->
  fractions sigs
  = (fun t => spec_clamp (PrimFloat.div t e) 0 1) <$> timestamps w env
  /\ (forall p, p ∈ fractions sigs ->
        PrimFloat.ltb p 0 = false /\ PrimFloat.ltb 1 p = false)
  /\ (PrimFloat.ltb e infinity = true ->
      (nondecreasing (timestamps w env) = true ->
       nondecreasing (fractions sigs) = true)
      /\ (forall t, t ∈ timestamps w env -> PrimFloat.leb e t = true ->
            spec_clamp (PrimFloat.div t e) 0 1 = 1%float))
  /\ progress j = 0%float.
Proof.
  intros e Hrun. pose proof (run_timestamps w env j sigs Hrun) as Hfr. fold e in Hfr.
  split; [exact Hfr|]. split; [intros p Hp; by eapply run_range|]. split.
  - intros Hfin. pose proof (expected_positive _ Hfin) as Hpos. fold e in Hpos.
    split.
    + intros Hts. rewrite Hfr. by apply nondecreasing_clamp_div.
    + intros t _ Het. by apply clamp_div_full.
  - unfold run in Hrun. destruct (popen env) as [pid|x]; simpl in Hrun.
    + destruct (read_loop w env _ _ _ 0 _) as [s|]; simpl in Hrun; [|done].
      by injection Hrun as <- _.
    + by injection Hrun as <- _.
Qed.

Lemma progress_reports_witness :
  let w := ProcessorWorker_init job_queued in
  let env := world [line_banner; line_3s; line_5s; line_25s] None (exited 0) in
  let e := Py.max (PrimFloat.mul (duration (job w)) 2) 0.01 in
  exists j sigs,
    run (B := Decimal.builtins) w env = Ok (j, sigs)
    /\ timestamps (H := Decimal.builtins) w env = [3; 5; 25]%float
    /\ PrimFloat.ltb e infinity = true
    /\ nondecreasing (timestamps (H := Decimal.builtins) w env) = true
    /\ PrimFloat.leb e 25 = true
    /\ fractions sigs = [0.15; 0.25; 1]%float
    /\ nondecreasing (fractions sigs) = true
    /\ spec_clamp (PrimFloat.div 25 e) 0 1 = 1%float.
Proof.
  intros w env e.
  destruct (run_ok (B := Decimal.builtins) w env) as (j & sigs & Hrun).
  assert (timestamps (H := Decimal.builtins) w env = [3; 5; 25]%float) as Hts
    by (vm_compute; reflexivity).
  assert (PrimFloat.ltb e infinity = true) as Hfin by (vm_compute; reflexivity).
  assert (nondecreasing (timestamps (H := Decimal.builtins) w env) = true) as Hnd
    by (vm_compute; reflexivity).
  assert (PrimFloat.leb e 25 = true) as Hle by (vm_compute; reflexivity).
  assert (25%float ∈ timestamps (H := Decimal.builtins) w env) as Hin
    by (rewrite Hts; do 2 apply list_elem_of_further; apply list_elem_of_here).
  destruct (progress_reports (H := Decimal.builtins) w env j sigs Hrun)
    as (Hfr & _ & Hmono & _).
  destruct (Hmono Hfin) as [Hm H1].
  exists j, sigs. split; [exact Hrun|]. split; [exact Hts|]. split; [exact Hfin|].
  split; [exact Hnd|]. split; [exact Hle|]. split.
  - rewrite Hfr, Hts. vm_compute. reflexivity.
  - split; [exact (Hm Hnd) | exact (H1 25%float Hin Hle)].
Defined.

(** The statement of C10 fails: the fractions follow the timestamps of the
    stream, here 5 s and then 3 s of an expected 20 s, so the second one is
    the smaller; and the run ends in success, republished as "Completed",
    though no fraction it reported is 1.0. *)
Lemma progress_reports_counterexample :
  let w := ProcessorWorker_init job_queued in
  let env := world [line_5s; line_3s] None (exited 0) in
  let m := after [AddJob job_queued] (JobManager_init 1) in
  match fractions (signals (H := Decimal.builtins) w env) with
  | [p1; p2] =>
      PrimFloat.ltb p2 p1 && PrimFloat.ltb p1 0.5 && PrimFloat.ltb p2 0.5
  | _ => false
  end = true
  /\ finished_events (signals (H := Decimal.builtins) w env) = [(1, true, "OK")]
  /\ status_texts (_on_finished 1 true "OK" m).2 = ["Completed"].
Proof. vm_compute. done. Qed.

(* ================================================================== *)
(** * The model on concrete inputs *)

Example decimal_float_5 : Decimal.float_ "05.00" = Ok 5%float.
Proof. vm_compute. reflexivity. Qed.
Example decimal_float_tenth : Decimal.float_ "0.1" = Ok 0.1%float.
Proof. vm_compute. reflexivity. Qed.
Example decimal_float_1998 : Decimal.float_ "19.98" = Ok 19.98%float.
Proof. vm_compute. reflexivity. Qed.
Example decimal_float_neg : Decimal.float_ "-0.25" = Ok (-0.25)%float.
Proof. vm_compute. reflexivity. Qed.
Example decimal_float_pi : Decimal.float_ "3.141592653589793238" = Ok 3.141592653589793238%float.
Proof. vm_compute. reflexivity. Qed.
Example decimal_int_12 : Decimal.int " -012" = Ok (-12).
Proof. vm_compute. reflexivity. Qed.
Example parse_5s :
  parse_ffmpeg_time_to_seconds (B := Decimal.builtins) "00:00:05.00" = Ok (Some 5%float).
Proof. vm_compute. reflexivity. Qed.
Example parse_big :
  parse_ffmpeg_time_to_seconds (B := Decimal.builtins) "01:02:03.5" = Ok (Some 3723.5%float).
Proof. vm_compute. reflexivity. Qed.
Example parse_na :
  parse_ffmpeg_time_to_seconds (B := Decimal.builtins) "N/A" = Ok None.
Proof. vm_compute. reflexivity. Qed.

(** Limit 2, jobs 1, 2, 3 submitted: 1 and 2 start at once and 3 waits;
    3 starts when 1 finishes; "queue finished" comes once, when 2 and 3
    have finished. *)
Example three_jobs_two_slots :
  let m0 := JobManager_init 2 in
  let submit := [AddJob job_a; AddJob job_b; AddJob job_c] in
  started (calls submit m0).2 = [job_a; job_b]
  /\ pending (after submit m0) = [job_c]
  /\ started (call (OnFinished 1 true "OK") (after submit m0)).2 = [job_c]
  /\ count_queue_finished
       (calls (submit ++ [OnFinished 1 true "OK"; OnFinished 2 true "OK";
                          OnFinished 3 true "OK"]) m0).2 = 1%nat.
Proof. vm_compute. done. Qed.

(** A paused queue leaves the running job alone and starts nothing until
    it is resumed. *)
Example paused_queue_holds_back :
  let m0 := JobManager_init 2 in
  started (calls [AddJob job_a; PauseQueue; AddJob job_b] m0).2 = [job_a]
  /\ pending (after [AddJob job_a; PauseQueue; AddJob job_b] m0) = [job_b]
  /\ started (calls [AddJob job_a; PauseQueue; AddJob job_b; ResumeQueue] m0).2
     = [job_a; job_b].
Proof. vm_compute. done. Qed.

(** The token is what follows the last ["time="] up to the next white space. *)
Example time_token_5s : time_token (strip (text line_5s)) = Ok "00:00:05.00".
Proof. vm_compute. reflexivity. Qed.

Example split_colons : split ":" "01:02:03.5" = ["01"; "02"; "03.5"].
Proof. vm_compute. reflexivity. Qed.

Example str_int_negative : str_int (-1) = "-1" /\ str_int 0 = "0" /\ str_int 137 = "137".
Proof. vm_compute. done. Qed.

Example fmt_tests :
  FfmpegCommand.format_3f 2.5 = "2.500" /\ FfmpegCommand.format_3f 0.0005 = "0.001"
  /\ FfmpegCommand.format_3f 1.0005 = "1.000" /\ FfmpegCommand.format_3f 0.1 = "0.100"
  /\ FfmpegCommand.format_3f 1234.5678 = "1234.568" /\ FfmpegCommand.format_3f 0.0625 = "0.062"
  /\ FfmpegCommand.format_3f 0.9996 = "1.000" /\ FfmpegCommand.format_3f 295 = "295.000".
Proof. vm_compute. repeat split. Qed.
(* ================================================================== *)
(** * Further properties of the scheduler *)

Section SchedulerMore.

Implicit Types (m : JobManager) (act : gmap Z ProcessorWorker)
  (pend : list Job) (cs : list Call) (live : list Z).

Lemma maybe_dispatch_paused m : _paused m = true -> _maybe_dispatch m = (m, []).
Proof. intros Hp. unfold _maybe_dispatch. by rewrite Hp. Qed.

Lemma maybe_dispatch_paused_flag m : _paused (_maybe_dispatch m).1 = _paused m.
Proof.
  unfold _maybe_dispatch. destruct (_paused m) eqn:Hp; [done|].
  by destruct (dispatch_loop _ _ _) as [[p a] e].
Qed.

(** When the loop stops, nothing waits or the mapping is full. *)
Lemma dispatch_loop_full limit pend act :
  (dispatch_loop limit pend act).1.1 = []
  \/ limit <= Z.of_nat (size (dispatch_loop limit pend act).1.2).
Proof.
  revert act. induction pend as [|j rest IH]; intros act; simpl; [by left|].
  destruct (Z.ltb_spec (Z.of_nat (size act)) limit); simpl; [|by right].
  specialize (IH (<[id j := ProcessorWorker_init j]> act)).
  by destruct (dispatch_loop limit rest _) as [[p a] e].
Qed.

Lemma maybe_dispatch_no_idle_slot m : no_idle_slot (_maybe_dispatch m).1.
Proof.
  intros Hp. rewrite maybe_dispatch_paused_flag in Hp.
  rewrite maybe_dispatch_limit. unfold _maybe_dispatch. rewrite Hp.
  pose proof (dispatch_loop_full (max_workers m) (pending m) (active m)) as H.
  by destruct (dispatch_loop _ _ _) as [[p a] e].
Qed.

Lemma call_no_idle_slot c m : no_idle_slot m -> no_idle_slot (call c m).1.
Proof.
  intros Hm. destruct c; simpl; try done;
    try apply maybe_dispatch_no_idle_slot.
  - (* cancel_job *) intros Hp. simpl in *. rewrite size_alter. by apply Hm.
  - (* pause_job *) intros Hp. simpl in *. rewrite size_alter. by apply Hm.
  - (* resume_job *) intros Hp. simpl in *. rewrite size_alter. by apply Hm.
  - (* _on_finished *) rewrite on_finished_fst. apply maybe_dispatch_no_idle_slot.
Qed.

Lemma calls_no_idle_slot cs m : no_idle_slot m -> no_idle_slot (after cs m).
Proof.
  revert m. induction cs as [|c cs IH]; intros m Hm; [done|].
  rewrite after_cons. by apply IH, call_no_idle_slot.
Qed.

Lemma call_limit c m :
  max_workers (call c m).1 =
  match c with
  | SetConcurrency k => zmax 1 k
  | _ => max_workers m
  end.
Proof.
  destruct c; cbn [call]; try done;
    unfold set_concurrency, add_job, resume_queue;
    by rewrite ?on_finished_fst, maybe_dispatch_limit.
Qed.

Lemma calls_limit_positive cs m : 1 <= max_workers m -> 1 <= max_workers (after cs m).
Proof.
  revert m. induction cs as [|c cs IH]; intros m Hm; [done|].
  rewrite after_cons. apply IH. rewrite call_limit.
  destruct c; try done. rewrite zmax_spec. lia.
Qed.

End SchedulerMore.

(** X1.  The concurrency limit is at least 1 after every history, whatever
    limit the manager was created with and whatever limits were requested. *)
Theorem limit_never_below_one (n : Z) (cs : list Call) :
  1 <= max_workers (after cs (JobManager_init n)).
Proof. apply calls_limit_positive. simpl. rewrite zmax_spec. lia. Qed.

(** X2.  After every history, a job waits in a queue that is not paused only
    while the active mapping is full, and then at least one worker is
    registered: no job is left waiting beside a free slot. *)
Theorem waiting_only_when_full (n : Z) (cs : list Call) :
  let m := after cs (JobManager_init n) in
  _paused m = false ->
  pending m <> [] ->
  max_workers m <= Z.of_nat (size (active m)) /\ active m <> ∅.
Proof.
  intros m Hp Hpend.
  assert (no_idle_slot m) as Hm.
  { apply calls_no_idle_slot. intros _. by left. }
  destruct (Hm Hp) as [?|Hfull]; [done|]. split; [done|].
  pose proof (limit_positive_aux := calls_limit_positive cs (JobManager_init n)).
  intros Hempty. rewrite Hempty, map_size_empty in Hfull.
  assert (1 <= max_workers m); [|lia].
  apply limit_positive_aux. simpl. rewrite zmax_spec. lia.
Qed.

Lemma waiting_only_when_full_witness :
  let m := after [AddJob job_a; AddJob job_b; AddJob job_c] (JobManager_init 2) in
  _paused m = false
  /\ pending m <> []
  /\ max_workers m <= Z.of_nat (size (active m))
  /\ active m <> ∅.
Proof.
  intros m. split; [reflexivity|]. split; [by vm_compute|].
  apply (waiting_only_when_full 2 [AddJob job_a; AddJob job_b; AddJob job_c]);
    [reflexivity | by vm_compute].
Defined.
Section QueueControl.

Implicit Types (m : JobManager) (act : gmap Z ProcessorWorker)
  (pend : list Job) (cs : list Call).

(** One call on a paused manager, other than the resume of the queue. *)
Lemma call_paused c m :
  _paused m = true ->
  is_resume_queue c = false ->
  started (call c m).2 = []
  /\ pending (call c m).1 = pending m ++ submitted [c]
  /\ _paused (call c m).1 = true
  /\ dom (active (call c m).1) ⊆ dom (active m).
Proof.
  intros Hp Hc.
  destruct c; simpl in *; try done;
    unfold set_concurrency, add_job, _on_finished;
    rewrite ?maybe_dispatch_paused by done; simpl;
    rewrite ?app_nil_r, ?dom_alter_L; try done.
  - (* _on_finished *)
    split; [by destruct (drained _)|]. split; [done|]. split; [done|].
    rewrite dom_delete_L. intros k Hk. by apply elem_of_difference in Hk as [? _].
Qed.

Lemma calls_paused cs m :
  _paused m = true ->
  forallb (fun c => negb (is_resume_queue c)) cs = true ->
  started (calls cs m).2 = []
  /\ pending (after cs m) = pending m ++ submitted cs
  /\ _paused (after cs m) = true
  /\ dom (active (after cs m)) ⊆ dom (active m).
Proof.
  revert m. induction cs as [|c cs IH]; intros m Hp Hcs.
  - unfold after. simpl. by rewrite app_nil_r.
  - simpl in Hcs. apply andb_true_iff in Hcs as [Hc Hcs].
    apply negb_true_iff in Hc.
    destruct (call_paused c m Hp Hc) as (Hs & Hpend & Hp1 & Hdom).
    destruct (IH (call c m).1 Hp1 Hcs) as (Hs' & Hpend' & Hp' & Hdom').
    rewrite after_cons, calls_snd_cons, started_app, Hs, Hs', submitted_cons.
    rewrite Hpend', Hpend, <- app_assoc. split; [done|]. split; [done|].
    split; [done|]. by etrans.
Qed.

(** A worker that is not registered: the three per-job commands change
    nothing. *)
Lemma on_active_unknown (f : ProcessorWorker -> ProcessorWorker) (i : Z) m :
  active m !! i = None -> on_active f i m = (m, []).
Proof.
  intros Hi. unfold on_active. destruct m as [lim pend act paused]; simpl in *.
  do 2 f_equal. apply alter_id. intros w Hw. congruence.
Qed.




End QueueControl.

(** X3.  While the queue is paused, no history without a resume of the
    queue starts a job: every submission just joins the pending sequence,
    in order, the queue stays paused, and no id enters the active
    mapping. *)
Theorem paused_queue_starts_nothing (m : JobManager) (cs : list Call) :
  _paused m = true ->
  forallb (fun c => negb (is_resume_queue c)) cs = true ->
  started (calls cs m).2 = []
  /\ pending (after cs m) = pending m ++ submitted cs
  /\ _paused (after cs m) = true
  /\ dom (active (after cs m)) ⊆ dom (active m).
Proof. apply calls_paused. Qed.

Lemma paused_queue_starts_nothing_witness :
  let m := after [AddJob job_a; PauseQueue] (JobManager_init 3) in
  let cs := [AddJob job_b; SetConcurrency 5; OnFinished 1 true "OK"; AddJob job_c] in
  _paused m = true
  /\ forallb (fun c => negb (is_resume_queue c)) cs = true
  /\ started (calls cs m).2 = []
  /\ pending (after cs m) = pending m ++ submitted cs.
Proof.
  intros m cs. split; [reflexivity|]. split; [reflexivity|].
  destruct (paused_queue_starts_nothing m cs) as (H1 & H2 & _); [reflexivity ..|].
  by split.
Defined.

(** X4.  For an id with no registered worker, [cancel_job], [pause_job] and
    [resume_job] change nothing and emit nothing.  In particular a cancel
    does not reach a job that only waits: it stays at the head of the
    pending sequence and the next dispatch starts it with its stop flag
    unset. *)
Theorem unknown_id_commands_do_nothing (m : JobManager) (i : Z) (j : Job)
    (rest : list Job) :
  active m !! i = None ->
  (cancel_job i m = (m, []) /\ pause_job i m = (m, []) /\ resume_job i m = (m, []))
  /\ (i = id j -> pending m = j :: rest -> _paused m = false ->
      Z.of_nat (size (active m)) < max_workers m ->
      exists effs,
        (_maybe_dispatch (cancel_job i m).1).2
        = pool_start (ProcessorWorker_init j) :: effs
        /\ _stop_event (ProcessorWorker_init j) = false).
Proof.
  intros Hi. split.
  - unfold cancel_job, pause_job, resume_job. by rewrite !on_active_unknown.
  - intros -> Hpend Hp Hroom. unfold cancel_job. rewrite on_active_unknown by done.
    destruct (maybe_dispatch_head m j rest Hp Hroom Hpend) as (effs & He & _).
    by exists effs.
Qed.

Lemma unknown_id_commands_do_nothing_witness :
  let m := after [AddJob job_a; AddJob job_b] (JobManager_init 1) in
  active m !! 2 = None
  /\ cancel_job 2 m = (m, [])
  /\ pending (cancel_job 2 m).1 = [job_b].
Proof.
  intros m.
  assert (active m !! 2 = None) as Hi by (by vm_compute).
  split; [done|].
  destruct (unknown_id_commands_do_nothing m 2 job_b [] Hi) as ((Hc & _) & _).
  split; [done|]. by rewrite Hc.
Defined.




(** X7.  Changing the limit never unregisters a worker; and a limit at or
    below the number of registered workers starts nothing and leaves the
    pending sequence and the active mapping as they were. *)
Theorem set_concurrency_does_not_preempt (k : Z) (m : JobManager) (i : Z) :
  is_Some (active m !! i) ->
  is_Some (active (set_concurrency k m).1 !! i)
  /\ (Z.max 1 k <= Z.of_nat (size (active m)) ->
      (set_concurrency k m).2 = []
      /\ pending (set_concurrency k m).1 = pending m
      /\ active (set_concurrency k m).1 = active m).
Proof.
  intros Hi. unfold set_concurrency, _maybe_dispatch. simpl. split.
  - destruct (_paused m); [done|].
    pose proof (dispatch_loop_keeps (zmax 1 k) (pending m) (active m) i Hi) as H.
    by destruct (dispatch_loop _ _ _) as [[p a] e].
  - intros Hfull. destruct (_paused m); [done|].
    destruct (pending m) as [|j rest]; simpl; [done|].
    rewrite zmax_spec. destruct (Z.ltb_spec (Z.of_nat (size (active m))) (Z.max 1 k));
      [lia | done].
Qed.

Lemma set_concurrency_does_not_preempt_witness :
  let m := after [AddJob job_a; AddJob job_b; AddJob job_c] (JobManager_init 2) in
  is_Some (active m !! 2)
  /\ is_Some (active (set_concurrency 1 m).1 !! 2)
  /\ Z.max 1 1 <= Z.of_nat (size (active m))
  /\ pending (set_concurrency 1 m).1 = pending m.
Proof.
  intros m.
  assert (is_Some (active m !! 2)) as Hi by (eexists; vm_compute; reflexivity).
  assert (Z.max 1 1 <= Z.of_nat (size (active m))) as Hfull by (by vm_compute).
  destruct (set_concurrency_does_not_preempt 1 m 2 Hi) as (H1 & H2).
  destruct (H2 Hfull) as (_ & Hp & _). done.
Defined.

(** X8.  In a history where slots run for live workers only and no job id
    is submitted while a job of that id is pending or running, with the
    limit held at [n], the workers started and not yet finished are never
    more than [n]. *)
Theorem live_workers_within_limit (n : Z) (cs : list Call) :
  1 <= n ->
  forallb (keeps_limit n) cs = true ->
  feasible (JobManager_init n) [] cs = true ->
  Z.of_nat (length (track (JobManager_init n) [] cs).2) <= n.
Proof.
  intros Hn Hk Hf.
  assert (registered (JobManager_init n) []) as Hreg0.
  { split; [constructor | by intros k ?%elem_of_nil]. }
  pose proof (track_registered cs _ _ Hreg0 Hf) as Hreg.
  apply registered_bound in Hreg. rewrite track_fst in Hreg.
  assert (within_limit n (after cs (JobManager_init n))) as [_ Hsz].
  { apply calls_within_limit; [done|]. split; simpl.
    - rewrite zmax_spec. lia.
    - rewrite map_size_empty. lia. }
  lia.
Qed.

Lemma live_workers_within_limit_witness :
  let cs := [AddJob job_a; AddJob job_b; AddJob job_c; OnFinished 2 true "OK"] in
  1 <= 2
  /\ forallb (keeps_limit 2) cs = true
  /\ feasible (JobManager_init 2) [] cs = true
  /\ Z.of_nat (length (track (JobManager_init 2) [] cs).2) <= 2.
Proof.
  intros cs. split; [lia|]. split; [reflexivity|]. split; [by vm_compute|].
  apply (live_workers_within_limit 2 cs); [lia | reflexivity | by vm_compute].
Defined.
(* ================================================================== *)
(** * Further properties of the worker and of the parser *)

Section WorkerMore.
Context {B : Builtins}.

(** What a sample is made of. *)
Lemma sample_shape job_id duration start_time now t sigs :
  sample job_id duration start_time now t = Ok sigs ->
  exists p r, sigs = [sig_progress job_id p r].
Proof.
  unfold sample. destruct (truediv t duration) as [q|]; simpl; [|done].
  destruct (if PrimFloat.ltb 0 _ then _ else _) as [speed|]; simpl; [|done].
  destruct (truediv _ _) as [rem|]; simpl; [|done].
  intros [= <-]. by eexists _, _.
Qed.

(** What the handling of one line emits. *)
Lemma handle_line_shape job_id duration start_time (l : StderrLine) :
  (strip (text l) = "" /\ handle_line job_id duration start_time l = Ok [])
  \/ (strip (text l) <> ""
      /\ (handle_line job_id duration start_time l
          = Ok [sig_log job_id (strip (text l))]
          \/ exists p r,
              handle_line job_id duration start_time l
              = Ok [sig_log job_id (strip (text l)); sig_progress job_id p r])).
Proof.
  unfold handle_line. destruct (String.eqb_spec (strip (text l)) "") as [He|Hne];
    [by left|]. right. split; [done|].
  destruct (contains _ _); [|by left].
  destruct (progress_body _ _ _ _ _) as [sigs|e] eqn:E; simpl; [|by left].
  unfold progress_body in E.
  destruct (time_token _) as [token|]; simpl in E; [|done].
  rewrite parse_of_body in E. destruct (parse_body token) as [t|]; simpl in E.
  - apply sample_shape in E as (p & r & ->). right. by exists p, r.
  - injection E as <-. by left.
Qed.

Lemma handle_line_signals job_id duration start_time (l : StderrLine) sigs :
  handle_line job_id duration start_time l = Ok sigs ->
  Forall (fun s => (is_log s || is_progress s) = true /\ signal_id s = job_id) sigs.
Proof.
  intros Hs.
  destruct (handle_line_shape job_id duration start_time l)
    as [[_ H0] | [_ [H1 | (p & r & H2)]]]; rewrite Hs in *; simplify_eq;
    repeat constructor.
Qed.

Lemma read_loop_signals w env job_id duration start_time i lines sigs :
  read_loop w env job_id duration start_time i lines = Ok sigs ->
  Forall (fun s => (is_log s || is_progress s) = true /\ signal_id s = job_id) sigs.
Proof.
  revert i sigs. induction lines as [|l rest IH]; intros i sigs; simpl.
  - intros [= <-]. constructor.
  - destruct (stop_seen w env i); [intros [= <-]; constructor|].
    destruct (handle_line _ _ _ l) as [s1|] eqn:E1; simpl; [|done].
    destruct (read_loop _ _ _ _ _ (S i) rest) as [s2|] eqn:E2; simpl; [|done].
    intros [= <-]. apply Forall_app. split; [by eapply handle_line_signals | by eapply IH].
Qed.


End WorkerMore.

(** X9.  Every run emits its signals in one order, with or without a
    hazard on its way: first the status "Running"; then, only if the
    process was launched, the started event with the pid (-1 for a pid of
    0) followed by log and progress events.  A run that returns ends with
    exactly one finished event, its last signal.  A run in which a read of
    the stream raises, or a pause is never lifted, had its process
    launched and emits no finished event.  Every signal carries the id of
    the worker's job. *)
Theorem run_signal_order `{Builtins} (hz : option Hazard) (w : ProcessorWorker)
    (env : World) :
  exists o loop,
    run_under hz w env = Ok o
    /\ Forall (fun s => (is_log s || is_progress s) = true
                        /\ signal_id s = id (job w)) loop
    /\ match o with
       | returns j sigs =>
           exists fin,
             run w env = Ok (j, sigs)
             /\ sigs = [sig_status (id (job w)) "Running"]
                       ++ match popen env with
                          | Ok pid =>
                              sig_started (id (job w)) (if pid =? 0 then -1 else pid)
                              :: loop
                          | Raise _ => []
                          end
                       ++ [fin]
             /\ is_finished fin = true
             /\ signal_id fin = id (job w)
       | propagates _ _ sigs | sleeps _ sigs =>
           exists h pid,
             hz = Some h /\ meets w env h = true /\ popen env = Ok pid
             /\ sigs = [sig_status (id (job w)) "Running";
                        sig_started (id (job w)) (if pid =? 0 then -1 else pid)]
                       ++ loop
       end.
Proof.
  assert (exists j loop fin,
    run w env
    = Ok (j, [sig_status (id (job w)) "Running"]
             ++ match popen env with
                | Ok pid => sig_started (id (job w)) (if pid =? 0 then -1 else pid) :: loop
                | Raise _ => []
                end
             ++ [fin])
    /\ is_finished fin = true
    /\ signal_id fin = id (job w)
    /\ Forall (fun s => (is_log s || is_progress s) = true
                        /\ signal_id s = id (job w)) loop)
    as (j & loop & fin & Hrun & Hfin & Hid & Hloop).
  { unfold run. destruct (popen env) as [pid|e].
    - destruct (read_loop_ok w env (id (job w))
                  (Py.max (PrimFloat.mul (duration (job w)) 2) 0.01)
                  (clock_start env) 0 (stderr env)) as [sigs Hs].
      pose proof (read_loop_signals _ _ _ _ _ _ _ _ Hs) as Hall.
      simpl in *. rewrite Hs. simpl.
      eexists _, sigs, _. split; [reflexivity|].
      unfold finish. by destruct (stopped w env).
    - eexists _, [], _. split; [reflexivity|]. by repeat split. }
  assert (exists o loop,
    ('(j, sigs) ← run w env; mret (returns j sigs)) = Ok o
    /\ Forall (fun s => (is_log s || is_progress s) = true
                        /\ signal_id s = id (job w)) loop
    /\ match o with
       | returns j sigs =>
           exists fin,
             run w env = Ok (j, sigs)
             /\ sigs = [sig_status (id (job w)) "Running"]
                       ++ match popen env with
                          | Ok pid =>
                              sig_started (id (job w)) (if pid =? 0 then -1 else pid)
                              :: loop
                          | Raise _ => []
                          end
                       ++ [fin]
             /\ is_finished fin = true
             /\ signal_id fin = id (job w)
       | propagates _ _ sigs | sleeps _ sigs =>
           exists h pid,
             hz = Some h /\ meets w env h = true /\ popen env = Ok pid
             /\ sigs = [sig_status (id (job w)) "Running";
                        sig_started (id (job w)) (if pid =? 0 then -1 else pid)]
                       ++ loop
       end) as Hret.
  { rewrite Hrun. eexists _, loop. split; [reflexivity|]. split; [done|].
    by exists fin. }
  clear Hrun. unfold run_under.
  destruct hz as [h|]; [|exact Hret].
  revert Hret. destruct (popen env) as [pid|e] eqn:Hp; intros Hret; [|exact Hret].
  destruct (meets w env h) eqn:Hm; [|exact Hret].
  destruct (read_loop_ok w env (id (job w))
              (Py.max (PrimFloat.mul (duration (job w)) 2) 0.01)
              (clock_start env) 0 (take (position h) (stderr env))) as [pre Hpre].
  pose proof (read_loop_signals _ _ _ _ _ _ _ _ Hpre) as Hall.
  simpl in *. rewrite Hpre. simpl.
  eexists _, pre. split; [reflexivity|]. split; [done|].
  destruct h; by eexists _, pid.
Qed.

(** X10.  One line of the stream emits nothing if it is blank after
    stripping; otherwise it emits the log event of the stripped line first
    and at most one progress event after it, both for the worker's job. *)
Theorem line_is_logged_before_sampled `{Builtins} (job_id : Z)
    (duration start_time : float) (l : StderrLine) :
  (strip (text l) = "" /\ handle_line job_id duration start_time l = Ok [])
  \/ (strip (text l) <> ""
      /\ (handle_line job_id duration start_time l
          = Ok [sig_log job_id (strip (text l))]
          \/ exists p r,
              handle_line job_id duration start_time l
              = Ok [sig_log job_id (strip (text l)); sig_progress job_id p r])).
Proof. apply handle_line_shape. Qed.



(** X12.  [parse_ffmpeg_time_to_seconds] returns a time only for a text
    with exactly three colon-separated fields of which [int] accepts the
    first two and [float] the third, and the time is then
    [h * 3600 + m * 60] converted to a float plus the seconds. *)
Theorem parse_success_fields `{Builtins} (value : string) (t : float) :
  parse_ffmpeg_time_to_seconds value = Ok (Some t) ->
  exists hh mm ss h m s whole,
    split ":" value = [hh; mm; ss]
    /\ int hh = Ok h /\ int mm = Ok m /\ float_ ss = Ok s
    /\ float_of_int (h * 3600 + m * 60) = Ok whole
    /\ t = PrimFloat.add whole s.
Proof.
  rewrite parse_of_body. destruct (parse_body value) as [t'|e] eqn:E; [|done].
  intros [= ->]. unfold parse_body in E.
  destruct (split ":" value) as [|hh [|mm [|ss [|x rest]]]]; simpl in E; try done.
  destruct (int hh) as [h|] eqn:Eh; simpl in E; [|done].
  destruct (int mm) as [m|] eqn:Em; simpl in E; [|done].
  destruct (float_ ss) as [s|] eqn:Es; simpl in E; [|done].
  destruct (float_of_int (h * 3600 + m * 60)) as [whole|] eqn:Ew; simpl in E; [|done].
  injection E as <-. by exists hh, mm, ss, h, m, s, whole.
Qed.

Lemma parse_success_fields_witness :
  parse_ffmpeg_time_to_seconds (B := Decimal.builtins) "01:02:03.5" = Ok (Some 3723.5%float)
  /\ exists hh mm ss h m s whole,
      split ":" "01:02:03.5" = [hh; mm; ss]
      /\ int (Builtins := Decimal.builtins) hh = Ok h
      /\ int (Builtins := Decimal.builtins) mm = Ok m
      /\ float_ (Builtins := Decimal.builtins) ss = Ok s
      /\ float_of_int (h * 3600 + m * 60) = Ok whole
      /\ 3723.5%float = PrimFloat.add whole s.
Proof.
  assert (parse_ffmpeg_time_to_seconds (B := Decimal.builtins) "01:02:03.5"
          = Ok (Some 3723.5%float)) as Hp by (by vm_compute).
  split; [done|].
  exact (parse_success_fields (H := Decimal.builtins) "01:02:03.5" 3723.5 Hp).
Defined.
(* ================================================================== *)
(** * Properties of the command builder and of the executable lookup *)

Section Command.
Import FfmpegCommand.

Lemma truthy_nonempty x p : truthy x = Some p -> p <> "".
Proof.
  unfold truthy. destruct x as [q|]; [|done].
  destruct (String.eqb_spec q ""); [done|]. by intros [= <-].
Qed.

Lemma search_places_nonempty h exe places p :
  search_places h exe places = Ok (Some p) -> p <> "".
Proof.
  induction places as [|rel rest IH]; cbn [search_places]; [done|].
  destruct (_normalize_exe h (Some (joinpath h (executable_parent h) rel)) exe)
    as [q|]; simpl; [|done].
  destruct (truthy q) as [q'|] eqn:E; [|exact IH].
  intros [= <-]. by eapply truthy_nonempty.
Qed.




Lemma filters_nonempty o :
  (FfmpegCommand.has_video o || FfmpegCommand.has_audio o) = true -> filters o <> [].
Proof.
  unfold filters.
  by destruct (FfmpegCommand.has_video o), (FfmpegCommand.has_audio o).
Qed.

Lemma preview_args_off o : preview_args (without_preview o) = Ok [].
Proof. done. Qed.

Lemma build_ok h input_path output_path o cmd :
  build_slowdown_command h input_path output_path o = Ok cmd ->
  (FfmpegCommand.has_video o || FfmpegCommand.has_audio o) = true
  /\ exists ffmpeg seek,
      which_ffmpeg h = Ok ffmpeg /\ preview_args o = Ok seek
      /\ cmd = [ffmpeg; "-y"; "-hide_banner"; "-i"; input_path]
               ++ seek
               ++ ["-filter_complex"; join ";" (filters o)]
               ++ maps o ++ codec_args o ++ [output_path].
Proof.
  unfold build_slowdown_command.
  destruct (FfmpegCommand.has_video o || FfmpegCommand.has_audio o) eqn:Hs;
    simpl; [|done].
  destruct (which_ffmpeg h) as [ffmpeg|]; simpl; [|done].
  destruct (preview_args o) as [seek|]; simpl; [|done].
  intros [= <-]. split; [done|]. exists ffmpeg, seek. do 2 (split; [done|]).
  pose proof (filters_nonempty o Hs). by destruct (filters o).
Qed.

End Command.

(** X13.  A path returned by [which_ffmpeg] or [which_ffprobe] is never
    the empty text, whichever of the three places it comes from. *)
Theorem located_executable_is_nonempty (h : FfmpegCommand.Host) (p : string) :
  FfmpegCommand.which_ffmpeg h = Ok p \/ FfmpegCommand.which_ffprobe h = Ok p ->
  p <> "".
Proof.
  unfold FfmpegCommand.which_ffmpeg, FfmpegCommand.which_ffprobe.
  generalize FfmpegCommand.relative_places as places. intros places.
  intros [Hp|Hp];
    (destruct (FfmpegCommand._normalize_exe _ _ _) as [c|]; simpl in Hp; [|done];
     destruct (FfmpegCommand.truthy c) as [c'|] eqn:E1;
     [injection Hp as <-; by eapply truthy_nonempty|];
     destruct (FfmpegCommand.truthy (FfmpegCommand.shutil_which _ _)) as [f|] eqn:E2;
     [injection Hp as <-; by eapply truthy_nonempty|];
     destruct (FfmpegCommand.search_places _ _ _) as [q|] eqn:E3; simpl in Hp; [|done];
     destruct q as [q|]; [|done];
     injection Hp as <-; by eapply search_places_nonempty).
Qed.

Lemma located_executable_is_nonempty_witness :
  FfmpegCommand.which_ffmpeg FfmpegCommand.host_with_path = Ok "/usr/bin/ffmpeg"
  /\ "/usr/bin/ffmpeg" <> "".
Proof.
  assert (FfmpegCommand.which_ffmpeg FfmpegCommand.host_with_path = Ok "/usr/bin/ffmpeg")
    as Hp by reflexivity.
  split; [done|].
  exact (located_executable_is_nonempty FfmpegCommand.host_with_path _ (or_introl Hp)).
Defined.

(** X14.  Every command that [build_slowdown_command] returns is for an
    input with a video or an audio stream, starts with the located ffmpeg,
    [-y -hide_banner -i] and the input, always carries [-filter_complex]
    with a non-empty filter graph (the guard on the filter list never
    skips it), and ends with the output path. *)
Theorem command_frame (h : FfmpegCommand.Host) (input_path output_path : string)
    (o : FfmpegCommand.Options) (cmd : list string) :
  FfmpegCommand.build_slowdown_command h input_path output_path o = Ok cmd ->
  (FfmpegCommand.has_video o || FfmpegCommand.has_audio o) = true
  /\ FfmpegCommand.filters o <> []
  /\ exists ffmpeg seek,
      FfmpegCommand.which_ffmpeg h = Ok ffmpeg
      /\ FfmpegCommand.preview_args o = Ok seek
      /\ cmd = [ffmpeg; "-y"; "-hide_banner"; "-i"; input_path]
               ++ seek
               ++ ["-filter_complex"; FfmpegCommand.join ";" (FfmpegCommand.filters o)]
               ++ FfmpegCommand.maps o ++ FfmpegCommand.codec_args o
               ++ [output_path].
Proof.
  intros Hc. apply build_ok in Hc as (Hs & Hrest).
  split; [done|]. split; [by apply filters_nonempty | done].
Qed.

Lemma command_frame_witness :
  let o := FfmpegCommand.default_options 120 true true false in
  exists cmd,
    FfmpegCommand.build_slowdown_command FfmpegCommand.host_with_path "in.mp4" "out.mp4" o
    = Ok cmd
    /\ cmd = ["/usr/bin/ffmpeg"; "-y"; "-hide_banner"; "-i"; "in.mp4";
              "-filter_complex"; "[0:v]setpts=2*PTS[v];[0:a]atempo=0.5[a]";
              "-map"; "[v]"; "-map"; "[a]"; "-map"; "0:s?";
              "-c:v"; "libx264"; "-preset"; "slow"; "-crf"; "18";
              "-c:a"; "aac"; "-b:a"; "192k"; "-c:s"; "copy";
              "-map_metadata"; "0"; "-map_chapters"; "0";
              "-movflags"; "+faststart"; "out.mp4"]
    /\ FfmpegCommand.filters o <> [].
Proof.
  intros o. eexists. split; [by vm_compute|]. split; [reflexivity|].
  assert (FfmpegCommand.build_slowdown_command FfmpegCommand.host_with_path
            "in.mp4" "out.mp4" o
          = Ok ["/usr/bin/ffmpeg"; "-y"; "-hide_banner"; "-i"; "in.mp4";
              "-filter_complex"; "[0:v]setpts=2*PTS[v];[0:a]atempo=0.5[a]";
              "-map"; "[v]"; "-map"; "[a]"; "-map"; "0:s?";
              "-c:v"; "libx264"; "-preset"; "slow"; "-crf"; "18";
              "-c:a"; "aac"; "-b:a"; "192k"; "-c:s"; "copy";
              "-map_metadata"; "0"; "-map_chapters"; "0";
              "-movflags"; "+faststart"; "out.mp4"]) as Hc by (by vm_compute).
  exact (proj1 (proj2 (command_frame _ _ _ _ _ Hc))).
Defined.

(** X15.  The preview changes nothing but a seek: a command built with any
    preview setting is the command built with the preview switched off,
    with the four words [-ss <start> -t <seconds>] inserted right after
    the input when the preview is on, the duration is above zero and the
    window is positive, and with nothing inserted otherwise. *)
Theorem preview_only_inserts_a_seek (h : FfmpegCommand.Host)
    (input_path output_path : string) (o : FfmpegCommand.Options) (cmd : list string) :
  FfmpegCommand.build_slowdown_command h input_path output_path o = Ok cmd ->
  exists cmd0,
    FfmpegCommand.build_slowdown_command h input_path output_path (without_preview o)
    = Ok cmd0
    /\ if FfmpegCommand.preview o && PrimFloat.ltb 0 (FfmpegCommand.duration o)
          && (0 <? FfmpegCommand.preview_seconds o)
       then exists start,
              cmd = take 5 cmd0
                    ++ ["-ss"; start; "-t"; str_int (FfmpegCommand.preview_seconds o)]
                    ++ drop 5 cmd0
       else cmd = cmd0.
Proof.
  intros Hc. apply build_ok in Hc as (Hs & ffmpeg & seek & Hf & Hp & ->).
  exists ([ffmpeg; "-y"; "-hide_banner"; "-i"; input_path]
          ++ ["-filter_complex"; FfmpegCommand.join ";" (FfmpegCommand.filters o)]
          ++ FfmpegCommand.maps o ++ FfmpegCommand.codec_args o ++ [output_path]).
  split.
  - unfold FfmpegCommand.build_slowdown_command.
    change (FfmpegCommand.has_video (without_preview o)) with (FfmpegCommand.has_video o).
    change (FfmpegCommand.has_audio (without_preview o)) with (FfmpegCommand.has_audio o).
    rewrite Hs, Hf, preview_args_off. simpl.
    change (FfmpegCommand.filters (without_preview o)) with (FfmpegCommand.filters o).
    pose proof (filters_nonempty o Hs). by destruct (FfmpegCommand.filters o).
  - unfold FfmpegCommand.preview_args in Hp.
    destruct (_ && _ && _).
    + destruct (float_of_int _) as [seconds|]; simpl in Hp; [|done].
      injection Hp as <-. by eexists.
    + by injection Hp as <-.
Qed.

Lemma preview_only_inserts_a_seek_witness :
  let o := {| FfmpegCommand.duration := 120; FfmpegCommand.has_video := true;
              FfmpegCommand.has_audio := false; FfmpegCommand.use_rubberband := false;
              FfmpegCommand.video_encoder := "libx264";
              FfmpegCommand.video_preset := "slow"; FfmpegCommand.video_crf := 18;
              FfmpegCommand.audio_codec := "aac"; FfmpegCommand.audio_bitrate := 192;
              FfmpegCommand.copy_subtitles := false;
              FfmpegCommand.preview := true; FfmpegCommand.preview_seconds := 20 |} in
  let cmd := ["/usr/bin/ffmpeg"; "-y"; "-hide_banner"; "-i"; "in.mp4";
              "-ss"; "50.000"; "-t"; "20";
              "-filter_complex"; "[0:v]setpts=2*PTS[v]"; "-map"; "[v]";
              "-c:v"; "libx264"; "-preset"; "slow"; "-crf"; "18";
              "-map_metadata"; "0"; "-map_chapters"; "0";
              "-movflags"; "+faststart"; "out.mp4"] in
  FfmpegCommand.build_slowdown_command FfmpegCommand.host_with_path "in.mp4" "out.mp4" o
  = Ok cmd
  /\ exists cmd0,
      FfmpegCommand.build_slowdown_command FfmpegCommand.host_with_path
        "in.mp4" "out.mp4" (without_preview o) = Ok cmd0
      /\ exists start, cmd = take 5 cmd0 ++ ["-ss"; start; "-t"; "20"] ++ drop 5 cmd0.
Proof.
  intros o cmd.
  assert (FfmpegCommand.build_slowdown_command FfmpegCommand.host_with_path
            "in.mp4" "out.mp4" o = Ok cmd) as Hc by (by vm_compute).
  split; [done|].
  exact (preview_only_inserts_a_seek _ _ _ _ _ Hc).
Defined.



(* ================================================================== *)
(** * Properties of the job list of the window *)

Section JobList.
Import Window.

Lemma index_from_rows (b i : Z) (idx : nat) (l : list Job) :
  (forall k j, l !! k = Some j -> id j = b + Z.of_nat k) ->
  index_from i idx l
  = if (b <=? i) && (i <? b + Z.of_nat (length l))
    then Some (idx + Z.to_nat (i - b))%nat else None.
Proof.
  revert b idx. induction l as [|j rest IH]; intros b idx Hl.
  - simpl. destruct (Z.leb_spec b i), (Z.ltb_spec i (b + Z.of_nat 0)); simpl; try done; lia.
  - cbn [index_from]. rewrite (Hl 0%nat j eq_refl), Z.add_0_r.
    destruct (Z.eqb_spec b i) as [->|Hne].
    + rewrite Z.leb_refl, Z.sub_diag, Nat.add_0_r.
      destruct (Z.ltb_spec i (i + Z.of_nat (length (j :: rest)))); simpl in *; [done|lia].
    + rewrite (IH (b + 1) (S idx)).
      2:{ intros k j' Hk. rewrite (Hl (S k) j' Hk). lia. }
      cbn [length].
      destruct (Z.leb_spec (b + 1) i), (Z.leb_spec b i),
        (Z.ltb_spec i (b + 1 + Z.of_nat (length rest))),
        (Z.ltb_spec i (b + Z.of_nat (S (length rest)))); simpl; try lia; try done.
      f_equal. lia.
Qed.

Lemma append_all_jobs files w :
  jobs (append_all files w)
  = jobs w ++ imap (fun k f => new_job (next_job_id w + Z.of_nat k) f.1 f.2) files.
Proof.
  revert w. induction files as [|[in_path out_path] rest IH]; intros w.
  - simpl. by rewrite app_nil_r.
  - cbn [append_all]. rewrite IH. cbn [imap _append_job_row jobs next_job_id].
    rewrite <-app_assoc. cbn [app]. rewrite Z.add_0_r. do 2 f_equal.
    apply imap_ext. intros k f _. simpl. f_equal. lia.
Qed.

Lemma append_all_next files w :
  next_job_id (append_all files w) = next_job_id w + Z.of_nat (length files).
Proof.
  revert w. induction files as [|[a b] fs IH]; intros w; simpl; [lia|].
  rewrite IH. simpl. lia.
Qed.

Lemma append_all_lookup files k in_path out_path :
  files !! k = Some (in_path, out_path) ->
  jobs (append_all files MainWindow_init) !! k
  = Some (new_job (Z.of_nat k + 1) in_path out_path).
Proof.
  intros Hk. rewrite append_all_jobs. cbn [jobs MainWindow_init app next_job_id].
  rewrite list_lookup_imap, Hk. simpl. do 2 f_equal. lia.
Qed.


Lemma retry_id j : id (retry j) = id j.
Proof. unfold retry. by destruct (retryable _). Qed.

Lemma index_from_insert_retry i idx l r j :
  l !! r = Some j -> index_from i idx (<[r := retry j]> l) = index_from i idx l.
Proof.
  revert idx r. induction l as [|x rest IH]; intros idx r Hr; [done|].
  destruct r as [|r]; simpl in *.
  - injection Hr as ->. by rewrite retry_id.
  - destruct (id x =? i); [done|]. by apply IH.
Qed.


End JobList.

(** X17.  In a window filled by [_append_job_row] from its initial state,
    the job of the k-th added file sits in row k, is a fresh Pending job
    and has the id k + 1; [_index_by_job_id] finds exactly the ids 1 to
    the number of rows, each in the row of its job, and returns None for
    every other id. *)
Theorem job_ids_are_row_numbers (files : list (string * string)) (i : Z) :
  let w := Window.append_all files Window.MainWindow_init in
  Window._index_by_job_id i w
  = (if (1 <=? i) && (i <=? Z.of_nat (length files))
     then Some (Z.to_nat (i - 1)) else None)
  /\ Window.next_job_id w = Z.of_nat (length files) + 1
  /\ forall k in_path out_path,
       files !! k = Some (in_path, out_path) ->
       Window.jobs w !! k = Some (new_job (Z.of_nat k + 1) in_path out_path)
       /\ Window._index_by_job_id (Z.of_nat k + 1) w = Some k.
Proof.
  intros w.
  assert (forall i', Window._index_by_job_id i' w
                     = if (1 <=? i') && (i' <=? Z.of_nat (length files))
                       then Some (Z.to_nat (i' - 1)) else None) as Hidx.
  { intros i'. unfold Window._index_by_job_id.
    rewrite (index_from_rows 1 i' 0).
    - assert (length (Window.jobs w) = length files) as ->.
      { unfold w. rewrite append_all_jobs. simpl. by rewrite length_imap. }
      destruct (Z.leb_spec 1 i'), (Z.ltb_spec i' (1 + Z.of_nat (length files))),
        (Z.leb_spec i' (Z.of_nat (length files))); simpl; try lia; done.
    - intros k j. unfold w. rewrite append_all_jobs. simpl.
      rewrite list_lookup_imap. destruct (files !! k) as [f|]; [|done].
      simpl. by intros [= <-]. }
  split; [apply Hidx|]. split.
  - unfold w. rewrite append_all_next. simpl. lia.
  - intros k in_path out_path Hk. split; [by apply append_all_lookup|].
    rewrite Hidx. apply lookup_lt_Some in Hk.
    destruct (Z.leb_spec 1 (Z.of_nat k + 1)),
      (Z.leb_spec (Z.of_nat k + 1) (Z.of_nat (length files))); simpl; try lia.
    f_equal. lia.
Qed.

Lemma job_ids_are_row_numbers_witness :
  let files := [("a.mp4", "a_1x.mp4"); ("b.mp4", "b_1x.mp4")] in
  let w := Window.append_all files Window.MainWindow_init in
  files !! 1%nat = Some ("b.mp4", "b_1x.mp4")
  /\ Window.jobs w !! 1%nat = Some (new_job 2 "b.mp4" "b_1x.mp4")
  /\ Window._index_by_job_id 2 w = Some 1%nat
  /\ Window._index_by_job_id 3 w = None.
Proof.
  intros files w. split; [reflexivity|].
  destruct (job_ids_are_row_numbers files 3) as (H3 & _ & Hrow).
  destruct (Hrow 1%nat "b.mp4" "b_1x.mp4" eq_refl) as [Hjob Hidx].
  split; [exact Hjob|]. split; [exact Hidx | exact H3].
Defined.



(** X19.  [_retry_selected] never moves a job: after it, every id is found
    by [_index_by_job_id] in the row it had before, and the next id to
    hand out is the same. *)
Theorem retry_keeps_rows (rows : list nat) (w w' : Window.MainWindow) (i : Z) :
  Window._retry_selected rows w = Ok w' ->
  Window._index_by_job_id i w' = Window._index_by_job_id i w
  /\ length (Window.jobs w') = length (Window.jobs w)
  /\ Window.next_job_id w' = Window.next_job_id w.
Proof.
  revert w. induction rows as [|r rest IH]; intros w; cbn [Window._retry_selected].
  - by intros [= <-].
  - destruct (Window.jobs w !! r) as [j|] eqn:Hj; [|done].
    intros Hr. apply IH in Hr as (Hi & Hl & Hn).
    unfold Window._index_by_job_id in *. cbn [Window.jobs Window.next_job_id] in *.
    rewrite Hi, Hl, Hn, length_insert. by rewrite index_from_insert_retry.
Qed.

Lemma retry_keeps_rows_witness :
  let w := {| Window.jobs := [mark_canceled 9 (new_job 1 "a" "a1");
                              mark_failed 7 "x" (new_job 2 "b" "b1")];
              Window.next_job_id := 3 |} in
  exists w', Window._retry_selected [1%nat; 0%nat] w = Ok w'
             /\ Window._index_by_job_id 2 w' = Some 1%nat.
Proof.
  intros w. eexists. split; [reflexivity|].
  refine (eq_trans (proj1 (retry_keeps_rows [1%nat; 0%nat] w _ 2 eq_refl)) _).
  reflexivity.
Defined.

(** A read of the stream that raises after the first line: the run has
    reported its status, the start and the first line, and ends there,
    with no finished event. *)
Example run_under_read_error :
  run_under (B := Decimal.builtins)
    (Some (read_raises 1 (ValueError "'utf-8' codec can't decode byte 0xff")))
    (ProcessorWorker_init job_queued)
    (world [line_banner; line_5s] None (exited 0))
  = Ok (propagates (ValueError "'utf-8' codec can't decode byte 0xff")
          (set_ffmpeg_pid 4242 (mark_running 100 job_queued))
          [sig_status 1 "Running"; sig_started 1 4242;
           sig_log 1 "Press [q] to stop, [?] for help"]).
Proof. vm_compute. reflexivity. Qed.
